(** * Snagging List Report Writer: the report tree, its edits and the PDF export

    A shallow embedding of [src/App.tsx] (the report collection) and of
    [components/ReportEditor.tsx] (the editor state, its update handlers,
    the aggregate counts and [handleExportPDF]).

    React state is modelled by explicit state passing: a handler that calls
    [setCurrentReport (prev => e)] is the function [fun prev => e] on the
    editor state, and the readings of [Date.now()] and [Math.random()] a
    handler takes are arguments of its model. *)

From Stdlib Require Import ZArith QArith Qround Lia Lqa Ascii.
From stdpp Require Import base decidable numbers list strings pretty gmap
  sorting.

Close Scope Q_scope.
Local Open Scope string_scope.
Local Open Scope Z_scope.
Local Open Scope list_scope.

(** ** Entity model ([ReportEditor.tsx], lines 8-46) *)

Inductive SnagPriority := critical | high | medium | low.
Inductive SnagStatus := open | in_progress | resolved.
Inductive ReportStatus := working | complete | archived.

#[global] Instance SnagPriority_eq_dec : EqDecision SnagPriority.
Proof. solve_decision. Defined.
#[global] Instance SnagStatus_eq_dec : EqDecision SnagStatus.
Proof. solve_decision. Defined.
#[global] Instance ReportStatus_eq_dec : EqDecision ReportStatus.
Proof. solve_decision. Defined.

(** The string values of the two union types, as the TypeScript source
    spells them. *)
Definition SnagPriority_str (p : SnagPriority) : string :=
  match p with
  | critical => "critical" | high => "high" | medium => "medium" | low => "low"
  end.

Definition SnagStatus_str (s : SnagStatus) : string :=
  match s with
  | open => "open" | in_progress => "in-progress" | resolved => "resolved"
  end.

Record Photo := mkPhoto {
  photo_id : string;
  photo_url : string;
  photo_name : option string
}.

Record SnagItem := mkSnagItem {
  snag_id : string;
  location : string;
  description : string;
  priority : SnagPriority;
  snag_status : SnagStatus;
  photos : list Photo;
  snag_createdAt : Z
}.

Record Room := mkRoom {
  room_id : string;
  room_name : string;
  snags : list SnagItem
}.

Record SnaggingReport := mkSnaggingReport {
  report_id : string;
  propertyAddress : string;
  developerName : string;
  clientName : string;
  plotNumber : string;
  inspectionDate : string;
  report_status : ReportStatus;
  rooms : list Room;
  coverPhoto : option Photo;
  report_createdAt : Z;
  lastModified : Z
}.

(** [Partial<SnagItem>]: every key of a snag, present or not. *)
Record SnagUpdates := mkSnagUpdates {
  u_id : option string;
  u_location : option string;
  u_description : option string;
  u_priority : option SnagPriority;
  u_status : option SnagStatus;
  u_photos : option (list Photo);
  u_createdAt : option Z
}.

(** [{ photos: ps }] *)
Definition photos_only (ps : list Photo) : SnagUpdates :=
  mkSnagUpdates None None None None None (Some ps) None.

(** Object spreads.  [{ ...room, snags: x }], [{ ...prev, rooms: x }],
    [{ ...r, status }], [{ ...currentReport, lastModified: t }] and
    [{ ...snag, ...updates }]. *)
Definition room_with_snags (room : Room) (x : list SnagItem) : Room :=
  {| room_id := room_id room; room_name := room_name room; snags := x |}.

Definition report_with_rooms (prev : SnaggingReport) (x : list Room)
  : SnaggingReport :=
  {| report_id := report_id prev;
     propertyAddress := propertyAddress prev;
     developerName := developerName prev;
     clientName := clientName prev;
     plotNumber := plotNumber prev;
     inspectionDate := inspectionDate prev;
     report_status := report_status prev;
     rooms := x;
     coverPhoto := coverPhoto prev;
     report_createdAt := report_createdAt prev;
     lastModified := lastModified prev |}.

Definition report_with_status (r : SnaggingReport) (status : ReportStatus)
  : SnaggingReport :=
  {| report_id := report_id r;
     propertyAddress := propertyAddress r;
     developerName := developerName r;
     clientName := clientName r;
     plotNumber := plotNumber r;
     inspectionDate := inspectionDate r;
     report_status := status;
     rooms := rooms r;
     coverPhoto := coverPhoto r;
     report_createdAt := report_createdAt r;
     lastModified := lastModified r |}.

Definition report_with_lastModified (r : SnaggingReport) (t : Z)
  : SnaggingReport :=
  {| report_id := report_id r;
     propertyAddress := propertyAddress r;
     developerName := developerName r;
     clientName := clientName r;
     plotNumber := plotNumber r;
     inspectionDate := inspectionDate r;
     report_status := report_status r;
     rooms := rooms r;
     coverPhoto := coverPhoto r;
     report_createdAt := report_createdAt r;
     lastModified := t |}.

Definition snag_merge (snag : SnagItem) (updates : SnagUpdates) : SnagItem :=
  {| snag_id := default (snag_id snag) (u_id updates);
     location := default (location snag) (u_location updates);
     description := default (description snag) (u_description updates);
     priority := default (priority snag) (u_priority updates);
     snag_status := default (snag_status snag) (u_status updates);
     photos := default (photos snag) (u_photos updates);
     snag_createdAt := default (snag_createdAt snag) (u_createdAt updates) |}.

(** ** The default room catalog ([App.tsx], lines 15-36) *)

Definition DEFAULT_ROOMS : list string :=
  [ "Front Elevation"; "Rear Elevation"; "Driveway/Parking";
    "Garden/Landscaping"; "Hallway/Entrance"; "Living Room"; "Kitchen";
    "Dining Room"; "Utility Room"; "WC/Cloakroom"; "Landing";
    "Master Bedroom"; "En-Suite"; "Bedroom 2"; "Bedroom 3"; "Bedroom 4";
    "Family Bathroom"; "Garage"; "Loft Space"; "General/Miscellaneous" ].

(** [`room-${idx}-${now}`] *)
Definition roomId_of (idx : nat) (now : Z) : string :=
  "room-" +:+ pretty idx +:+ "-" +:+ pretty now.

Definition default_rooms (now : nat → Z) : list Room :=
  imap (λ idx name, mkRoom (roomId_of idx (now idx)) name []) DEFAULT_ROOMS.

(** ** The report collection ([App.tsx]) *)

(** [handleNewReport]: [now] is the one reading of [Date.now()], [today]
    the ISO date [new Date().toISOString().split('T')[0]]. *)
Definition newReport (now : Z) (today : string) : SnaggingReport :=
  {| report_id := "report-" +:+ pretty now;
     propertyAddress := "";
     developerName := "";
     clientName := "";
     plotNumber := "";
     inspectionDate := today;
     report_status := working;
     rooms := default_rooms (λ _, now);
     coverPhoto := None;
     report_createdAt := now;
     lastModified := now |}.

Definition handleNewReport (now : Z) (today : string)
    (prev : list SnaggingReport) : list SnaggingReport :=
  prev ++ [newReport now today].

Definition handleDeleteReport (id : string) (prev : list SnaggingReport)
  : list SnaggingReport :=
  filter (λ r, report_id r ≠ id) prev.

Definition handleStatusChange (id : string) (status : ReportStatus)
    (prev : list SnaggingReport) : list SnaggingReport :=
  (λ r, if decide (report_id r = id) then report_with_status r status else r)
    <$> prev.

Definition handleSaveReport (updatedReport : SnaggingReport)
    (prev : list SnaggingReport) : list SnaggingReport :=
  (λ r, if decide (report_id r = report_id updatedReport)
        then updatedReport else r) <$> prev.

(** ** The editor state and its handlers ([ReportEditor.tsx], lines 138-265) *)

(** The initial value of [currentReport]; the default rooms take one clock
    reading each. *)
Definition initCurrentReport (now : nat → Z) (report : SnaggingReport)
  : SnaggingReport :=
  if decide (length (rooms report) = 0%nat)
  then report_with_rooms report (default_rooms now)
  else report.

Definition handleSave (now : Z) (currentReport : SnaggingReport)
  : SnaggingReport :=
  report_with_lastModified currentReport now.

(** [`snag-${Date.now()}`] *)
Definition snagId_of (now : Z) : string := "snag-" +:+ pretty now.

(** The [newSnag] of [handleAddSnag]; the handler reads the clock twice,
    once for the id and once for [createdAt]. *)
Definition newSnag (idNow createdNow : Z) : SnagItem :=
  {| snag_id := snagId_of idNow;
     location := "";
     description := "";
     priority := medium;
     snag_status := open;
     photos := [];
     snag_createdAt := createdNow |}.

Definition handleAddSnag (roomId : string) (idNow createdNow : Z)
    (prev : SnaggingReport) : SnaggingReport :=
  report_with_rooms prev
    ((λ room, if decide (room_id room = roomId)
              then room_with_snags room (snags room ++ [newSnag idNow createdNow])
              else room) <$> rooms prev).

Definition handleUpdateSnag (roomId snagId : string) (updates : SnagUpdates)
    (prev : SnaggingReport) : SnaggingReport :=
  report_with_rooms prev
    ((λ room, if decide (room_id room = roomId)
              then room_with_snags room
                     ((λ snag, if decide (snag_id snag = snagId)
                               then snag_merge snag updates else snag)
                        <$> snags room)
              else room) <$> rooms prev).

Definition handleDeleteSnag (roomId snagId : string) (prev : SnaggingReport)
  : SnaggingReport :=
  report_with_rooms prev
    ((λ room, if decide (room_id room = roomId)
              then room_with_snags room
                     (filter (λ s, snag_id s ≠ snagId) (snags room))
              else room) <$> rooms prev).

(** ** Aggregate counts ([ReportEditor.tsx] 263-265, [App.tsx] 127-128) *)

Definition totalSnags (currentReport : SnaggingReport) : nat :=
  foldl (λ sum room, sum + length (snags room))%nat 0%nat (rooms currentReport).

Definition openSnags (currentReport : SnaggingReport) : nat :=
  foldl (λ sum room,
           sum + length (filter (λ s, snag_status s = open) (snags room)))%nat
        0%nat (rooms currentReport).

Definition criticalSnags (currentReport : SnaggingReport) : nat :=
  foldl (λ sum room,
           sum + length (filter (λ s, priority s = critical) (snags room)))%nat
        0%nat (rooms currentReport).

(** The dashboard projection of [App.tsx]. *)
Record SavedReport := mkSavedReport {
  saved_id : string;
  saved_propertyAddress : string;
  saved_developerName : string;
  saved_clientName : string;
  saved_plotNumber : string;
  saved_inspectionDate : string;
  saved_lastModified : Z;
  saved_status : ReportStatus;
  saved_totalSnags : nat;
  saved_openSnags : nat
}.

Definition dashboardReport (r : SnaggingReport) : SavedReport :=
  {| saved_id := report_id r;
     saved_propertyAddress := propertyAddress r;
     saved_developerName := developerName r;
     saved_clientName := clientName r;
     saved_plotNumber := plotNumber r;
     saved_inspectionDate := inspectionDate r;
     saved_lastModified := lastModified r;
     saved_status := report_status r;
     saved_totalSnags :=
       foldl (λ sum room, sum + length (snags room))%nat 0%nat (rooms r);
     saved_openSnags :=
       foldl (λ sum room,
                sum + length (filter (λ s, snag_status s = open) (snags room)))%nat
             0%nat (rooms r) |}.

Definition dashboardReports (reports : list SnaggingReport) : list SavedReport :=
  dashboardReport <$> reports.

(** ** Photo upload ([ReportEditor.tsx], lines 224-249) *)

(** One file of the [FileList] once its [FileReader] has finished:
    [file.name], [reader.result], and the readings of [Date.now()] and of
    [Math.random().toString(36).substr(2, 9)] its [onloadend] takes. *)
Record LoadedFile := mkLoadedFile {
  file_name : string;
  file_result : string;
  file_now : Z;
  file_random : string
}.

(** [`photo-${Date.now()}-${Math.random().toString(36).substr(2, 9)}`] *)
Definition photoId_of (now : Z) (random : string) : string :=
  "photo-" +:+ pretty now +:+ "-" +:+ random.

Definition photo_of (file : LoadedFile) : Photo :=
  {| photo_id := photoId_of (file_now file) (file_random file);
     photo_url := file_result file;
     photo_name := Some (file_name file) |}.

(** [currentReport.rooms.find(r => r.id === roomId)?.snags.find(s => s.id === snagId)] *)
Definition find_snag (currentReport : SnaggingReport) (roomId snagId : string)
  : option SnagItem :=
  match List.find (λ r, bool_decide (room_id r = roomId)) (rooms currentReport) with
  | Some room => List.find (λ s, bool_decide (snag_id s = snagId)) (snags room)
  | None => None
  end.

(** [... ?.photos || []] *)
Definition find_photos (currentReport : SnaggingReport) (roomId snagId : string)
  : list Photo :=
  match find_snag currentReport roomId snagId with
  | Some snag => photos snag
  | None => []
  end.

(** [reader.onloadend].  [currentReport] is the variable the closure
    captured when [handlePhotoUpload] was called; the state the update is
    applied to is the argument [prev] of the updater that
    [handleUpdateSnag] passes to [setCurrentReport]. *)
Definition onloadend (currentReport : SnaggingReport) (roomId snagId : string)
    (file : LoadedFile) (prev : SnaggingReport) : SnaggingReport :=
  handleUpdateSnag roomId snagId
    (photos_only (find_photos currentReport roomId snagId ++ [photo_of file]))
    prev.

(** [handlePhotoUpload]: one reader per file; [files] lists the files of the
    batch in the order in which their readers finish. *)
Definition handlePhotoUpload (currentReport : SnaggingReport)
    (roomId snagId : string) (files : list LoadedFile)
    (prev : SnaggingReport) : SnaggingReport :=
  foldl (λ st file, onloadend currentReport roomId snagId file st) prev files.

Definition handleRemovePhoto (currentReport : SnaggingReport)
    (roomId snagId photoId : string) (prev : SnaggingReport) : SnaggingReport :=
  match find_snag currentReport roomId snagId with
  | Some snag =>
      handleUpdateSnag roomId snagId
        (photos_only (filter (λ p, photo_id p ≠ photoId) (photos snag)))
        prev
  | None => prev
  end.

(** ** The drawing surface

    The part of the jsPDF object that [handleExportPDF] drives: the current
    fill colour, text colour, font and font size, the finished pages and the
    page being drawn.  A drawing call records what it draws together with
    the settings in force.  Distances are in millimetres.  The font family
    is helvetica throughout, so [setFont] keeps the style only; [rect] and
    [circle] are always called with the fill style ['F'].  A text is
    recorded with the string and the baseline it was given: how jsPDF lays
    the string out is outside the model. *)

Definition rgb : Type := Z * Z * Z.

Inductive item :=
| Rect (x y : Z) (w : Q) (h : Z) (fill : rgb)
| Circle (x y r : Z) (fill : rgb)
| Text (s : string) (x y : Z) (color : rgb) (fontStyle : string) (fontSize : Z).

Record jsPDF := mkPDF {
  fillColor : rgb;
  textColor : rgb;
  fontStyle : string;
  fontSize : Z;
  donePages : list (list item);
  lastPage : list item
}.

(** [new jsPDF('p', 'mm', 'a4')]: one empty page, black on white, 16pt. *)
Definition new_jsPDF : jsPDF :=
  mkPDF (0, 0, 0) (0, 0, 0) "normal" 16 [] [].

Definition pages (pdf : jsPDF) : list (list item) :=
  donePages pdf ++ [lastPage pdf].

Definition draw (i : item) (pdf : jsPDF) : jsPDF :=
  mkPDF (fillColor pdf) (textColor pdf) (fontStyle pdf) (fontSize pdf)
        (donePages pdf) (lastPage pdf ++ [i]).

Definition setFillColor (c : rgb) (pdf : jsPDF) : jsPDF :=
  mkPDF c (textColor pdf) (fontStyle pdf) (fontSize pdf)
        (donePages pdf) (lastPage pdf).

Definition setTextColor (c : rgb) (pdf : jsPDF) : jsPDF :=
  mkPDF (fillColor pdf) c (fontStyle pdf) (fontSize pdf)
        (donePages pdf) (lastPage pdf).

Definition setFontSize (n : Z) (pdf : jsPDF) : jsPDF :=
  mkPDF (fillColor pdf) (textColor pdf) (fontStyle pdf) n
        (donePages pdf) (lastPage pdf).

Definition setFont (style : string) (pdf : jsPDF) : jsPDF :=
  mkPDF (fillColor pdf) (textColor pdf) style (fontSize pdf)
        (donePages pdf) (lastPage pdf).

Definition rect (x y : Z) (w : Q) (h : Z) (pdf : jsPDF) : jsPDF :=
  draw (Rect x y w h (fillColor pdf)) pdf.

Definition circle (x y r : Z) (pdf : jsPDF) : jsPDF :=
  draw (Circle x y r (fillColor pdf)) pdf.

Definition text (s : string) (x y : Z) (pdf : jsPDF) : jsPDF :=
  draw (Text s x y (textColor pdf) (fontStyle pdf) (fontSize pdf)) pdf.

Definition addPage (pdf : jsPDF) : jsPDF :=
  mkPDF (fillColor pdf) (textColor pdf) (fontStyle pdf) (fontSize pdf)
        (donePages pdf ++ [lastPage pdf]) [].

(** ** String helpers of the export *)

(** [a || b] on strings: the empty string is falsy. *)
Definition or_else (a b : string) : string :=
  match a with "" => b | _ => a end.

(** [s.replace(pat, rep)] with a string pattern: the first occurrence only. *)
Fixpoint replace (pat rep s : string) : string :=
  if String.prefix pat s
  then rep +:+ String.substring (String.length pat) (String.length s) s
  else match s with
       | "" => ""
       | String c s' => String c (replace pat rep s')
       end.

(** [toUpperCase] on the ASCII letters; the export applies it to the
    priority and status words only. *)
Definition upper_ascii (c : Ascii.ascii) : Ascii.ascii :=
  let n := Ascii.N_of_ascii c in
  if ((97 <=? n) && (n <=? 122))%N then Ascii.ascii_of_N (n - 32) else c.

Fixpoint toUpperCase (s : string) : string :=
  match s with
  | "" => ""
  | String c s' => String (upper_ascii c) (toUpperCase s')
  end.

(** ** [handleExportPDF] ([ReportEditor.tsx], lines 267-366)

    The cursor [y] starts at 80, is reset to [margin] and moves by whole
    millimetres, so it is an integer throughout; the page size comes from
    jsPDF ([pdf.internal.pageSize]) and is a rational argument here. *)

Definition margin : Z := 15.

(** [y > pageHeight - d] *)
Definition below (y : Z) (pageHeight : Q) (d : Z) : bool :=
  negb (Qle_bool (inject_Z y) (pageHeight - inject_Z d)%Q).

(** [if (y > pageHeight - d) { pdf.addPage(); y = margin; }] *)
Definition pageBreak (pageHeight : Q) (d : Z) (st : jsPDF * Z) : jsPDF * Z :=
  if below st.2 pageHeight d then (addPage st.1, margin) else st.

Definition priorityColors (p : SnagPriority) : rgb :=
  match p with
  | critical => (220, 38, 38)
  | high => (245, 158, 11)
  | medium => (59, 130, 246)
  | low => (34, 197, 94)
  end.

Definition summaryLine (snag : SnagItem) : string :=
  or_else (location snag) "No location" +:+ ": "
    +:+ or_else (description snag) "No description".

Definition statusLine (snag : SnagItem) : string :=
  "Priority: " +:+ toUpperCase (SnagPriority_str (priority snag))
    +:+ " | Status: "
    +:+ toUpperCase (replace "-" " " (SnagStatus_str (snag_status snag))).

(** Lines 276-318: the title band, the property details and the summary. *)
Definition drawCover (pageWidth : Q) (currentReport : SnaggingReport)
    (pdf : jsPDF) : jsPDF * Z :=
  let pdf := setFillColor (0, 45, 98) pdf in
  let pdf := rect 0 0 pageWidth 60 pdf in
  let pdf := setTextColor (255, 255, 255) pdf in
  let pdf := setFontSize 24 pdf in
  let pdf := text "Snagging List Report" margin 35 pdf in
  let pdf := setFontSize 12 pdf in
  let pdf := setTextColor (212, 184, 138) pdf in
  let pdf := text "Professional New Build Defects Report" margin 45 pdf in
  let pdf := setTextColor (0, 0, 0) pdf in
  let pdf := setFontSize 14 pdf in
  let y := 80 in
  let pdf := setFontSize 12 pdf in
  let pdf := setFont "bold" pdf in
  let pdf := text "Property Details" margin y pdf in
  let y := y + 10 in
  let pdf := setFont "normal" pdf in
  let pdf := text ("Address: " +:+ or_else (propertyAddress currentReport) "Not specified") margin y pdf in
  let y := y + 8 in
  let pdf := text ("Plot Number: " +:+ or_else (plotNumber currentReport) "Not specified") margin y pdf in
  let y := y + 8 in
  let pdf := text ("Client: " +:+ or_else (clientName currentReport) "Not specified") margin y pdf in
  let y := y + 8 in
  let pdf := text ("Developer: " +:+ or_else (developerName currentReport) "Not specified") margin y pdf in
  let y := y + 8 in
  let pdf := text ("Inspection Date: " +:+ or_else (inspectionDate currentReport) "Not specified") margin y pdf in
  let y := y + 15 in
  let pdf := setFont "bold" pdf in
  let pdf := text "Summary" margin y pdf in
  let y := y + 10 in
  let pdf := setFont "normal" pdf in
  let pdf := text ("Total Snags: " +:+ pretty (totalSnags currentReport)) margin y pdf in
  let y := y + 8 in
  let pdf := text ("Open Snags: " +:+ pretty (openSnags currentReport)) margin y pdf in
  let y := y + 8 in
  let pdf := text ("Critical Items: " +:+ pretty (criticalSnags currentReport)) margin y pdf in
  let y := y + 15 in
  (pdf, y).

(** Lines 339-361: the body of [for (const snag of room.snags)]. *)
Definition drawSnag (pageHeight : Q) (st : jsPDF * Z) (snag : SnagItem)
  : jsPDF * Z :=
  let '(pdf, y) := pageBreak pageHeight 30 st in
  let pdf := setFillColor (priorityColors (priority snag)) pdf in
  let pdf := circle (margin + 2) (y - 1) 2 pdf in
  let pdf := text (summaryLine snag) (margin + 8) y pdf in
  let y := y + 6 in
  let pdf := setTextColor (100, 100, 100) pdf in
  let pdf := text (statusLine snag) (margin + 8) y pdf in
  let pdf := setTextColor (0, 0, 0) pdf in
  let y := y + 10 in
  (pdf, y).

(** Lines 321-363: the body of [for (const room of currentReport.rooms)]. *)
Definition drawRoom (pageHeight : Q) (st : jsPDF * Z) (room : Room)
  : jsPDF * Z :=
  if decide (length (snags room) = 0%nat) then st
  else
    let '(pdf, y) := pageBreak pageHeight 40 st in
    let pdf := setFont "bold" pdf in
    let pdf := setFontSize 14 pdf in
    let pdf := setTextColor (0, 61, 130) pdf in
    let pdf := text (room_name room) margin y pdf in
    let y := y + 8 in
    let pdf := setFont "normal" pdf in
    let pdf := setFontSize 10 pdf in
    let pdf := setTextColor (0, 0, 0) pdf in
    let '(pdf, y) := foldl (drawSnag pageHeight) (pdf, y) (snags room) in
    let y := y + 5 in
    (pdf, y).

(** The document handed to [pdf.save]; the name it is saved under is
    [pdf_fileName], further down. *)
Definition exportPDF (pageWidth pageHeight : Q) (currentReport : SnaggingReport)
  : jsPDF :=
  (foldl (drawRoom pageHeight)
         (drawCover pageWidth currentReport new_jsPDF)
         (rooms currentReport)).1.

(** [handleExportPDF]: nothing is produced while [reportRef.current] is
    unset. *)
Definition handleExportPDF (reportRef : bool) (pageWidth pageHeight : Q)
    (currentReport : SnaggingReport) : option jsPDF :=
  if reportRef then Some (exportPDF pageWidth pageHeight currentReport)
  else None.

(** ** What the properties below are stated with *)

(** A direct recount over the tree: every snag of the report, room after
    room and in each room in insertion order. *)
Definition all_snags (r : SnaggingReport) : list SnagItem :=
  concat (snags <$> rooms r).

Record Counts := mkCounts { total : nat; open_count : nat; critical_count : nat }.

Definition countSnags (r : SnaggingReport) : Counts :=
  mkCounts (totalSnags r) (openSnags r) (criticalSnags r).

Definition recount (r : SnaggingReport) : Counts :=
  mkCounts (length (all_snags r))
           (length (filter (λ s, snag_status s = open) (all_snags r)))
           (length (filter (λ s, priority s = critical) (all_snags r))).

(** The three snag edits of the editor, with the clock readings of an
    addition. *)
Inductive edit :=
| AddSnag (roomId : string) (idNow createdNow : Z)
| UpdateSnag (roomId snagId : string) (updates : SnagUpdates)
| DeleteSnag (roomId snagId : string).

Definition apply_edit (r : SnaggingReport) (e : edit) : SnaggingReport :=
  match e with
  | AddSnag roomId idNow createdNow => handleAddSnag roomId idNow createdNow r
  | UpdateSnag roomId snagId updates => handleUpdateSnag roomId snagId updates r
  | DeleteSnag roomId snagId => handleDeleteSnag roomId snagId r
  end.

Definition apply_edits (r : SnaggingReport) (es : list edit) : SnaggingReport :=
  foldl apply_edit r es.

(** The ids of the snags of the rooms named [roomId]. *)
Definition snag_ids_in (roomId : string) (r : SnaggingReport) : list string :=
  snag_id <$> concat (snags <$> filter (λ room, room_id room = roomId) (rooms r)).

Definition has_room (roomId : string) (r : SnaggingReport) : Prop :=
  roomId ∈ room_id <$> rooms r.

(** Everything drawn, page after page. *)
Definition items (pdf : jsPDF) : list item := concat (pages pdf).

(** The summary lines of a document: the texts drawn in black at the entry
    indent [margin + 8]. *)
Definition summary_text (i : item) : option string :=
  match i with
  | Text s x _ c _ _ =>
      if decide (x = margin + 8 ∧ c = (0, 0, 0)) then Some s else None
  | _ => None
  end.

Definition summary_lines (pdf : jsPDF) : list string :=
  omap summary_text (items pdf).

(** A report without its empty rooms. *)
Definition without_empty_rooms (r : SnaggingReport) : SnaggingReport :=
  report_with_rooms r (filter (λ room, snags room ≠ []) (rooms r)).

(** The three items of one snag entry drawn with the cursor at [y]. *)
Definition entry_items (snag : SnagItem) (y : Z) : list item :=
  [ Circle (margin + 2) (y - 1) 2 (priorityColors (priority snag));
    Text (summaryLine snag) (margin + 8) y (0, 0, 0) "normal" 10;
    Text (statusLine snag) (margin + 8) (y + 6) (100, 100, 100) "normal" 10 ].

(** The height one entry takes: the cursor moves by 6 and then by 10. *)
Definition entry_height : Z := 16.

(** An item that belongs to a snag entry: a marker, or a text at the entry
    indent. *)
Definition entry_item (i : item) : bool :=
  match i with
  | Circle _ _ _ _ => true
  | Text _ x _ _ _ _ => bool_decide (x = margin + 8)
  | Rect _ _ _ _ _ => false
  end.

(** A page on which every snag entry is whole and inside the page: the
    marker and the two lines of an entry follow one another on this page,
    the marker does not start above the top edge and the height of the
    entry ends at or above the bottom edge. *)
Inductive entries_whole (pageHeight : Q) : list item → Prop :=
| entries_whole_nil : entries_whole pageHeight []
| entries_whole_other i l :
    entry_item i = false →
    entries_whole pageHeight l →
    entries_whole pageHeight (i :: l)
| entries_whole_entry snag y l :
    (0 <= y - 3)%Z →
    (inject_Z (y + entry_height) <= pageHeight)%Q →
    entries_whole pageHeight l →
    entries_whole pageHeight (entry_items snag y ++ l).

(** A page on which, besides, the entries do not print over one another:
    read in drawing order from a cursor position [from], every entry is
    drawn at or below the position to which the entry before it advanced
    the cursor, and [to] is the position after the last one. *)
Inductive entries_stacked (pageHeight : Q) : Z → list item → Z → Prop :=
| entries_stacked_nil from : entries_stacked pageHeight from [] from
| entries_stacked_other from to i l :
    entry_item i = false →
    entries_stacked pageHeight from l to →
    entries_stacked pageHeight from (i :: l) to
| entries_stacked_entry from to snag y l :
    (from <= y)%Z → (0 <= y - 3)%Z →
    (inject_Z (y + entry_height) <= pageHeight)%Q →
    entries_stacked pageHeight (y + entry_height) l to →
    entries_stacked pageHeight from (entry_items snag y ++ l) to.

Definition entries_in_order (pageHeight : Q) (page : list item) : Prop :=
  ∃ to, entries_stacked pageHeight 0 page to.

(** The pages a report with snags in one room only fills when the first
    page takes [first] entries and every later page [later] entries. *)
Definition pages_needed (first later n : nat) : nat :=
  if decide (n <= first)%nat then 1%nat
  else (1 + (n - first + later - 1) / later)%nat.

(** The error of the update operations in the specification. *)
Inductive UpdateError := NotFound.

(** [addSnag] in the words of the specification: the new empty snag goes to
    the end of the named room, and the operation fails with [NotFound] when
    no room of the report has that id. *)
Definition addSnag_spec (roomId : string) (idNow createdNow : Z)
    (r : SnaggingReport) : UpdateError + SnaggingReport :=
  if decide (roomId ∈ room_id <$> rooms r)
  then inr (report_with_rooms r
              ((λ room, if decide (room_id room = roomId)
                        then room_with_snags room
                               (snags room ++ [newSnag idNow createdNow])
                        else room) <$> rooms r))
  else inl NotFound.

(** A report with some content, used in the examples: a kitchen with one
    snag created at clock reading 1000 and an empty hallway. *)
Definition sample_snag : SnagItem :=
  {| snag_id := snagId_of 1000;
     location := "Under sink";
     description := "Leak";
     priority := critical;
     snag_status := open;
     photos := [];
     snag_createdAt := 1000 |}.

Definition sample_report : SnaggingReport :=
  {| report_id := "report-900";
     propertyAddress := "1 High Street";
     developerName := "";
     clientName := "";
     plotNumber := "12";
     inspectionDate := "2024-05-01";
     report_status := working;
     rooms := [ mkRoom "room-0-900" "Kitchen" [sample_snag];
                mkRoom "room-1-900" "Hallway/Entrance" [] ];
     coverPhoto := None;
     report_createdAt := 900;
     lastModified := 900 |}.

(** Two files of one upload batch. *)
Definition sample_file_a : LoadedFile :=
  mkLoadedFile "sink.jpg" "data:image/jpeg;base64,AAAA" 3000 "k3j9x0q2a".

Definition sample_file_b : LoadedFile :=
  mkLoadedFile "pipe.jpg" "data:image/jpeg;base64,BBBB" 3001 "z81mmc04t".

(** The settings in force while the entries of a room are drawn. *)
Definition entry_ready (pdf : jsPDF) : Prop :=
  textColor pdf = (0, 0, 0) ∧ fontStyle pdf = "normal" ∧ fontSize pdf = 10.

(** Every page of the document so far has whole entries only. *)
Definition pages_whole (pageHeight : Q) (pdf : jsPDF) : Prop :=
  Forall (entries_whole pageHeight) (donePages pdf) ∧
  entries_whole pageHeight (lastPage pdf).

(** Every page of the document so far has its entries in order, and on
    the page being drawn they end at or above the cursor [y]. *)
Definition pages_stacked (pageHeight : Q) (pdf : jsPDF) (y : Z) : Prop :=
  Forall (entries_in_order pageHeight) (donePages pdf) ∧
  ∃ to, entries_stacked pageHeight 0 (lastPage pdf) to ∧ to <= y.

(** Every text of a document. *)
Definition text_of (i : item) : option string :=
  match i with Text s _ _ _ _ _ => Some s | _ => None end.

Definition texts (pdf : jsPDF) : list string := omap text_of (items pdf).

(** The page breaks that [n] further entries cause on an A4 page when the
    cursor is at [y]: the entries that still fit are counted off first, and
    a fresh page takes 16. *)
Definition page_breaks (y n : Z) : Z :=
  let fit := if decide (267 < y) then 0 else (267 - y) / 16 + 1 in
  if decide (n <= fit) then 0 else (n - fit + 15) / 16.

(** The A4 page of jsPDF in millimetres: 595.28 by 841.89 points at
    72/25.4 points per millimetre. *)
Definition a4_pageWidth : Q := (945007 # 4500)%Q.
Definition a4_pageHeight : Q := (3564001 # 12000)%Q.

(** The sample report with [n] snags in a single room. *)
Definition one_room_report (n : nat) : SnaggingReport :=
  report_with_rooms sample_report
    [mkRoom "room-0-900" "Kitchen" (replicate n sample_snag)].

(** The end-to-end example: a report is created at clock reading [now] and
    opened in the editor; a snag is added to its Kitchen and its four fields
    are set, one edit each as the snag card does. *)
Definition kitchen_snag (idNow createdNow : Z) : SnagItem :=
  {| snag_id := snagId_of idNow;
     location := "Under sink";
     description := "Leak";
     priority := critical;
     snag_status := open;
     photos := [];
     snag_createdAt := createdNow |}.

Definition kitchen_example (now : Z) (today : string) (editorNow : nat → Z)
    (idNow createdNow : Z) : SnaggingReport :=
  let roomId := roomId_of 6 now in
  let snagId := snagId_of idNow in
  let r := initCurrentReport editorNow (newReport now today) in
  let r := handleAddSnag roomId idNow createdNow r in
  let r := handleUpdateSnag roomId snagId
             (mkSnagUpdates None (Some "Under sink") None None None None None) r in
  let r := handleUpdateSnag roomId snagId
             (mkSnagUpdates None None (Some "Leak") None None None None) r in
  let r := handleUpdateSnag roomId snagId
             (mkSnagUpdates None None None (Some critical) None None None) r in
  let r := handleUpdateSnag roomId snagId
             (mkSnagUpdates None None None None (Some open) None None) r in
  r.

(** ** The property fields of the editor ([ReportEditor.tsx], lines 172-174)

    [handlePropertyUpdate(field, value)] is [{ ...prev, [field]: value }]
    with a string [value].  The keys modelled are the keys of a report that
    hold a string; the form passes the five descriptive ones.  Any other key
    would put a string where the type has a status, a list, a photo or a
    number. *)
Inductive ReportField :=
| F_id | F_propertyAddress | F_developerName | F_clientName | F_plotNumber
| F_inspectionDate.

#[global] Instance ReportField_eq_dec : EqDecision ReportField.
Proof. solve_decision. Defined.

Definition handlePropertyUpdate (field : ReportField) (value : string)
    (prev : SnaggingReport) : SnaggingReport :=
  {| report_id := if decide (field = F_id) then value else report_id prev;
     propertyAddress :=
       if decide (field = F_propertyAddress) then value else propertyAddress prev;
     developerName :=
       if decide (field = F_developerName) then value else developerName prev;
     clientName :=
       if decide (field = F_clientName) then value else clientName prev;
     plotNumber :=
       if decide (field = F_plotNumber) then value else plotNumber prev;
     inspectionDate :=
       if decide (field = F_inspectionDate) then value else inspectionDate prev;
     report_status := report_status prev;
     rooms := rooms prev;
     coverPhoto := coverPhoto prev;
     report_createdAt := report_createdAt prev;
     lastModified := lastModified prev |}.

(** [report[field]] *)
Definition report_field (field : ReportField) (r : SnaggingReport) : string :=
  match field with
  | F_id => report_id r
  | F_propertyAddress => propertyAddress r
  | F_developerName => developerName r
  | F_clientName => clientName r
  | F_plotNumber => plotNumber r
  | F_inspectionDate => inspectionDate r
  end.

(** Everything the editor can do to its [currentReport]: the handlers that
    call [setCurrentReport].  A finished file reader carries the report its
    closure captured; [handleRemovePhoto] reads the report of the render it
    was created in. *)
Inductive EditorAction :=
| PropertyUpdate (field : ReportField) (value : string)
| AddSnagTo (roomId : string) (idNow createdNow : Z)
| UpdateSnagIn (roomId snagId : string) (updates : SnagUpdates)
| DeleteSnagIn (roomId snagId : string)
| PhotoLoaded (captured : SnaggingReport) (roomId snagId : string)
    (file : LoadedFile)
| RemovePhoto (captured : SnaggingReport) (roomId snagId photoId : string).

Definition editor_step (r : SnaggingReport) (a : EditorAction) : SnaggingReport :=
  match a with
  | PropertyUpdate field value => handlePropertyUpdate field value r
  | AddSnagTo roomId idNow createdNow => handleAddSnag roomId idNow createdNow r
  | UpdateSnagIn roomId snagId updates => handleUpdateSnag roomId snagId updates r
  | DeleteSnagIn roomId snagId => handleDeleteSnag roomId snagId r
  | PhotoLoaded captured roomId snagId file =>
      onloadend captured roomId snagId file r
  | RemovePhoto captured roomId snagId photoId =>
      handleRemovePhoto captured roomId snagId photoId r
  end.

Definition editor_steps (r : SnaggingReport) (actions : list EditorAction)
  : SnaggingReport :=
  foldl editor_step r actions.

(** The ids and names of the rooms, in order. *)
Definition room_labels (r : SnaggingReport) : list (string * string) :=
  (λ room, (room_id room, room_name room)) <$> rooms r.

(** ** The application ([App.tsx], lines 38-157, and [Login.tsx])

    The four state variables of [App] as one record, its handlers as
    functions on it, and [localStorage] as a finite map from keys to
    strings.  [JSON.parse] and [JSON.stringify] are arguments where the
    stored reports are read or written. *)

Definition REPORTS : string := "snagging-reports".
Definition IS_LOGGED_IN : string := "isLoggedIn".

Inductive View := dashboard | editor.

Record AppState := mkAppState {
  isLoggedIn : bool;
  reports : list SnaggingReport;
  currentView : View;
  currentReportId : option string
}.

(** The two initialisers that read the store (lines 39-46).  The flag is
    compared with ['true'].  The reports are parsed from the stored text
    when it is there and not empty; [parse] stands for [JSON.parse] and
    gives [None] when it throws, or when the value is not an array of
    reports, on which the first render throws (line 118): this component
    has no [try] and no error boundary, so nothing mounts then. *)
Definition App_initLoggedIn (localStorage : gmap string string) : bool :=
  bool_decide (localStorage !! IS_LOGGED_IN = Some "true").

Definition App_initReports (parse : string → option (list SnaggingReport))
    (localStorage : gmap string string) : option (list SnaggingReport) :=
  match localStorage !! REPORTS with
  | Some stored => match stored with
                   | "" => Some []
                   | _ => parse stored
                   end
  | None => Some []
  end.

(** The initial state, when there is one. *)
Definition App_init (parse : string → option (list SnaggingReport))
    (localStorage : gmap string string) : option AppState :=
  match App_initReports parse localStorage with
  | Some reports =>
      Some {| isLoggedIn := App_initLoggedIn localStorage;
              reports := reports;
              currentView := dashboard;
              currentReportId := None |}
  | None => None
  end.

(** The effect that runs whenever [reports] has changed. *)
Definition App_persist (stringify : list SnaggingReport → string)
    (st : AppState) (localStorage : gmap string string)
  : gmap string string :=
  <[REPORTS := stringify (reports st)]> localStorage.

Definition App_handleLogin (st : AppState) : AppState :=
  mkAppState true (reports st) (currentView st) (currentReportId st).

Definition App_handleLogout (st : AppState)
    (localStorage : gmap string string) : AppState * gmap string string :=
  (mkAppState false (reports st) (currentView st) (currentReportId st),
   delete IS_LOGGED_IN localStorage).

Definition App_handleNewReport (now : Z) (today : string) (st : AppState)
  : AppState :=
  mkAppState (isLoggedIn st) (handleNewReport now today (reports st))
             editor (Some (report_id (newReport now today))).

Definition App_handleOpenReport (id : string) (st : AppState) : AppState :=
  mkAppState (isLoggedIn st) (reports st) editor (Some id).

(** [confirmed] is the answer to the [confirm] dialog. *)
Definition App_handleDeleteReport (confirmed : bool) (id : string)
    (st : AppState) : AppState :=
  mkAppState (isLoggedIn st)
             (if confirmed then handleDeleteReport id (reports st)
              else reports st)
             (currentView st) (currentReportId st).

Definition App_handleStatusChange (id : string) (status : ReportStatus)
    (st : AppState) : AppState :=
  mkAppState (isLoggedIn st) (handleStatusChange id status (reports st))
             (currentView st) (currentReportId st).

Definition App_handleSaveReport (updatedReport : SnaggingReport)
    (st : AppState) : AppState :=
  mkAppState (isLoggedIn st) (handleSaveReport updatedReport (reports st))
             (currentView st) (currentReportId st).

Definition App_handleBackToDashboard (st : AppState) : AppState :=
  mkAppState (isLoggedIn st) (reports st) dashboard None.

(** [reports.find(r => r.id === currentReportId)] *)
Definition App_currentReport (st : AppState) : option SnaggingReport :=
  match currentReportId st with
  | Some id => List.find (λ r, bool_decide (report_id r = id)) (reports st)
  | None => None
  end.

(** What [App] renders: the login form, the editor on a report, or the
    dashboard on the projected reports. *)
Inductive Screen :=
| LoginScreen
| EditorScreen (report : SnaggingReport)
| DashboardScreen (rows : list SavedReport).

Definition App_render (st : AppState) : Screen :=
  if negb (isLoggedIn st) then LoginScreen
  else match currentView st, App_currentReport st with
       | editor, Some currentReport => EditorScreen currentReport
       | _, _ => DashboardScreen (dashboardReports (reports st))
       end.

(** [handleSubmit] of the login form: on the demo credentials the flag is
    stored and [onLogin] is called, otherwise the error text is set. *)
Inductive SubmitOutcome :=
| Accepted (localStorage : gmap string string)
| Rejected (error : string).

Definition Login_handleSubmit (username password : string)
    (localStorage : gmap string string) : SubmitOutcome :=
  if bool_decide (username = "admin") && bool_decide (password = "admin")
  then Accepted (<[IS_LOGGED_IN := "true"]> localStorage)
  else Rejected "Invalid credentials. Use admin/admin for demo.".

(** The view mode of the dashboard ([Dashboard.tsx], lines 32-41): read from
    the store when the dashboard mounts, written on every change. *)
Definition VIEW_MODE : string := "snagging-view-mode".

Definition Dashboard_initViewMode (localStorage : gmap string string) : string :=
  match localStorage !! VIEW_MODE with
  | Some mode => or_else mode "grid"
  | None => "grid"
  end.

Definition handleViewModeChange (mode : string)
    (localStorage : gmap string string) : string * gmap string string :=
  (mode, <[VIEW_MODE := mode]> localStorage).

(** ** The list of the dashboard ([Dashboard.tsx], lines 30-75) *)

Inductive Tab := AllTab | StatusTab (status : ReportStatus).
Inductive SortBy := ByDate | ByAddress | ByClient.
Inductive SortOrder := Asc | Desc.

(** [s.includes(sub)] *)
Fixpoint includes (s sub : string) : bool :=
  String.prefix sub s
  || match s with
     | "" => false
     | String _ s' => includes s' sub
     end.

(** [array.sort(compare)].  The sort of JavaScript is stable, and for a
    comparator that orders its arguments consistently the stable sorted
    arrangement is unique; it is computed here by insertion, an element
    going in front of the first one it does not come after. *)
Fixpoint sort_insert {A} (compare : A → A → Z) (x : A) (l : list A) : list A :=
  match l with
  | [] => [x]
  | y :: l' =>
      if decide (compare x y <= 0) then x :: y :: l'
      else y :: sort_insert compare x l'
  end.

Definition js_sort {A} (compare : A → A → Z) (l : list A) : list A :=
  foldr (sort_insert compare) [] l.

Section Dashboard.
(** The case mapping of [toLowerCase] and the order [<] of JavaScript on
    strings are arguments of the model. *)
Variable toLowerCase : string → string.
Variable str_lt : string → string → bool.

(** [activeTab === 'all' || status === activeTab]; the status of a typed
    report is never empty, so [r.status || 'working'] is [r.status]. *)
Definition matchesStatus (activeTab : Tab) (r : SavedReport) : bool :=
  match activeTab with
  | AllTab => true
  | StatusTab status => bool_decide (saved_status r = status)
  end.

Definition matchesSearch (searchQuery : string) (r : SavedReport) : bool :=
  includes (toLowerCase (saved_propertyAddress r)) (toLowerCase searchQuery)
  || includes (toLowerCase (saved_clientName r)) (toLowerCase searchQuery)
  || includes (toLowerCase (saved_developerName r)) (toLowerCase searchQuery).

(** [(a.propertyAddress || '').toLowerCase()] and
    [(a.clientName || '').toLowerCase()] *)
Definition addressKey (r : SavedReport) : string :=
  toLowerCase (or_else (saved_propertyAddress r) "").

Definition clientKey (r : SavedReport) : string :=
  toLowerCase (or_else (saved_clientName r) "").

(** The comparator: [(valA < valB, valA > valB)] by the sort column, then
    the sign by the sort order. *)
Definition compareReports (sortBy : SortBy) (sortOrder : SortOrder)
    (a b : SavedReport) : Z :=
  let '(lt, gt) :=
    match sortBy with
    | ByDate => (saved_lastModified a <? saved_lastModified b,
                 saved_lastModified b <? saved_lastModified a)
    | ByAddress => (str_lt (addressKey a) (addressKey b),
                    str_lt (addressKey b) (addressKey a))
    | ByClient => (str_lt (clientKey a) (clientKey b),
                   str_lt (clientKey b) (clientKey a))
    end in
  if lt then match sortOrder with Asc => -1 | Desc => 1 end
  else if gt then match sortOrder with Asc => 1 | Desc => -1 end
  else 0.

Definition filteredReports (activeTab : Tab) (searchQuery : string)
    (sortBy : SortBy) (sortOrder : SortOrder) (reports : list SavedReport)
  : list SavedReport :=
  js_sort (compareReports sortBy sortOrder)
    (filter (λ r, matchesStatus activeTab r && matchesSearch searchQuery r)
            reports).

(** Two reports with the same value in the sort column. *)
Definition same_sort_key (sortBy : SortBy) (a b : SavedReport) : Prop :=
  match sortBy with
  | ByDate => saved_lastModified a = saved_lastModified b
  | ByAddress => addressKey a = addressKey b
  | ByClient => clientKey a = clientKey b
  end.

#[global] Instance same_sort_key_dec sortBy a b :
  Decision (same_sort_key sortBy a b).
Proof. destruct sortBy; unfold same_sort_key; apply _. Defined.

(** [a] may stand before [b] in the chosen order: the value of [b] in the
    sort column is not below that of [a] when ascending, not above it when
    descending. *)
Definition in_sort_order (sortBy : SortBy) (sortOrder : SortOrder)
    (a b : SavedReport) : Prop :=
  match sortBy, sortOrder with
  | ByDate, Asc => saved_lastModified a <= saved_lastModified b
  | ByDate, Desc => saved_lastModified b <= saved_lastModified a
  | ByAddress, Asc => str_lt (addressKey b) (addressKey a) = false
  | ByAddress, Desc => str_lt (addressKey a) (addressKey b) = false
  | ByClient, Asc => str_lt (clientKey b) (clientKey a) = false
  | ByClient, Desc => str_lt (clientKey a) (clientKey b) = false
  end.
End Dashboard.

(** [toLowerCase] on the ASCII letters, for the examples. *)
Definition lower_ascii (c : Ascii.ascii) : Ascii.ascii :=
  let n := Ascii.N_of_ascii c in
  if ((65 <=? n) && (n <=? 90))%N then Ascii.ascii_of_N (n + 32) else c.

Fixpoint ascii_toLowerCase (s : string) : string :=
  match s with
  | "" => ""
  | String c s' => String (lower_ascii c) (ascii_toLowerCase s')
  end.

(** Three rows of a dashboard. *)
Definition sample_rows : list SavedReport :=
  [ mkSavedReport "report-900" "1 High Street" "Acme Homes" "Ms Patel" "12"
      "2024-05-01" 900 working 3 1;
    mkSavedReport "report-950" "22 Mill Lane" "Acme Homes" "Mr Okoro" "7"
      "2024-05-02" 990 complete 0 0;
    mkSavedReport "report-970" "5 Abbey Road" "Birch Ltd" "Ms Patel" "3"
      "2024-05-03" 990 working 5 5 ].

(** ** What the further properties of the export are stated with *)

(** An item with its vertical position set aside. *)
Definition at_zero (i : item) : item :=
  match i with
  | Rect x _ w h fill => Rect x 0 w h fill
  | Circle x _ r fill => Circle x 0 r fill
  | Text s x _ color style size => Text s x 0 color style size
  end.

(** The heading of a room as [drawRoom] draws it with the cursor at [y]. *)
Definition heading_item (room : Room) (y : Z) : item :=
  Text (room_name room) margin y (0, 61, 130) "bold" 14.

(** What a room adds to the document, positions aside: nothing when it has
    no snag, else its heading and the entries of its snags in order. *)
Definition room_content (room : Room) : list item :=
  if decide (snags room = []) then []
  else at_zero <$> (heading_item room 0
                    :: concat ((λ snag, entry_items snag 0) <$> snags room)).

(** A room heading: a text in the heading colour at the margin. *)
Definition is_heading (i : item) : bool :=
  match i with
  | Text _ x _ color _ _ => bool_decide (x = margin ∧ color = (0, 61, 130))
  | _ => false
  end.

(** A page on which every room heading is directly followed by a whole
    snag entry. *)
Inductive headings_kept : list item → Prop :=
| headings_kept_nil : headings_kept []
| headings_kept_other i l :
    is_heading i = false → headings_kept l → headings_kept (i :: l)
| headings_kept_heading h snag y l :
    is_heading h = true → headings_kept l →
    headings_kept (h :: entry_items snag y ++ l).

(** An item that lies between the top and the bottom edge of the page. *)
Definition inside_page (pageHeight : Q) (i : item) : Prop :=
  match i with
  | Rect _ y _ h _ => 0 <= y ∧ (inject_Z (y + h) <= pageHeight)%Q
  | Circle _ y r _ => 0 <= y - r ∧ (inject_Z (y + r) <= pageHeight)%Q
  | Text _ _ y _ _ _ => 0 <= y ∧ (inject_Z y <= pageHeight)%Q
  end.

(** The invariant of the export loops for the three page properties: no
    page is empty, headings are followed by an entry, items are inside. *)
Definition pages_fine (pageHeight : Q) (pdf : jsPDF) : Prop :=
  Forall (λ page, page ≠ [] ∧ headings_kept page
                  ∧ Forall (inside_page pageHeight) page)
         (donePages pdf) ∧
  lastPage pdf ≠ [] ∧ headings_kept (lastPage pdf) ∧
  Forall (inside_page pageHeight) (lastPage pdf).

(** ** The room list of the editor ([ReportEditor.tsx], lines 152-159,
       251-261 and 438-445) *)

(** The initial [selectedRoomId]: the id of the first room, or [null]. *)
Definition initSelectedRoomId (currentReport : SnaggingReport)
  : option string :=
  match rooms currentReport with
  | room :: _ => Some (room_id room)
  | [] => None
  end.

(** [new Set([selectedRoomId || ''])]; [null] and the empty string are
    falsy. *)
Definition initExpandedRooms (selectedRoomId : option string) : gset string :=
  {[ match selectedRoomId with
     | Some id => if decide (id = "") then "" else id
     | None => ""
     end ]}.

Definition toggleRoomExpand (roomId : string) (prev : gset string)
  : gset string :=
  if decide (roomId ∈ prev) then prev ∖ {[ roomId ]} else prev ∪ {[ roomId ]}.

(** [currentReport.rooms.find(r => r.id === selectedRoomId)] *)
Definition selectedRoom (currentReport : SnaggingReport)
    (selectedRoomId : option string) : option Room :=
  match selectedRoomId with
  | Some id => List.find (λ r, bool_decide (room_id r = id)) (rooms currentReport)
  | None => None
  end.

Record RoomList := mkRoomList {
  selectedRoomId : option string;
  expandedRooms : gset string
}.

Definition initRoomList (currentReport : SnaggingReport) : RoomList :=
  let selected := initSelectedRoomId currentReport in
  mkRoomList selected (initExpandedRooms selected).

(** [onClick] of the button of a room in the side list.  [rendered] is
    the [expandedRooms] of the render that created the handler, which the
    test reads; [toggleRoomExpand] works on the state at the time of the
    update, as the updater of [setExpandedRooms] receives it. *)
Definition room_onClick (rendered : gset string) (roomId : string)
    (st : RoomList) : RoomList :=
  mkRoomList (Some roomId)
    (if decide (roomId ∈ rendered) then expandedRooms st
     else toggleRoomExpand roomId (expandedRooms st)).

(** Clicks with a render between one and the next: every handler was
    created by a render of the state it is applied to. *)
Definition room_clicks (roomIds : list string) (st : RoomList) : RoomList :=
  foldl (λ st roomId, room_onClick (expandedRooms st) roomId st) st roomIds.

(** ** The name of the exported file ([ReportEditor.tsx], line 365) *)

Section FileName.
(** The class [\s] of the regular expression, on the code units of the
    string. *)
Variable is_space : Ascii.ascii → bool.

(** [s.replace(/\s+/g, '-')]: every maximal run of white space becomes one
    hyphen.  [in_run] tells that the character before was white space. *)
Fixpoint replace_spaces (in_run : bool) (s : string) : string :=
  match s with
  | EmptyString => EmptyString
  | String c s' =>
      if is_space c
      then (if in_run then replace_spaces true s'
            else String "-"%char (replace_spaces true s'))
      else String c (replace_spaces false s')
  end.

(** [`snagging-report-${address.replace(/\s+/g, '-') || 'report'}.pdf`];
    the empty string is falsy. *)
Definition pdf_fileName (propertyAddress : string) : string :=
  let name := replace_spaces false propertyAddress in
  "snagging-report-" +:+ (if decide (name = "") then "report" else name)
  +:+ ".pdf".
End FileName.

(** ** Runs of the application ([App.tsx], lines 38-157)

    What can happen after [App] has mounted: the login form is submitted, or
    one of the handlers is called.  The effect on [reports] (lines 52-54)
    writes the store on mount and after every handler that calls
    [setReports].  Where the initialisers throw there is no mount, and the
    effect never runs. *)
Inductive AppAction :=
| SubmitLogin (username password : string)
| Logout
| NewReport (now : Z) (today : string)
| OpenReport (id : string)
| DeleteReport (confirmed : bool) (id : string)
| StatusChange (id : string) (status : ReportStatus)
| SaveReport (updatedReport : SnaggingReport)
| BackToDashboard.

Definition App_mount (parse : string → option (list SnaggingReport))
    (stringify : list SnaggingReport → string)
    (localStorage : gmap string string)
  : option (AppState * gmap string string) :=
  match App_init parse localStorage with
  | Some st => Some (st, App_persist stringify st localStorage)
  | None => None
  end.

Definition App_step (stringify : list SnaggingReport → string)
    (s : AppState * gmap string string) (a : AppAction)
  : AppState * gmap string string :=
  let persisted st := (st, App_persist stringify st s.2) in
  match a with
  | SubmitLogin username password =>
      match Login_handleSubmit username password s.2 with
      | Accepted localStorage => (App_handleLogin s.1, localStorage)
      | Rejected _ => s
      end
  | Logout => App_handleLogout s.1 s.2
  | NewReport now today => persisted (App_handleNewReport now today s.1)
  | OpenReport id => (App_handleOpenReport id s.1, s.2)
  | DeleteReport confirmed id =>
      if confirmed then persisted (App_handleDeleteReport true id s.1)
      else (App_handleDeleteReport false id s.1, s.2)
  | StatusChange id status => persisted (App_handleStatusChange id status s.1)
  | SaveReport updatedReport => persisted (App_handleSaveReport updatedReport s.1)
  | BackToDashboard => (App_handleBackToDashboard s.1, s.2)
  end.

Definition App_run (stringify : list SnaggingReport → string)
    (actions : list AppAction) (s : AppState * gmap string string)
  : AppState * gmap string string :=
  foldl (App_step stringify) s actions.

(** A submission of the login form with the demo credentials. *)
Definition demo_login (a : AppAction) : Prop :=
  match a with
  | SubmitLogin username password => username = "admin" ∧ password = "admin"
  | _ => False
  end.

(** The store agrees with the state: the flag tells whether the user is
    logged in, the reports are stored as they are in memory, and the keys of
    other applications are as in [localStorage]. *)
Definition store_agrees (stringify : list SnaggingReport → string)
    (localStorage : gmap string string)
    (s : AppState * gmap string string) : Prop :=
  isLoggedIn s.1 = bool_decide (s.2 !! IS_LOGGED_IN = Some "true") ∧
  s.2 !! REPORTS = Some (stringify (reports s.1)) ∧
  ∀ k, k ≠ REPORTS → k ≠ IS_LOGGED_IN → s.2 !! k = localStorage !! k.

(** * Properties *)

(** Closed decidable facts are settled by evaluation. *)
Ltac by_decide :=
  first [ apply (bool_decide_eq_false_1 _) | apply (bool_decide_eq_true_1 _) ];
  vm_compute; reflexivity.

(** ** Spreads that change nothing *)

Lemma report_with_rooms_same r : report_with_rooms r (rooms r) = r.
Proof. by destruct r. Qed.

Lemma room_with_snags_same room : room_with_snags room (snags room) = room.
Proof. by destruct room. Qed.

Lemma fmap_if_fixed {A} (P : A → Prop) `{!∀ x, Decision (P x)} (f : A → A)
    (l : list A) :
  (∀ x, x ∈ l → P x → f x = x) →
  (λ x, if decide (P x) then f x else x) <$> l = l.
Proof.
  induction l as [|a l IH]; intros Hfix; [done|].
  cbn. f_equal.
  - case_decide; [|done]. apply Hfix; [left|done].
  - apply IH. intros x Hx. apply Hfix. by right.
Qed.

Lemma snag_ids_in_spec roomId r x :
  x ∈ snag_ids_in roomId r ↔
  ∃ room s, room ∈ rooms r ∧ room_id room = roomId ∧ s ∈ snags room ∧ snag_id s = x.
Proof.
  unfold snag_ids_in. induction (rooms r) as [|room l IH].
  - cbn. split; [by intros ?%elem_of_nil|].
    by intros (? & ? & ?%elem_of_nil & _).
  - destruct (decide (room_id room = roomId)) as [Heq|Hne].
    + rewrite filter_cons_True by done. cbn.
      rewrite fmap_app, elem_of_app, IH. split.
      * intros [(s & -> & Hs)%list_elem_of_fmap | (room' & s & ? & ? & ? & ?)].
        -- exists room, s. by repeat split; [left|..].
        -- exists room', s. by repeat split; [right|..].
      * intros (room' & s & [-> | Hin]%elem_of_cons & ? & ? & ?).
        -- left. apply list_elem_of_fmap. by exists s.
        -- right. by exists room', s.
    + rewrite filter_cons_False by done. rewrite IH. split.
      * intros (room' & s & ? & ? & ? & ?). exists room', s.
        by repeat split; [right|..].
      * intros (room' & s & [-> | Hin]%elem_of_cons & ? & ? & ?); [done|].
        by exists room', s.
Qed.

(** ** The aggregate counts *)

Lemma foldl_sum_concat {A B} (f : A → list B) (g : list B → nat) (l : list A) :
  (∀ k1 k2, g (k1 ++ k2) = (g k1 + g k2)%nat) →
  ∀ acc, foldl (λ sum a, sum + g (f a))%nat acc l = (acc + g (concat (f <$> l)))%nat.
Proof.
  intros Happ. assert (g [] = 0%nat) as Hnil.
  { specialize (Happ [] []). cbn in Happ. lia. }
  induction l as [|a l IH]; intros acc; cbn.
  - lia.
  - rewrite IH, Happ. lia.
Qed.

Lemma countSnags_recount r : countSnags r = recount r.
Proof.
  unfold countSnags, recount, totalSnags, openSnags, criticalSnags, all_snags.
  f_equal.
  - rewrite (foldl_sum_concat snags length); [done|]. intros. by rewrite length_app.
  - rewrite (foldl_sum_concat snags
               (λ k, length (filter (λ s, snag_status s = open) k))); [done|].
    intros. by rewrite filter_app, length_app.
  - rewrite (foldl_sum_concat snags
               (λ k, length (filter (λ s, priority s = critical) k))); [done|].
    intros. by rewrite filter_app, length_app.
Qed.

(** C4.  For every report the counts the editor shows ([totalSnags],
    [openSnags], [criticalSnags]) and the two counts of the dashboard
    projection equal a direct recount over the tree: the number of snags in
    all rooms, the number of them with status open, the number of them with
    priority critical.  The same holds for the report reached by any
    sequence of snag additions, updates and deletions. *)
Theorem C4_counts_equal_recount (r : SnaggingReport) (es : list edit) :
  countSnags r = recount r ∧
  countSnags (apply_edits r es) = recount (apply_edits r es) ∧
  saved_totalSnags (dashboardReport (apply_edits r es))
    = total (recount (apply_edits r es)) ∧
  saved_openSnags (dashboardReport (apply_edits r es))
    = open_count (recount (apply_edits r es)).
Proof.
  split; [apply countSnags_recount|].
  split; [apply countSnags_recount|].
  pose proof (countSnags_recount (apply_edits r es)) as H.
  split.
  - change (total (countSnags (apply_edits r es))
            = total (recount (apply_edits r es))). by rewrite H.
  - change (open_count (countSnags (apply_edits r es))
            = open_count (recount (apply_edits r es))). by rewrite H.
Qed.

(** ** The snag edits *)

Lemma snagId_of_inj t1 t2 : snagId_of t1 = snagId_of t2 → t1 = t2.
Proof.
  unfold snagId_of. intros H. apply (inj (String.app "snag-")) in H.
  by apply (inj pretty) in H.
Qed.

Lemma handleAddSnag_absent roomId idNow createdNow r :
  ¬ has_room roomId r → handleAddSnag roomId idNow createdNow r = r.
Proof.
  intros Hno. unfold handleAddSnag.
  rewrite fmap_if_fixed; [apply report_with_rooms_same|].
  intros room Hin Hid. exfalso. apply Hno. unfold has_room.
  apply list_elem_of_fmap. by exists room.
Qed.

(** C5 (as amended).  [handleAddSnag] leaves every scalar field of the
    report and the number and order of its rooms as they are; every room
    whose id is [roomId] keeps its id and name and gets one snag appended
    at the end of its sequence, every other room is unchanged; the appended
    snag has [createdAt] set to the clock reading, empty location and
    description, priority medium, status open and no photos.  When no room
    of the report has the id [roomId] the report is returned unchanged; no
    error is raised.  Nothing is said of the id of the appended snag. *)
Theorem C5_addSnag_appends_or_noop (r : SnaggingReport) (roomId : string)
    (idNow createdNow : Z) :
  let r' := handleAddSnag roomId idNow createdNow r in
  report_with_rooms r' (rooms r) = r ∧
  length (rooms r') = length (rooms r) ∧
  (∃ snag,
     location snag = "" ∧ description snag = "" ∧ priority snag = medium ∧
     snag_status snag = open ∧ photos snag = [] ∧
     snag_createdAt snag = createdNow ∧
     ∀ i room, rooms r !! i = Some room →
       ∃ room', rooms r' !! i = Some room' ∧
         room_id room' = room_id room ∧ room_name room' = room_name room ∧
         snags room' = if decide (room_id room = roomId)
                       then snags room ++ [snag]
                       else snags room) ∧
  (¬ has_room roomId r → r' = r).
Proof.
  cbn zeta. split; [by destruct r|]. split; [|split].
  - unfold handleAddSnag. cbn. by rewrite length_fmap.
  - exists (newSnag idNow createdNow). repeat (split; [reflexivity|]).
    intros i room Hi. unfold handleAddSnag. cbn.
    rewrite list_lookup_fmap, Hi. cbn. eexists. split; [done|].
    by case_decide.
  - apply handleAddSnag_absent.
Qed.

Lemma C5_addSnag_appends_or_noop_witness :
  ¬ has_room "room-7-900" sample_report ∧
  rooms sample_report !! 0%nat = Some (mkRoom "room-0-900" "Kitchen" [sample_snag]) ∧
  handleAddSnag "room-7-900" 2000 2000 sample_report = sample_report ∧
  ∃ room' snag,
    rooms (handleAddSnag "room-0-900" 2000 2001 sample_report) !! 0%nat
      = Some room' ∧
    snags room' = [sample_snag; snag] ∧
    description snag = "" ∧ snag_status snag = open ∧
    snag_createdAt snag = 2001.
Proof.
  assert (¬ has_room "room-7-900" sample_report) as Hno.
  { unfold has_room. by_decide. }
  split; [done|]. split; [done|]. split.
  - by apply (C5_addSnag_appends_or_noop sample_report "room-7-900" 2000 2000).
  - destruct (C5_addSnag_appends_or_noop sample_report "room-0-900" 2000 2001)
      as (_ & _ & (snag & _ & Hd & _ & Hst & _ & Hc & Hrooms) & _).
    destruct (Hrooms 0%nat _ eq_refl) as (room' & Hl & _ & _ & Hs).
    exists room', snag. split; [done|]. split; [by rewrite Hs|done].
Defined.

(** C5 (as stated) fails: for a room id that no room of the report has, the
    specification's [addSnag] fails with [NotFound], while [handleAddSnag]
    produces a next state, the report unchanged. *)
Lemma C5_addSnag_absent_room_is_not_an_error :
  ¬ has_room "room-7-900" sample_report ∧
  addSnag_spec "room-7-900" 2000 2000 sample_report = inl NotFound ∧
  handleAddSnag "room-7-900" 2000 2000 sample_report = sample_report ∧
  addSnag_spec "room-7-900" 2000 2000 sample_report
    ≠ inr (handleAddSnag "room-7-900" 2000 2000 sample_report).
Proof.
  repeat split.
  - unfold has_room. by_decide.
  - intros H. discriminate H.
Qed.
Lemma handleUpdateSnag_absent roomId snagId updates r :
  snagId ∉ snag_ids_in roomId r → handleUpdateSnag roomId snagId updates r = r.
Proof.
  intros Hno. unfold handleUpdateSnag.
  rewrite fmap_if_fixed; [apply report_with_rooms_same|].
  intros room Hin Hid.
  rewrite fmap_if_fixed; [apply room_with_snags_same|].
  intros s Hs Hsid. exfalso. apply Hno, snag_ids_in_spec. by exists room, s.
Qed.

(** C6.  For every report, every room id present in it and every snag id
    that no snag of the rooms with that id carries, [handleUpdateSnag]
    returns the report it was given: every room, snag, photo and scalar
    field is the same, whatever the patch. *)
Theorem C6_updateSnag_unknown_snag_is_identity (r : SnaggingReport)
    (roomId snagId : string) (updates : SnagUpdates) :
  has_room roomId r →
  snagId ∉ snag_ids_in roomId r →
  handleUpdateSnag roomId snagId updates r = r.
Proof. intros _. apply handleUpdateSnag_absent. Qed.

Lemma C6_updateSnag_unknown_snag_is_identity_witness :
  has_room "room-0-900" sample_report ∧
  ("snag-77" ∉ snag_ids_in "room-0-900" sample_report) ∧
  handleUpdateSnag "room-0-900" "snag-77"
    (mkSnagUpdates None (Some "Ceiling") None (Some high) (Some resolved) None None)
    sample_report = sample_report.
Proof.
  assert (has_room "room-0-900" sample_report) as H1
    by (unfold has_room; by_decide).
  assert ("snag-77" ∉ snag_ids_in "room-0-900" sample_report) as H2 by by_decide.
  split; [exact H1|]. split; [exact H2|].
  exact (C6_updateSnag_unknown_snag_is_identity sample_report _ _ _ H1 H2).
Defined.

Lemma filter_snoc_out {A} (P : A → Prop) `{!∀ x, Decision (P x)} (l : list A) x :
  ¬ P x → Forall P l → filter P (l ++ [x]) = l.
Proof.
  intros Hx Hl. rewrite filter_app, filter_cons_False, filter_nil by done.
  rewrite app_nil_r. induction Hl as [|a l Ha Hl IH]; [done|].
  by rewrite filter_cons_True, IH.
Qed.

(** Adding a snag and deleting it again restores the report when the id
    taken from the clock is not the id of a snag already in the room. *)
Lemma add_delete_fresh roomId idNow createdNow r :
  snagId_of idNow ∉ snag_ids_in roomId r →
  handleDeleteSnag roomId (snagId_of idNow)
    (handleAddSnag roomId idNow createdNow r) = r.
Proof.
  intros Hfresh. destruct r as [i a d c p dt st rs cp ca lm].
  unfold handleDeleteSnag, handleAddSnag, report_with_rooms. cbn. f_equal.
  assert (∀ room s, room ∈ rs → room_id room = roomId → s ∈ snags room →
                    snag_id s ≠ snagId_of idNow) as Hrs.
  { intros room s ? ? ? ?. apply Hfresh, snag_ids_in_spec. by exists room, s. }
  clear Hfresh. induction rs as [|room rs IH]; [done|]. cbn. f_equal.
  - destruct (decide (room_id room = roomId)) as [Heq|Hne]; cbn.
    + rewrite decide_True by done. unfold room_with_snags. cbn.
      rewrite filter_snoc_out; [by destruct room| |].
      * intros Hn. by apply Hn.
      * apply Forall_forall. intros s Hs. apply (Hrs room); [left|done..].
    + by rewrite decide_False.
  - apply IH. intros room' s Hin. apply Hrs. by right.
Qed.

(** C8 at a clock reading already used.  The kitchen of the sample report
    holds the snag created at clock reading 1000.  A second addition that
    reads 1000 again gives the new snag the id of the first, and deleting
    the snag just added removes both: the room is left empty instead of
    holding its former sequence. *)
Theorem C8_add_delete_same_clock_reading :
  snags <$> rooms sample_report !! 0%nat = Some [sample_snag] ∧
  snag_id (newSnag 1000 1001) = snag_id sample_snag ∧
  snags <$> rooms (handleAddSnag "room-0-900" 1000 1001 sample_report) !! 0%nat
    = Some [sample_snag; newSnag 1000 1001] ∧
  snags <$> rooms (handleDeleteSnag "room-0-900" (snag_id (newSnag 1000 1001))
                     (handleAddSnag "room-0-900" 1000 1001 sample_report)) !! 0%nat
    = Some [].
Proof. repeat split; vm_compute; reflexivity. Qed.

Lemma filter_filter_same {A} (P : A → Prop) `{!∀ x, Decision (P x)} (l : list A) :
  filter P (filter P l) = filter P l.
Proof.
  induction l as [|a l IH]; [done|].
  destruct (decide (P a)).
  - by rewrite !filter_cons_True, IH by done.
  - by rewrite !filter_cons_False by done.
Qed.

Lemma handleDeleteSnag_absent roomId snagId r :
  snagId ∉ snag_ids_in roomId r → handleDeleteSnag roomId snagId r = r.
Proof.
  intros Hno. unfold handleDeleteSnag.
  rewrite fmap_if_fixed; [apply report_with_rooms_same|].
  intros room Hin Hid.
  replace (filter (λ s, snag_id s ≠ snagId) (snags room)) with (snags room);
    [apply room_with_snags_same|].
  assert (Forall (λ s, snag_id s ≠ snagId) (snags room)) as Hall.
  { apply Forall_forall. intros s Hs Hsid. apply Hno, snag_ids_in_spec.
    by exists room, s. }
  induction Hall as [|s l Hs Hl IH]; [done|]. by rewrite filter_cons_True, <- IH.
Qed.

(** C9.  For every report, room id and snag id, [handleDeleteSnag] applied
    twice gives the report that applying it once gives; and when no snag of
    the named room carries the id, the deletion is no error: it returns the
    report unchanged. *)
Theorem C9_deleteSnag_idempotent (r : SnaggingReport) (roomId snagId : string) :
  handleDeleteSnag roomId snagId (handleDeleteSnag roomId snagId r)
    = handleDeleteSnag roomId snagId r ∧
  (snagId ∉ snag_ids_in roomId r → handleDeleteSnag roomId snagId r = r).
Proof.
  split; [|apply handleDeleteSnag_absent].
  unfold handleDeleteSnag, report_with_rooms. cbn. f_equal.
  rewrite <- list_fmap_compose. apply list_fmap_ext. intros _ room _. cbn.
  destruct (decide (room_id room = roomId)) as [Heq|Hne]; cbn.
  - rewrite decide_True by done. unfold room_with_snags. cbn.
    by rewrite filter_filter_same.
  - by rewrite decide_False.
Qed.

Lemma C9_deleteSnag_idempotent_witness :
  ("snag-77" ∉ snag_ids_in "room-0-900" sample_report) ∧
  handleDeleteSnag "room-0-900" "snag-77" sample_report = sample_report ∧
  handleDeleteSnag "room-0-900" (snagId_of 1000)
    (handleDeleteSnag "room-0-900" (snagId_of 1000) sample_report)
    = handleDeleteSnag "room-0-900" (snagId_of 1000) sample_report.
Proof.
  assert ("snag-77" ∉ snag_ids_in "room-0-900" sample_report) as H by by_decide.
  split; [exact H|]. split.
  - exact (proj2 (C9_deleteSnag_idempotent sample_report "room-0-900" "snag-77") H).
  - exact (proj1 (C9_deleteSnag_idempotent sample_report "room-0-900" (snagId_of 1000))).
Defined.

(** ** The report collection *)

(** C10.  [handleStatusChange] keeps the number and order of the reports;
    a report whose id is not [id] is unchanged; a report whose id is [id]
    gets the new status and keeps every other field: its id, the five
    descriptive fields, its rooms with their snags and photos, its cover
    photo, [createdAt] and [lastModified]. *)
Theorem C10_setStatus_changes_only_status (reports : list SnaggingReport)
    (id : string) (status : ReportStatus) :
  length (handleStatusChange id status reports) = length reports ∧
  ∀ i r, reports !! i = Some r →
    ∃ r', handleStatusChange id status reports !! i = Some r' ∧
      (report_id r ≠ id → r' = r) ∧
      (report_id r = id →
         report_status r' = status ∧
         lastModified r' = lastModified r ∧
         report_createdAt r' = report_createdAt r ∧
         report_id r' = report_id r ∧
         propertyAddress r' = propertyAddress r ∧
         developerName r' = developerName r ∧
         clientName r' = clientName r ∧
         plotNumber r' = plotNumber r ∧
         inspectionDate r' = inspectionDate r ∧
         rooms r' = rooms r ∧
         coverPhoto r' = coverPhoto r).
Proof.
  unfold handleStatusChange. split; [by rewrite length_fmap|].
  intros i r Hi. rewrite list_lookup_fmap, Hi. cbn. eexists. split; [done|].
  split; intros H.
  - by rewrite decide_False.
  - rewrite decide_True by done. by repeat split.
Qed.

Lemma C10_setStatus_changes_only_status_witness :
  ∃ r', handleStatusChange "report-900" archived
          [sample_report; newReport 950 "2024-05-02"] !! 0%nat = Some r' ∧
        report_status r' = archived ∧ lastModified r' = 900 ∧
        rooms r' = rooms sample_report.
Proof.
  destruct (C10_setStatus_changes_only_status
              [sample_report; newReport 950 "2024-05-02"] "report-900" archived)
    as [_ H].
  destruct (H 0%nat sample_report eq_refl) as (r' & Hl & _ & Hsame).
  destruct (Hsame eq_refl) as (Hs & Hm & _ & _ & _ & _ & _ & _ & _ & Hr & _).
  exists r'. by repeat split.
Defined.

(** ** Photo upload *)

(** A second photo patch on the same snag replaces what the first one set. *)
Lemma handleUpdateSnag_photos_absorb roomId snagId ps1 ps2 r :
  handleUpdateSnag roomId snagId (photos_only ps2)
    (handleUpdateSnag roomId snagId (photos_only ps1) r)
  = handleUpdateSnag roomId snagId (photos_only ps2) r.
Proof.
  unfold handleUpdateSnag, report_with_rooms. cbn. f_equal.
  rewrite <- list_fmap_compose. apply list_fmap_ext. intros _ room _. cbn.
  destruct (decide (room_id room = roomId)) as [Heq|Hne]; cbn.
  - rewrite decide_True by done. unfold room_with_snags. cbn. f_equal.
    rewrite <- list_fmap_compose. apply list_fmap_ext. intros _ s _. cbn.
    destruct (decide (snag_id s = snagId)) as [Hs|Hs]; cbn.
    + by rewrite decide_True.
    + by rewrite decide_False.
  - by rewrite decide_False.
Qed.

Lemma onloadend_absorbs currentReport roomId snagId file files prev :
  onloadend currentReport roomId snagId file
    (handlePhotoUpload currentReport roomId snagId files prev)
  = onloadend currentReport roomId snagId file prev.
Proof.
  unfold handlePhotoUpload. revert prev.
  induction files as [|f files IH]; intros prev; [done|]. cbn.
  rewrite IH. apply handleUpdateSnag_photos_absorb.
Qed.

(** Whatever the batch and the order in which its readers finish, the state
    after the whole batch is the state after the last completion alone:
    the photos of the earlier completions are gone. *)
Lemma handlePhotoUpload_last_wins currentReport roomId snagId files file prev :
  handlePhotoUpload currentReport roomId snagId (files ++ [file]) prev
  = onloadend currentReport roomId snagId file prev.
Proof.
  unfold handlePhotoUpload at 1. rewrite foldl_snoc.
  apply onloadend_absorbs.
Qed.

(** C7 on a batch of two files.  The snag of the sample kitchen has no
    photo when the batch starts.  After both completions, in input order,
    the snag holds the photo of the second file only: the completion of the
    second file appended to the photos captured when the batch started and
    overwrote what the first completion had stored. *)
Theorem C7_photo_batch_keeps_last_only :
  let k := "room-0-900" in
  let s := snagId_of 1000 in
  let after :=
    handlePhotoUpload sample_report k s [sample_file_a; sample_file_b]
      sample_report in
  find_photos sample_report k s = [] ∧
  find_photos after k s = [photo_of sample_file_b] ∧
  find_photos after k s ≠ [photo_of sample_file_a; photo_of sample_file_b].
Proof.
  cbn zeta. split; [|split].
  - vm_compute. reflexivity.
  - vm_compute. reflexivity.
  - intros H. vm_compute in H. discriminate H.
Qed.
(** ** The drawing surface *)

Lemma items_eq pdf : items pdf = concat (donePages pdf) ++ lastPage pdf.
Proof. unfold items, pages. rewrite concat_app. cbn. by rewrite app_nil_r. Qed.

Lemma items_draw i pdf : items (draw i pdf) = items pdf ++ [i].
Proof. rewrite !items_eq. cbn. by rewrite app_assoc. Qed.

Lemma items_addPage pdf : items (addPage pdf) = items pdf.
Proof. rewrite !items_eq. cbn. rewrite concat_app. cbn. by rewrite !app_nil_r. Qed.

Lemma length_pages pdf : length (pages pdf) = S (length (donePages pdf)).
Proof. unfold pages. rewrite length_app. cbn. lia. Qed.

(** ** The page-break test *)

Lemma below_true y pageHeight d :
  below y pageHeight d = true ↔ (pageHeight - inject_Z d < inject_Z y)%Q.
Proof.
  unfold below. rewrite negb_true_iff, <- not_true_iff_false, Qle_bool_iff.
  split; [apply Qnot_le_lt | apply Qlt_not_le].
Qed.

Lemma below_false y pageHeight d :
  below y pageHeight d = false ↔ (inject_Z y <= pageHeight - inject_Z d)%Q.
Proof. unfold below. by rewrite negb_false_iff, Qle_bool_iff. Qed.

(** On a page whose height is 297 mm and a fraction, as the A4 page of
    jsPDF is, the test on the whole-millimetre cursor is a test against
    [297 - d]. *)
Lemma below_a4 y pageHeight d :
  (297 <= pageHeight)%Q → (pageHeight < 298)%Q →
  below y pageHeight d = bool_decide (297 - d < y).
Proof.
  intros Hlo Hhi. destruct (decide (297 - d < y)) as [Hy|Hy].
  - rewrite bool_decide_eq_true_2 by done. apply below_true.
    assert (inject_Z (298 - d) <= inject_Z y)%Q as Hq
      by (rewrite <- Zle_Qle; lia).
    unfold Z.sub in Hq. rewrite inject_Z_plus, inject_Z_opp in Hq.
    revert Hq. generalize (inject_Z d) (inject_Z y). intros qd qy Hq.
    change (inject_Z 298) with 298%Q in Hq. lra.
  - rewrite bool_decide_eq_false_2 by done. apply below_false.
    assert (inject_Z y <= inject_Z (297 - d))%Q as Hq
      by (rewrite <- Zle_Qle; lia).
    unfold Z.sub in Hq. rewrite inject_Z_plus, inject_Z_opp in Hq.
    revert Hq. generalize (inject_Z d) (inject_Z y). intros qd qy Hq.
    change (inject_Z 297) with 297%Q in Hq. lra.
Qed.

(** ** One entry and one room *)

Lemma pageBreak_cases pageHeight d st :
  (below st.2 pageHeight d = true ∧
   pageBreak pageHeight d st = (addPage st.1, margin)) ∨
  (below st.2 pageHeight d = false ∧ pageBreak pageHeight d st = st).
Proof. unfold pageBreak. destruct (below st.2 pageHeight d); auto. Qed.

Lemma drawSnag_eq pageHeight st snag :
  entry_ready st.1 →
  let b := pageBreak pageHeight 30 st in
  drawSnag pageHeight st snag
  = (mkPDF (priorityColors (priority snag)) (0, 0, 0) "normal" 10
           (donePages b.1) (lastPage b.1 ++ entry_items snag b.2),
     b.2 + entry_height).
Proof.
  intros (Hc & Hs & Hz). cbn zeta. unfold drawSnag.
  assert (entry_ready (pageBreak pageHeight 30 st).1) as (Hc' & Hs' & Hz').
  { destruct (pageBreak_cases pageHeight 30 st) as [[_ ->]|[_ ->]]; by cbn. }
  destruct (pageBreak pageHeight 30 st) as [p y]. cbn in *.
  unfold text, circle, draw, setFillColor, setTextColor, entry_items,
    entry_height. cbn.
  rewrite Hs', Hz', Hc', <- !app_assoc. cbn. f_equal. lia.
Qed.

Lemma items_pageBreak pageHeight d st :
  items (pageBreak pageHeight d st).1 = items st.1.
Proof.
  destruct (pageBreak_cases pageHeight d st) as [[_ ->]|[_ ->]]; [|done].
  apply items_addPage.
Qed.

Lemma entry_ready_pageBreak pageHeight d st :
  entry_ready st.1 → entry_ready (pageBreak pageHeight d st).1.
Proof.
  by destruct (pageBreak_cases pageHeight d st) as [[_ ->]|[_ ->]].
Qed.

Lemma items_drawSnag pageHeight st snag :
  entry_ready st.1 →
  entry_ready (drawSnag pageHeight st snag).1 ∧
  items (drawSnag pageHeight st snag).1
    = items st.1 ++ entry_items snag (pageBreak pageHeight 30 st).2.
Proof.
  intros Hready. rewrite drawSnag_eq by done. cbn [fst]. split; [done|].
  rewrite <- (items_pageBreak pageHeight 30 st).
  rewrite !items_eq. cbn. by rewrite app_assoc.
Qed.

(** *** The summary lines *)

Lemma summary_lines_entry snag y :
  omap summary_text (entry_items snag y) = [summaryLine snag].
Proof. done. Qed.

Lemma summary_lines_drawSnags pageHeight l : ∀ st,
  entry_ready st.1 →
  entry_ready (foldl (drawSnag pageHeight) st l).1 ∧
  summary_lines (foldl (drawSnag pageHeight) st l).1
    = summary_lines st.1 ++ (summaryLine <$> l).
Proof.
  induction l as [|snag l IH]; intros st Hready; cbn.
  - by rewrite app_nil_r.
  - destruct (items_drawSnag pageHeight st snag Hready) as [Hready' Hitems].
    destruct (IH _ Hready') as [Hr ->]. split; [done|].
    unfold summary_lines at 1. rewrite Hitems, omap_app, summary_lines_entry.
    by rewrite <- app_assoc.
Qed.

Lemma drawRoom_empty pageHeight st room :
  snags room = [] → drawRoom pageHeight st room = st.
Proof. intros H. unfold drawRoom. by rewrite H. Qed.

(** The state in which [drawRoom] enters its loop over the snags. *)
Lemma drawRoom_nonempty pageHeight st room :
  snags room ≠ [] →
  let b := pageBreak pageHeight 40 st in
  let heading := Text (room_name room) margin b.2 (0, 61, 130) "bold" 14 in
  let st1 := (mkPDF (fillColor b.1) (0, 0, 0) "normal" 10
                    (donePages b.1) (lastPage b.1 ++ [heading]), b.2 + 8) in
  let st2 := foldl (drawSnag pageHeight) st1 (snags room) in
  drawRoom pageHeight st room = (st2.1, st2.2 + 5).
Proof.
  intros Hne. cbn zeta. unfold drawRoom.
  rewrite decide_False by (by intros ?%nil_length_inv).
  destruct (pageBreak pageHeight 40 st) as [p y]. cbn.
  unfold text, draw, setFont, setFontSize, setTextColor. cbn.
  by destruct (foldl _ _ _).
Qed.

Lemma summary_lines_drawRoom pageHeight st room :
  summary_lines (drawRoom pageHeight st room).1
    = summary_lines st.1 ++ (summaryLine <$> snags room).
Proof.
  destruct (decide (snags room = [])) as [Hnil|Hne].
  - rewrite drawRoom_empty, Hnil by done. cbn. by rewrite app_nil_r.
  - rewrite drawRoom_nonempty by done. cbn.
    match goal with |- context [foldl _ ?s _] => set (st1 := s) end.
    destruct (summary_lines_drawSnags pageHeight (snags room) st1) as [_ ->];
      [done|].
    f_equal. unfold summary_lines, st1. cbn [fst].
    rewrite <- (items_pageBreak pageHeight 40 st).
    rewrite !items_eq. cbn. rewrite app_assoc, omap_app. cbn.
    by rewrite app_nil_r.
Qed.

Lemma summary_lines_drawRooms pageHeight l : ∀ st,
  summary_lines (foldl (drawRoom pageHeight) st l).1
    = summary_lines st.1 ++ (summaryLine <$> concat (snags <$> l)).
Proof.
  induction l as [|room l IH]; intros st; cbn.
  - by rewrite app_nil_r.
  - by rewrite IH, summary_lines_drawRoom, fmap_app, app_assoc.
Qed.

Lemma summary_lines_drawCover pageWidth r :
  summary_lines (drawCover pageWidth r new_jsPDF).1 = [].
Proof. done. Qed.

Lemma summary_lines_exportPDF pageWidth pageHeight r :
  summary_lines (exportPDF pageWidth pageHeight r) = summaryLine <$> all_snags r.
Proof.
  unfold exportPDF. by rewrite summary_lines_drawRooms, summary_lines_drawCover.
Qed.

(** *** Empty rooms *)

Lemma foldl_filter_neutral {A B} (f : A → B → A) (P : B → Prop)
    `{!∀ x, Decision (P x)} (l : list B) :
  (∀ a x, ¬ P x → f a x = a) → ∀ a, foldl f a (filter P l) = foldl f a l.
Proof.
  intros Hf. induction l as [|x l IH]; intros a; [done|].
  destruct (decide (P x)).
  - rewrite filter_cons_True by done. cbn. apply IH.
  - rewrite filter_cons_False by done. cbn. by rewrite Hf.
Qed.

Lemma all_snags_without_empty_rooms r :
  all_snags (without_empty_rooms r) = all_snags r.
Proof.
  unfold all_snags, without_empty_rooms. cbn.
  induction (rooms r) as [|room l IH]; [done|].
  destruct (decide (snags room = [])) as [Hnil|Hne].
  - rewrite filter_cons_False by (by intros ?). cbn. by rewrite Hnil, IH.
  - rewrite filter_cons_True by done. cbn. by rewrite IH.
Qed.

Lemma countSnags_without_empty_rooms r :
  countSnags (without_empty_rooms r) = countSnags r.
Proof.
  rewrite !countSnags_recount. unfold recount.
  by rewrite all_snags_without_empty_rooms.
Qed.

Lemma exportPDF_without_empty_rooms pageWidth pageHeight r :
  exportPDF pageWidth pageHeight (without_empty_rooms r)
  = exportPDF pageWidth pageHeight r.
Proof.
  pose proof (countSnags_without_empty_rooms r) as Hc.
  injection Hc as Ht Ho Hcr.
  unfold exportPDF. f_equal.
  replace (drawCover pageWidth (without_empty_rooms r) new_jsPDF)
    with (drawCover pageWidth r new_jsPDF)
    by (unfold drawCover; rewrite Ht, Ho, Hcr; reflexivity).
  unfold without_empty_rooms at 1. cbn [rooms report_with_rooms].
  apply foldl_filter_neutral. intros st room Hnil.
  apply drawRoom_empty. destruct (snags room); [done|].
  exfalso. by apply Hnil.
Qed.

(** *** The number of pages on A4 *)

Lemma page_breaks_break y n :
  267 < y → 0 <= n →
  page_breaks y (n + 1) = 1 + page_breaks (margin + entry_height) n.
Proof.
  intros Hy Hn. unfold page_breaks, margin, entry_height.
  repeat case_decide; Z.div_mod_to_equations; lia.
Qed.

Lemma page_breaks_stay y n :
  y <= 267 → 0 <= n → page_breaks y (n + 1) = page_breaks (y + entry_height) n.
Proof.
  intros Hy Hn. unfold page_breaks, entry_height.
  repeat case_decide; Z.div_mod_to_equations; lia.
Qed.
Section A4.
Variable pageHeight : Q.
Hypothesis Hlo : (297 <= pageHeight)%Q.
Hypothesis Hhi : (pageHeight < 298)%Q.

Lemma donePages_drawSnags l : ∀ st,
  entry_ready st.1 →
  Z.of_nat (length (donePages (foldl (drawSnag pageHeight) st l).1))
  = Z.of_nat (length (donePages st.1))
    + page_breaks st.2 (Z.of_nat (length l)).
Proof using Hlo Hhi.
  induction l as [|snag l IH]; intros st Hready.
  - cbn. unfold page_breaks. repeat case_decide; Z.div_mod_to_equations; lia.
  - cbn [foldl]. rewrite IH by (by apply items_drawSnag).
    rewrite drawSnag_eq by done. cbn [fst snd donePages].
    replace (Z.of_nat (length (snag :: l))) with (Z.of_nat (length l) + 1)
      by (cbn [length]; lia).
    destruct (pageBreak_cases pageHeight 30 st) as [[Hb ->]|[Hb ->]];
      rewrite below_a4 in Hb by done.
    + apply bool_decide_eq_true_1 in Hb. cbn [fst snd addPage donePages].
      rewrite length_app, page_breaks_break by lia. cbn [length]. lia.
    + apply bool_decide_eq_false_1 in Hb.
      rewrite page_breaks_stay by lia. lia.
Qed.

(** A report with one room of [n] snags fills one page up to six snags
    and one more page for every further sixteen. *)
Lemma pages_one_room pageWidth r room :
  rooms r = [room] →
  length (pages (exportPDF pageWidth pageHeight r))
  = pages_needed 6 16 (length (snags room)).
Proof using Hlo Hhi.
  intros Hrooms. unfold exportPDF. rewrite Hrooms. cbn [foldl].
  rewrite length_pages.
  destruct (decide (snags room = [])) as [Hnil|Hne].
  - rewrite drawRoom_empty, Hnil by done. reflexivity.
  - rewrite drawRoom_nonempty by done. cbn [fst].
    assert (pageBreak pageHeight 40 (drawCover pageWidth r new_jsPDF)
            = drawCover pageWidth r new_jsPDF) as ->.
    { unfold pageBreak. by rewrite below_a4. }
    match goal with |- context [foldl _ ?s _] => set (st1 := s) end.
    pose proof (donePages_drawSnags (snags room) st1) as Hlen.
    assert (entry_ready st1.1) as Hready by done.
    specialize (Hlen Hready). change (st1.2) with 186 in Hlen.
    change (length (donePages st1.1)) with 0%nat in Hlen.
    unfold page_breaks in Hlen. unfold pages_needed.
    revert Hlen. generalize (length (donePages
      (foldl (drawSnag pageHeight) st1 (snags room)).1)).
    generalize (length (snags room)). intros n m.
    change ((267 - 186) / 16 + 1) with 6.
    repeat case_decide; try lia.
    intros Hm. apply Nat2Z.inj.
    rewrite Nat2Z.inj_succ, Nat2Z.inj_add, Nat2Z.inj_div.
    zify. Z.div_mod_to_equations. lia.
Qed.
End A4.

(** C1.  For every report: (1) the document is the document of the report
    without its rooms that have no snag, so such a room contributes neither
    a heading nor a line; (2) the summary lines of the document, read page
    after page, are the summary lines of the snags, each once, room after
    room and in each room in insertion order; (3) on the A4 page, whose
    height lies between 297 and 298 mm, a report with one room of [n] snags
    has one page when [n] is at most 6, the capacity of the first page, and
    more than one page when [n] exceeds it: one further page for every 16
    snags. *)
Theorem C1_document_order_and_pages (pageWidth pageHeight : Q)
    (r : SnaggingReport) :
  exportPDF pageWidth pageHeight (without_empty_rooms r)
    = exportPDF pageWidth pageHeight r ∧
  summary_lines (exportPDF pageWidth pageHeight r)
    = summaryLine <$> all_snags r ∧
  ((297 <= pageHeight)%Q → (pageHeight < 298)%Q →
   ∀ room, rooms r = [room] →
     length (pages (exportPDF pageWidth pageHeight r))
       = pages_needed 6 16 (length (snags room)) ∧
     (6 < length (snags room) →
      1 < length (pages (exportPDF pageWidth pageHeight r)))%nat).
Proof.
  split; [apply exportPDF_without_empty_rooms|].
  split; [apply summary_lines_exportPDF|].
  intros Hlo Hhi room Hrooms.
  rewrite (pages_one_room pageHeight Hlo Hhi pageWidth r room Hrooms).
  split; [done|]. intros Hn. unfold pages_needed.
  rewrite decide_False by lia.
  assert (1 <= (length (snags room) - 6 + 16 - 1) / 16)%nat
    by (apply Nat.div_le_lower_bound; lia).
  lia.
Qed.

Lemma a4_pageHeight_bounds :
  (297 <= a4_pageHeight)%Q ∧ (a4_pageHeight < 298)%Q.
Proof. split; [apply Qle_bool_imp_le|]; reflexivity. Qed.

Lemma C1_document_order_and_pages_witness :
  (297 <= a4_pageHeight)%Q ∧ (a4_pageHeight < 298)%Q ∧
  rooms (one_room_report 7) = [mkRoom "room-0-900" "Kitchen" (replicate 7 sample_snag)] ∧
  (6 < length (replicate 7 sample_snag))%nat ∧
  (1 < length (pages (exportPDF a4_pageWidth a4_pageHeight (one_room_report 7))))%nat.
Proof.
  assert (297 <= a4_pageHeight)%Q as Hlo by (apply Qle_bool_imp_le; reflexivity).
  assert (a4_pageHeight < 298)%Q as Hhi by reflexivity.
  assert (6 < length (replicate 7 sample_snag))%nat as Hn by (cbn; lia).
  split; [exact Hlo|]. split; [exact Hhi|]. split; [reflexivity|].
  split; [exact Hn|].
  destruct (C1_document_order_and_pages a4_pageWidth a4_pageHeight
              (one_room_report 7)) as (_ & _ & Hpages).
  exact (proj2 (Hpages Hlo Hhi _ eq_refl) Hn).
Defined.

(** ** Whole entries *)

Lemma entries_whole_app pageHeight l1 l2 :
  entries_whole pageHeight l1 → entries_whole pageHeight l2 →
  entries_whole pageHeight (l1 ++ l2).
Proof.
  intros H1 H2. induction H1 as [|i l Hi _ IH|snag y l Hy Hh _ IH].
  - done.
  - cbn. by apply entries_whole_other.
  - rewrite <- app_assoc. by apply entries_whole_entry.
Qed.

Lemma entries_whole_snoc_other pageHeight l i :
  entries_whole pageHeight l → entry_item i = false →
  entries_whole pageHeight (l ++ [i]).
Proof.
  intros Hl Hi. apply entries_whole_app; [done|].
  apply entries_whole_other; [done|constructor].
Qed.

(** The predicate does reject a page that holds the marker of an entry
    without its two lines. *)
Lemma entries_whole_rejects_split pageHeight snag y :
  ¬ entries_whole pageHeight
      [Circle (margin + 2) (y - 1) 2 (priorityColors (priority snag))].
Proof.
  intros H. inversion H as [|i l Hi _ Heq|]. discriminate Hi.
Qed.

Lemma pages_whole_pageBreak pageHeight d st :
  pages_whole pageHeight st.1 → pages_whole pageHeight (pageBreak pageHeight d st).1.
Proof.
  intros [Hd Hl].
  destruct (pageBreak_cases pageHeight d st) as [[_ ->]|[_ ->]]; [|done].
  split; cbn; [|constructor]. apply Forall_app. split; [done|].
  by apply Forall_singleton.
Qed.

Section TallEnough.
Variable pageHeight : Q.
(** Below the top margin the page has room for one entry. *)
Hypothesis Htall : (inject_Z (margin + entry_height) <= pageHeight)%Q.

Lemma pageBreak_entry_fits st :
  margin <= st.2 →
  let b := pageBreak pageHeight 30 st in
  margin <= b.2 ∧ (inject_Z (b.2 + entry_height) <= pageHeight)%Q.
Proof using Htall.
  intros Hy. cbn zeta.
  destruct (pageBreak_cases pageHeight 30 st) as [[_ ->]|[Hb ->]]; cbn.
  - split; [lia|exact Htall].
  - split; [done|]. apply below_false in Hb.
    rewrite inject_Z_plus. revert Hb. generalize (inject_Z st.2).
    intros q Hq. change (inject_Z entry_height) with 16%Q.
    change (inject_Z 30) with 30%Q in Hq. lra.
Qed.

Lemma pages_whole_drawSnag st snag :
  entry_ready st.1 → pages_whole pageHeight st.1 → margin <= st.2 →
  let st' := drawSnag pageHeight st snag in
  entry_ready st'.1 ∧ pages_whole pageHeight st'.1 ∧ margin <= st'.2.
Proof using Htall.
  intros Hready Hwhole Hy. cbn zeta.
  destruct (pageBreak_entry_fits st Hy) as [Hm Hfit].
  destruct (pages_whole_pageBreak pageHeight 30 st Hwhole) as [Hd Hl].
  rewrite drawSnag_eq by done. cbn [fst snd].
  split; [done|]. split; [|unfold entry_height; lia].
  split; cbn [donePages lastPage]; [done|].
  apply entries_whole_app; [done|].
  rewrite <- (app_nil_r (entry_items _ _)).
  apply entries_whole_entry; [unfold margin in Hm; lia|done|constructor].
Qed.

Lemma pages_whole_drawSnags l : ∀ st,
  entry_ready st.1 → pages_whole pageHeight st.1 → margin <= st.2 →
  let st' := foldl (drawSnag pageHeight) st l in
  pages_whole pageHeight st'.1 ∧ margin <= st'.2.
Proof using Htall.
  induction l as [|snag l IH]; intros st Hready Hwhole Hy; [done|].
  cbn [foldl].
  destruct (pages_whole_drawSnag st snag Hready Hwhole Hy) as (? & ? & ?).
  by apply IH.
Qed.

Lemma pages_whole_drawRoom st room :
  pages_whole pageHeight st.1 → margin <= st.2 →
  let st' := drawRoom pageHeight st room in
  pages_whole pageHeight st'.1 ∧ margin <= st'.2.
Proof using Htall.
  intros Hwhole Hy. cbn zeta.
  destruct (decide (snags room = [])) as [Hnil|Hne].
  - by rewrite drawRoom_empty.
  - rewrite drawRoom_nonempty by done. cbn [fst snd].
    match goal with |- context [foldl _ ?s _] => set (st1 := s) end.
    destruct (pages_whole_pageBreak pageHeight 40 st Hwhole) as [Hd Hl].
    assert (margin <= (pageBreak pageHeight 40 st).2) as Hm.
    { destruct (pageBreak_cases pageHeight 40 st) as [[_ ->]|[_ ->]];
        cbn; [lia|done]. }
    destruct (pages_whole_drawSnags (snags room) st1) as [Hw Hy'].
    + done.
    + split; cbn; [done|]. by apply entries_whole_snoc_other.
    + cbn. lia.
    + split; [done|lia].
Qed.

Lemma pages_whole_drawRooms l : ∀ st,
  pages_whole pageHeight st.1 → margin <= st.2 →
  pages_whole pageHeight (foldl (drawRoom pageHeight) st l).1.
Proof using Htall.
  induction l as [|room l IH]; intros st Hwhole Hy; [done|].
  cbn [foldl]. destruct (pages_whole_drawRoom st room Hwhole Hy).
  by apply IH.
Qed.
End TallEnough.

Lemma pages_whole_drawCover pageHeight pageWidth r :
  pages_whole pageHeight (drawCover pageWidth r new_jsPDF).1.
Proof.
  split; cbn; [constructor|].
  repeat (apply entries_whole_other; [reflexivity|]). constructor.
Qed.

(** *** Entries in order, and the page that is started *)

Lemma entries_stacked_whole pageHeight from l to :
  entries_stacked pageHeight from l to → entries_whole pageHeight l.
Proof.
  induction 1 as [from|from to i l Hi _ IH|from to snag y l _ Hy Hh _ IH].
  - constructor.
  - by apply entries_whole_other.
  - by apply entries_whole_entry.
Qed.

Lemma entries_stacked_app pageHeight from mid to l1 l2 :
  entries_stacked pageHeight from l1 mid →
  entries_stacked pageHeight mid l2 to →
  entries_stacked pageHeight from (l1 ++ l2) to.
Proof.
  intros H1 H2.
  induction H1 as [from|from mid i l Hi _ IH|from mid snag y l Hf Hy Hh _ IH].
  - exact H2.
  - cbn [app]. apply entries_stacked_other; [exact Hi|]. by apply IH.
  - rewrite <- app_assoc. apply entries_stacked_entry; try done. by apply IH.
Qed.

Lemma entries_stacked_one pageHeight from snag y :
  (from <= y)%Z → (0 <= y - 3)%Z →
  (inject_Z (y + entry_height) <= pageHeight)%Q →
  entries_stacked pageHeight from (entry_items snag y) (y + entry_height).
Proof.
  intros Hf Hy Hh. rewrite <- (app_nil_r (entry_items snag y)).
  apply entries_stacked_entry; try done. constructor.
Qed.

(** The predicate does reject an entry printed over an earlier one, as a
    cursor set back without a new page would give. *)
Lemma entries_in_order_rejects_overprint pageHeight snag snag' :
  ¬ entries_in_order pageHeight
      (entry_items snag 271 ++ entry_items snag' margin).
Proof.
  intros [to H].
  inversion H as [|? ? ? ? Hi|? ? ? y ? Hf ? ? Hrest]; simplify_eq/=.
  inversion Hrest as [|? ? ? ? Hi|? ? ? y' ? Hf']; simplify_eq/=.
  unfold entry_height, margin in *. lia.
Qed.

Lemma pages_stacked_pageBreak pageHeight d st :
  pages_stacked pageHeight st.1 st.2 →
  let b := pageBreak pageHeight d st in
  pages_stacked pageHeight b.1 b.2.
Proof.
  intros [Hd (to & Hl & Hto)]. cbn zeta.
  destruct (pageBreak_cases pageHeight d st) as [[_ ->]|[_ ->]].
  - cbn [fst snd addPage donePages lastPage]. split.
    + apply Forall_app. split; [exact Hd|]. apply Forall_singleton.
      by exists to.
    + exists 0. split; [constructor|unfold margin; lia].
  - split; [exact Hd|]. by exists to.
Qed.

Section EntriesInOrder.
Variable pageHeight : Q.
Hypothesis Htall : (inject_Z (margin + entry_height) <= pageHeight)%Q.

Lemma pages_stacked_drawSnag st snag :
  entry_ready st.1 → pages_stacked pageHeight st.1 st.2 → margin <= st.2 →
  let st' := drawSnag pageHeight st snag in
  entry_ready st'.1 ∧ pages_stacked pageHeight st'.1 st'.2 ∧ margin <= st'.2.
Proof using Htall.
  intros Hready Hst Hy. cbn zeta.
  destruct (pageBreak_entry_fits pageHeight Htall st Hy) as [Hm Hfit].
  destruct (pages_stacked_pageBreak pageHeight 30 st Hst)
    as [Hd (to & Hl & Hto)].
  rewrite drawSnag_eq by exact Hready. cbn [fst snd donePages lastPage].
  split; [by repeat split|]. split; [|unfold entry_height; lia].
  split; [exact Hd|]. exists ((pageBreak pageHeight 30 st).2 + entry_height).
  split; [|lia]. eapply entries_stacked_app; [exact Hl|].
  apply entries_stacked_one; [exact Hto|unfold margin in Hm; lia|exact Hfit].
Qed.

Lemma pages_stacked_drawSnags l : ∀ st,
  entry_ready st.1 → pages_stacked pageHeight st.1 st.2 → margin <= st.2 →
  let st' := foldl (drawSnag pageHeight) st l in
  pages_stacked pageHeight st'.1 st'.2 ∧ margin <= st'.2.
Proof using Htall.
  induction l as [|snag l IH]; intros st Hready Hst Hy; [by split|].
  cbn [foldl].
  destruct (pages_stacked_drawSnag st snag Hready Hst Hy) as (? & ? & ?).
  by apply IH.
Qed.

Lemma pages_stacked_drawRoom st room :
  pages_stacked pageHeight st.1 st.2 → margin <= st.2 →
  let st' := drawRoom pageHeight st room in
  pages_stacked pageHeight st'.1 st'.2 ∧ margin <= st'.2.
Proof using Htall.
  intros Hst Hy. cbn zeta.
  destruct (decide (snags room = [])) as [Hnil|Hne].
  - rewrite drawRoom_empty by exact Hnil. by split.
  - rewrite drawRoom_nonempty by exact Hne. cbn [fst snd].
    match goal with |- context [foldl _ ?s _] => set (st1 := s) end.
    destruct (pages_stacked_pageBreak pageHeight 40 st Hst)
      as [Hd (to & Hl & Hto)].
    assert (margin <= (pageBreak pageHeight 40 st).2) as Hm.
    { destruct (pageBreak_cases pageHeight 40 st) as [[_ ->]|[_ ->]];
        cbn [snd]; [lia|exact Hy]. }
    destruct (pages_stacked_drawSnags (snags room) st1) as [[Hd' Hl'] Hy'].
    + by repeat split.
    + unfold st1. cbn [fst snd donePages lastPage]. split; [exact Hd|].
      exists to. split; [|lia]. eapply entries_stacked_app; [exact Hl|].
      apply entries_stacked_other; [reflexivity|constructor].
    + unfold st1. cbn [snd]. lia.
    + destruct Hl' as (to' & Hl' & Hto'). split; [|lia].
      split; [exact Hd'|]. exists to'. split; [exact Hl'|lia].
Qed.

Lemma pages_stacked_drawRooms l : ∀ st,
  pages_stacked pageHeight st.1 st.2 → margin <= st.2 →
  pages_stacked pageHeight (foldl (drawRoom pageHeight) st l).1
    (foldl (drawRoom pageHeight) st l).2.
Proof using Htall.
  induction l as [|room l IH]; intros st Hst Hy; [exact Hst|].
  cbn [foldl]. destruct (pages_stacked_drawRoom st room Hst Hy).
  by apply IH.
Qed.

(** One step of the loop over the snags: the test of line 340 decides
    between the current page and a page started for the entry. *)
Lemma drawSnag_places st snag :
  entry_ready st.1 → margin <= st.2 →
  let st' := drawSnag pageHeight st snag in
  (below st.2 pageHeight 30 = false →
   (inject_Z (st.2 + entry_height) <= pageHeight)%Q ∧
   pages st'.1 = donePages st.1 ++ [lastPage st.1 ++ entry_items snag st.2] ∧
   st'.2 = st.2 + entry_height) ∧
  (below st.2 pageHeight 30 = true →
   (inject_Z (margin + entry_height) <= pageHeight)%Q ∧
   pages st'.1 = pages st.1 ++ [entry_items snag margin] ∧
   st'.2 = margin + entry_height).
Proof using Htall.
  intros Hready Hy. cbn zeta.
  pose proof (pageBreak_entry_fits pageHeight Htall st Hy) as [_ Hfit].
  rewrite drawSnag_eq by exact Hready. unfold pages. cbn [fst snd donePages lastPage].
  unfold pageBreak in *. split; intros Hb; rewrite Hb in *; cbn [fst snd] in *.
  - by repeat split.
  - cbn [addPage donePages lastPage app]. by repeat split.
Qed.
End EntriesInOrder.

Lemma pages_stacked_drawCover pageHeight pageWidth r :
  pages_stacked pageHeight (drawCover pageWidth r new_jsPDF).1
    (drawCover pageWidth r new_jsPDF).2.
Proof.
  split; cbn; [constructor|]. exists 0. split; [|lia].
  repeat (apply entries_stacked_other; [reflexivity|]). constructor.
Qed.

(** C2.  On a page that has room for one entry below its top margin, and so
    on the A4 page, for every report and every snag.  Every page of the
    document has whole entries only: wherever the marker of a snag is drawn,
    its summary line and its priority and status line follow on the same
    page, the marker lies below the top edge, and the height the entry
    takes, the two line advances of 6 and 10, ends above the bottom edge.
    On every page the entries are in order: each is drawn at or below the
    position to which the entry before it on that page advanced the cursor,
    so none is printed over another.  And whenever an entry is placed, in
    the state in which the loop over the snags runs: when the test of the
    code finds room (the cursor is not beyond the page height less 30), the
    space left on the current page does hold the whole entry, which is drawn
    there at the cursor; otherwise a new page is started first, so that the
    document has one page more, and the entry is the first thing drawn on
    it, at the top margin, where it fits. *)
Theorem C2_entries_never_split (pageWidth pageHeight : Q) (r : SnaggingReport) :
  (inject_Z (margin + entry_height) <= pageHeight)%Q →
  Forall (entries_whole pageHeight) (pages (exportPDF pageWidth pageHeight r)) ∧
  Forall (entries_in_order pageHeight)
         (pages (exportPDF pageWidth pageHeight r)) ∧
  ∀ (st : jsPDF * Z) (snag : SnagItem),
    entry_ready st.1 → margin <= st.2 →
    let st' := drawSnag pageHeight st snag in
    (below st.2 pageHeight 30 = false →
     (inject_Z (st.2 + entry_height) <= pageHeight)%Q ∧
     pages st'.1 = donePages st.1 ++ [lastPage st.1 ++ entry_items snag st.2] ∧
     st'.2 = st.2 + entry_height) ∧
    (below st.2 pageHeight 30 = true →
     (inject_Z (margin + entry_height) <= pageHeight)%Q ∧
     pages st'.1 = pages st.1 ++ [entry_items snag margin] ∧
     st'.2 = margin + entry_height).
Proof.
  intros Htall. split; [|split].
  - unfold exportPDF.
    destruct (pages_whole_drawRooms pageHeight Htall (rooms r)
                (drawCover pageWidth r new_jsPDF)) as [Hd Hl].
    + apply pages_whole_drawCover.
    + cbn. unfold margin. lia.
    + unfold pages. apply Forall_app. split; [done|]. by apply Forall_singleton.
  - unfold exportPDF.
    destruct (pages_stacked_drawRooms pageHeight Htall (rooms r)
                (drawCover pageWidth r new_jsPDF)) as [Hd (to & Hl & _)].
    + apply pages_stacked_drawCover.
    + cbn. unfold margin. lia.
    + unfold pages. apply Forall_app. split; [exact Hd|].
      apply Forall_singleton. by exists to.
  - intros st snag. by apply drawSnag_places.
Qed.

Lemma C2_entries_never_split_witness :
  (inject_Z (margin + entry_height) <= a4_pageHeight)%Q ∧
  Forall (entries_whole a4_pageHeight)
    (pages (exportPDF a4_pageWidth a4_pageHeight (one_room_report 7))) ∧
  Forall (entries_in_order a4_pageHeight)
    (pages (exportPDF a4_pageWidth a4_pageHeight (one_room_report 7))).
Proof.
  assert (inject_Z (margin + entry_height) <= a4_pageHeight)%Q as H
    by (apply Qle_bool_imp_le; reflexivity).
  split; [exact H|].
  destruct (C2_entries_never_split a4_pageWidth a4_pageHeight
              (one_room_report 7) H) as (Hwhole & Horder & _).
  split; [exact Hwhole|exact Horder].
Defined.

(** ** The end-to-end example *)

Lemma string_length_app (s1 s2 : string) :
  String.length (s1 +:+ s2) = (String.length s1 + String.length s2)%nat.
Proof.
  induction s1 as [|c s1 IH]; [done|].
  change (S (String.length (s1 +:+ s2))
          = S (String.length s1 + String.length s2)). by rewrite IH.
Qed.

Lemma string_app_inv_tail (s1 s2 t : string) :
  s1 +:+ t = s2 +:+ t → s1 = s2.
Proof.
  intros H.
  assert (String.length s1 = String.length s2) as Hlen.
  { apply (f_equal String.length) in H.
    rewrite !string_length_app in H. lia. }
  revert s2 H Hlen. induction s1 as [|c s1 IH]; intros [|c' s2] H Hlen;
    try done.
  change (String c (s1 +:+ t) = String c' (s2 +:+ t)) in H. cbn in Hlen.
  injection H as -> H. f_equal. apply IH; [done|lia].
Qed.

Lemma roomId_of_inj i j now : roomId_of i now = roomId_of j now → i = j.
Proof.
  unfold roomId_of. intros H. apply (inj (String.app "room-")) in H.
  apply string_app_inv_tail in H. by apply (inj pretty) in H.
Qed.

Lemma kitchen_example_rooms now today editorNow idNow createdNow :
  rooms (kitchen_example now today editorNow idNow createdNow)
  = imap (λ idx name,
            mkRoom (roomId_of idx now) name
              (if decide (idx = 6%nat)
               then [kitchen_snag idNow createdNow] else []))
         DEFAULT_ROOMS.
Proof.
  unfold kitchen_example, initCurrentReport.
  rewrite decide_False by discriminate.
  unfold handleUpdateSnag, handleAddSnag, newReport, default_rooms.
  cbn [rooms report_with_rooms].
  rewrite !fmap_imap. apply imap_ext. intros idx name _.
  cbn -[roomId_of snagId_of].
  destruct (decide (idx = 6%nat)) as [->|Hne].
  - repeat
      (first [ rewrite (decide_True (P := roomId_of 6 now = roomId_of 6 now))
                 by done
             | rewrite (decide_True (P := snagId_of idNow = snagId_of idNow))
                 by done ];
       cbn -[roomId_of snagId_of]).
    done.
  - assert (roomId_of idx now ≠ roomId_of 6 now) as Hid
      by (by intros ?%roomId_of_inj).
    repeat
      (rewrite (decide_False (P := roomId_of idx now = roomId_of 6 now))
         by done;
       cbn -[roomId_of snagId_of]).
    done.
Qed.
Lemma kitchen_example_nonempty_rooms now today editorNow idNow createdNow :
  rooms (without_empty_rooms
           (kitchen_example now today editorNow idNow createdNow))
  = [mkRoom (roomId_of 6 now) "Kitchen" [kitchen_snag idNow createdNow]].
Proof.
  unfold without_empty_rooms. cbn [rooms report_with_rooms].
  rewrite kitchen_example_rooms. vm_compute. reflexivity.
Qed.

Lemma kitchen_example_counts now today editorNow idNow createdNow :
  countSnags (kitchen_example now today editorNow idNow createdNow)
  = mkCounts 1 1 1.
Proof.
  rewrite countSnags_recount. unfold recount, all_snags.
  rewrite kitchen_example_rooms. vm_compute. reflexivity.
Qed.

(** The priority and status line, for every priority and status. *)
Lemma statusLine_eq snag :
  statusLine snag
  = "Priority: "
      +:+ match priority snag with
          | critical => "CRITICAL" | high => "HIGH"
          | medium => "MEDIUM" | low => "LOW"
          end
      +:+ " | Status: "
      +:+ match snag_status snag with
          | open => "OPEN" | in_progress => "IN PROGRESS"
          | resolved => "RESOLVED"
          end.
Proof. unfold statusLine. by destruct (priority snag), (snag_status snag). Qed.

Lemma kitchen_example_fields now today editorNow idNow createdNow :
  let r := kitchen_example now today editorNow idNow createdNow in
  propertyAddress r = "" ∧ plotNumber r = "" ∧ clientName r = "" ∧
  developerName r = "" ∧ inspectionDate r = today.
Proof. by repeat split. Qed.

Lemma drawCover_without_empty_rooms pageWidth r pdf :
  drawCover pageWidth (without_empty_rooms r) pdf = drawCover pageWidth r pdf.
Proof.
  pose proof (countSnags_without_empty_rooms r) as Hc.
  injection Hc as Ht Ho Hcr.
  unfold drawCover. rewrite Ht, Ho, Hcr. reflexivity.
Qed.

(** The document of a report whose only room with snags holds one snag, on
    the A4 page: one page with the cover, the heading of the room and the
    entry of the snag. *)
Lemma exportPDF_single_snag pageWidth pageHeight r room snag :
  (297 <= pageHeight)%Q → (pageHeight < 298)%Q →
  rooms (without_empty_rooms r) = [room] → snags room = [snag] →
  pages (exportPDF pageWidth pageHeight r)
  = [ lastPage (drawCover pageWidth r new_jsPDF).1
      ++ Text (room_name room) margin 178 (0, 61, 130) "bold" 14
      :: entry_items snag 186 ].
Proof.
  intros Hlo Hhi Hrooms Hsnags.
  assert (∀ d y st, st.2 = y → ¬ 297 - d < y → pageBreak pageHeight d st = st)
    as Hstay.
  { intros d y st Hst Hy. unfold pageBreak.
    by rewrite Hst, below_a4, bool_decide_eq_false_2. }
  rewrite <- exportPDF_without_empty_rooms. unfold exportPDF.
  rewrite Hrooms, drawCover_without_empty_rooms. cbn [foldl].
  rewrite drawRoom_nonempty by (by rewrite Hsnags).
  rewrite (Hstay 40 178) by (done || lia).
  rewrite Hsnags. cbn [fst snd foldl].
  rewrite drawSnag_eq by done.
  rewrite (Hstay 30 186) by (done || lia).
  unfold pages. cbn [fst snd donePages lastPage].
  change (donePages (drawCover pageWidth r new_jsPDF).1) with (@nil (list item)).
  cbn [app]. by rewrite <- app_assoc.
Qed.

(** C3 (as amended).  For the report of the end-to-end example, created at
    any clock reading: the counts are total 1, open 1, critical 1; on the
    A4 page the document has one page, which holds the cover, then the
    heading "Kitchen", then the entry of the snag: a marker filled with the
    red (220, 38, 38), the summary line "Under sink: Leak" and the
    secondary line "Priority: CRITICAL | Status: OPEN".  The secondary line
    of any snag is "Priority: " and the priority in upper case, then
    " | Status: " and the status in upper case with its hyphen replaced by a
    space. *)
Theorem C3_kitchen_example (now : Z) (today : string) (editorNow : nat → Z)
    (idNow createdNow : Z) (pageWidth pageHeight : Q) :
  (297 <= pageHeight)%Q → (pageHeight < 298)%Q →
  countSnags (kitchen_example now today editorNow idNow createdNow)
  = mkCounts 1 1 1 ∧
  pages (exportPDF pageWidth pageHeight
           (kitchen_example now today editorNow idNow createdNow))
  = [ [ Rect 0 0 pageWidth 60 (0, 45, 98);
        Text "Snagging List Report" 15 35 (255, 255, 255) "normal" 24;
        Text "Professional New Build Defects Report" 15 45 (212, 184, 138)
          "normal" 12;
        Text "Property Details" 15 80 (0, 0, 0) "bold" 12;
        Text "Address: Not specified" 15 90 (0, 0, 0) "normal" 12;
        Text "Plot Number: Not specified" 15 98 (0, 0, 0) "normal" 12;
        Text "Client: Not specified" 15 106 (0, 0, 0) "normal" 12;
        Text "Developer: Not specified" 15 114 (0, 0, 0) "normal" 12;
        Text ("Inspection Date: " +:+ or_else today "Not specified") 15 122
          (0, 0, 0) "normal" 12;
        Text "Summary" 15 137 (0, 0, 0) "bold" 12;
        Text "Total Snags: 1" 15 147 (0, 0, 0) "normal" 12;
        Text "Open Snags: 1" 15 155 (0, 0, 0) "normal" 12;
        Text "Critical Items: 1" 15 163 (0, 0, 0) "normal" 12;
        Text "Kitchen" 15 178 (0, 61, 130) "bold" 14;
        Circle 17 185 2 (220, 38, 38);
        Text "Under sink: Leak" 23 186 (0, 0, 0) "normal" 10;
        Text "Priority: CRITICAL | Status: OPEN" 23 192 (100, 100, 100)
          "normal" 10 ] ] ∧
  ∀ snag, statusLine snag
          = "Priority: "
              +:+ match priority snag with
                  | critical => "CRITICAL" | high => "HIGH"
                  | medium => "MEDIUM" | low => "LOW"
                  end
              +:+ " | Status: "
              +:+ match snag_status snag with
                  | open => "OPEN" | in_progress => "IN PROGRESS"
                  | resolved => "RESOLVED"
                  end.
Proof.
  intros Hlo Hhi.
  pose proof (kitchen_example_counts now today editorNow idNow createdNow)
    as Hcounts.
  pose proof (kitchen_example_fields now today editorNow idNow createdNow)
    as (Ha & Hp & Hcl & Hd & Hi).
  pose proof (kitchen_example_nonempty_rooms now today editorNow idNow
                createdNow) as Hrooms.
  revert Hcounts Ha Hp Hcl Hd Hi Hrooms.
  generalize (kitchen_example now today editorNow idNow createdNow).
  intros r Hcounts Ha Hp Hcl Hd Hi Hrooms.
  split; [exact Hcounts|]. split; [|apply statusLine_eq].
  rewrite (exportPDF_single_snag pageWidth pageHeight r _ _ Hlo Hhi Hrooms eq_refl).
  injection Hcounts as Ht Ho Hc.
  unfold drawCover. rewrite Ht, Ho, Hc, Ha, Hp, Hcl, Hd, Hi. reflexivity.
Qed.

Lemma C3_kitchen_example_witness :
  (297 <= a4_pageHeight)%Q ∧ (a4_pageHeight < 298)%Q ∧
  countSnags (kitchen_example 1000 "2024-05-01" (λ _, 1000) 2000 2000)
  = mkCounts 1 1 1.
Proof.
  assert (297 <= a4_pageHeight)%Q as Hlo
    by (apply Qle_bool_imp_le; reflexivity).
  assert (a4_pageHeight < 298)%Q as Hhi by reflexivity.
  split; [exact Hlo|]. split; [exact Hhi|].
  exact (proj1 (C3_kitchen_example 1000 "2024-05-01" (λ _, 1000) 2000 2000
                  a4_pageWidth a4_pageHeight Hlo Hhi)).
Defined.

(** C3 (as stated) fails: in the document of the example no text reads
    "CRITICAL | OPEN"; the secondary line of the entry carries the labels
    and reads "Priority: CRITICAL | Status: OPEN". *)
Lemma C3_secondary_line_carries_labels :
  let doc := exportPDF a4_pageWidth a4_pageHeight
               (kitchen_example 1000 "2024-05-01" (λ _, 1000) 2000 2000) in
  ("CRITICAL | OPEN" ∉ texts doc) ∧
  ("Priority: CRITICAL | Status: OPEN" ∈ texts doc).
Proof. cbn zeta. split; by_decide. Qed.
(** * Further properties of the editor handlers *)

(** ** Looking a snag up after an edit *)

Lemma find_fmap_preserving {A} (p : A → bool) (f : A → A) (l : list A) :
  (∀ x, p (f x) = p x) → List.find p (f <$> l) = f <$> List.find p l.
Proof.
  intros Hp. induction l as [|x l IH]; [done|]. cbn.
  rewrite Hp. by destruct (p x).
Qed.

Lemma find_fmap_untouched {A} (p : A → bool) (f : A → A) (l : list A) :
  (∀ x, p x = true → f x = x) → (∀ x, p (f x) = p x) →
  List.find p (f <$> l) = List.find p l.
Proof.
  intros Hfix Hp. induction l as [|x l IH]; [done|]. cbn.
  rewrite Hp. destruct (p x) eqn:Hx; [|done]. by rewrite Hfix.
Qed.

Lemma find_room_fmap roomId' (f : Room → Room) (l : list Room) :
  (∀ room, room_id (f room) = room_id room) →
  List.find (λ r, bool_decide (room_id r = roomId')) (f <$> l)
  = f <$> List.find (λ r, bool_decide (room_id r = roomId')) l.
Proof. intros Hid. apply find_fmap_preserving. intros x. by rewrite Hid. Qed.

Lemma find_room_id roomId (l : list Room) room :
  List.find (λ r, bool_decide (room_id r = roomId)) l = Some room →
  room_id room = roomId.
Proof.
  intros H. apply List.find_some in H as [_ H]. by apply bool_decide_eq_true in H.
Qed.

Lemma find_snag_id snagId (l : list SnagItem) s :
  List.find (λ s, bool_decide (snag_id s = snagId)) l = Some s →
  snag_id s = snagId.
Proof.
  intros H. apply List.find_some in H as [_ H]. by apply bool_decide_eq_true in H.
Qed.

Lemma handleUpdateSnag_find (r : SnaggingReport) (roomId snagId : string)
    (updates : SnagUpdates) :
  u_id updates = None →
  find_snag (handleUpdateSnag roomId snagId updates r) roomId snagId
    = (λ s, snag_merge s updates) <$> find_snag r roomId snagId ∧
  ∀ roomId' snagId', (roomId' ≠ roomId ∨ snagId' ≠ snagId) →
    find_snag (handleUpdateSnag roomId snagId updates r) roomId' snagId'
    = find_snag r roomId' snagId'.
Proof.
  intros Hu.
  set (g := λ snag, if decide (snag_id snag = snagId)
                    then snag_merge snag updates else snag).
  set (f := λ room, if decide (room_id room = roomId)
                    then room_with_snags room (g <$> snags room) else room).
  assert (∀ s, snag_id (g s) = snag_id s) as Hg.
  { intros s. unfold g. case_decide; [|done]. cbn. by rewrite Hu. }
  assert (∀ room, room_id (f room) = room_id room) as Hf.
  { intros room. unfold f. by case_decide. }
  assert (∀ roomId' snagId',
            find_snag (handleUpdateSnag roomId snagId updates r) roomId' snagId'
            = match List.find (λ r, bool_decide (room_id r = roomId')) (rooms r) with
              | Some room =>
                  List.find (λ s, bool_decide (snag_id s = snagId')) (snags (f room))
              | None => None
              end) as Hfind.
  { intros roomId' snagId'. unfold find_snag, handleUpdateSnag.
    cbn [rooms report_with_rooms]. fold g. fold f.
    rewrite find_room_fmap by done. by destruct (List.find _ (rooms r)). }
  split.
  - rewrite Hfind. unfold find_snag.
    destruct (List.find _ (rooms r)) as [room|] eqn:Hroom; [|done].
    apply find_room_id in Hroom. unfold f. rewrite decide_True by done. cbn.
    rewrite find_fmap_preserving by (intros x; by rewrite Hg).
    destruct (List.find _ (snags room)) as [s|] eqn:Hs; [|done].
    apply find_snag_id in Hs. cbn. unfold g. by rewrite decide_True.
  - intros roomId' snagId' Hne. rewrite Hfind. unfold find_snag.
    destruct (List.find _ (rooms r)) as [room|] eqn:Hroom; [|done].
    apply find_room_id in Hroom. unfold f.
    destruct (decide (room_id room = roomId)) as [Heq|]; [|done]. cbn.
    apply find_fmap_untouched; [|intros x; by rewrite Hg].
    intros s Hs%bool_decide_eq_true. unfold g.
    rewrite decide_False; [done|]. intros Hs'. destruct Hne; congruence.
Qed.

(** X1.  After [handleUpdateSnag] with a patch that leaves the id alone,
    looking up the patched snag gives the snag that was found before with
    the patch merged in, and is absent when it was absent; looking up any
    other snag, in this room or another, gives what it gave before. *)
Theorem update_then_find (r : SnaggingReport) (roomId snagId : string)
    (updates : SnagUpdates) :
  u_id updates = None →
  find_snag (handleUpdateSnag roomId snagId updates r) roomId snagId
    = (λ s, snag_merge s updates) <$> find_snag r roomId snagId ∧
  ∀ roomId' snagId', (roomId' ≠ roomId ∨ snagId' ≠ snagId) →
    find_snag (handleUpdateSnag roomId snagId updates r) roomId' snagId'
    = find_snag r roomId' snagId'.
Proof.
  intros Hu. destruct (handleUpdateSnag_find r roomId snagId updates Hu)
    as [Hhit Hmiss].
  split; [exact Hhit|]. intros roomId' snagId' Hne. by apply Hmiss.
Qed.

Lemma update_then_find_witness :
  find_snag (handleUpdateSnag "room-0-900" (snagId_of 1000)
               (mkSnagUpdates None None None None (Some resolved) None None)
               sample_report) "room-0-900" (snagId_of 1000)
  = Some (snag_merge sample_snag
            (mkSnagUpdates None None None None (Some resolved) None None)).
Proof.
  exact (proj1 (update_then_find sample_report "room-0-900" (snagId_of 1000)
                  (mkSnagUpdates None None None None (Some resolved) None None)
                  eq_refl)).
Defined.

Lemma find_filter_keep {A} (p : A → bool) (Q : A → Prop)
    `{!∀ x, Decision (Q x)} (l : list A) :
  (∀ x, p x = true → Q x) → List.find p (filter Q l) = List.find p l.
Proof.
  intros Hpq. induction l as [|x l IH]; [done|].
  destruct (decide (Q x)) as [HQ|HQ].
  - rewrite filter_cons_True by done. cbn. by rewrite IH.
  - rewrite filter_cons_False by done. cbn.
    destruct (p x) eqn:Hp; [|done]. by apply Hpq in Hp.
Qed.

Lemma find_filter_drop {A} (p : A → bool) (Q : A → Prop)
    `{!∀ x, Decision (Q x)} (l : list A) :
  (∀ x, p x = true → ¬ Q x) → List.find p (filter Q l) = None.
Proof.
  intros Hpq. induction l as [|x l IH]; [done|].
  destruct (decide (Q x)) as [HQ|HQ].
  - rewrite filter_cons_True by done. cbn.
    destruct (p x) eqn:Hp; [|done]. by apply Hpq in Hp.
  - by rewrite filter_cons_False.
Qed.

Lemma find_snoc_miss {A} (p : A → bool) (l : list A) x :
  p x = false → List.find p (l ++ [x]) = List.find p l.
Proof.
  intros Hx. induction l as [|y l IH]; cbn; [by rewrite Hx|].
  by destruct (p y).
Qed.

Lemma find_snoc_hit {A} (p : A → bool) (l : list A) x :
  p x = true → (∀ y, y ∈ l → p y = false) → List.find p (l ++ [x]) = Some x.
Proof.
  intros Hx Hl. induction l as [|y l IH]; cbn; [by rewrite Hx|].
  rewrite (Hl y) by left. apply IH. intros z Hz. apply Hl. by right.
Qed.

Lemma find_room_present roomId (l : list Room) :
  roomId ∈ room_id <$> l →
  ∃ room, List.find (λ r, bool_decide (room_id r = roomId)) l = Some room ∧
          room ∈ l ∧ room_id room = roomId.
Proof.
  intros (room & Hid & Hin)%list_elem_of_fmap.
  destruct (List.find _ l) as [room'|] eqn:Hfind.
  - exists room'. split; [done|]. pose proof (find_room_id _ _ _ Hfind).
    apply List.find_some in Hfind as [Hfind _]. by rewrite list_elem_of_In.
  - exfalso. apply list_elem_of_In in Hin.
    apply (List.find_none _ _ Hfind room) in Hin.
    by rewrite bool_decide_eq_true_2 in Hin.
Qed.

(** X2.  After [handleAddSnag] on a room of the report, with a clock
    reading whose id no snag of that room carries yet, looking the new id up
    in the room gives the new empty snag; looking up any other snag, in this
    room or another, gives what it gave before the addition. *)
Theorem add_then_find (r : SnaggingReport) (roomId : string)
    (idNow createdNow : Z) :
  has_room roomId r →
  snagId_of idNow ∉ snag_ids_in roomId r →
  find_snag (handleAddSnag roomId idNow createdNow r) roomId (snagId_of idNow)
    = Some (newSnag idNow createdNow) ∧
  ∀ roomId' snagId', (roomId' ≠ roomId ∨ snagId' ≠ snagId_of idNow) →
    find_snag (handleAddSnag roomId idNow createdNow r) roomId' snagId'
    = find_snag r roomId' snagId'.
Proof.
  intros Hroom Hfresh.
  set (f := λ room, if decide (room_id room = roomId)
                    then room_with_snags room
                           (snags room ++ [newSnag idNow createdNow])
                    else room).
  assert (∀ room, room_id (f room) = room_id room) as Hf.
  { intros room. unfold f. by case_decide. }
  assert (∀ roomId' snagId',
            find_snag (handleAddSnag roomId idNow createdNow r) roomId' snagId'
            = match List.find (λ r, bool_decide (room_id r = roomId')) (rooms r) with
              | Some room =>
                  List.find (λ s, bool_decide (snag_id s = snagId')) (snags (f room))
              | None => None
              end) as Hfind.
  { intros roomId' snagId'. unfold find_snag, handleAddSnag.
    cbn [rooms report_with_rooms]. fold f.
    rewrite find_room_fmap by done. by destruct (List.find _ (rooms r)). }
  split.
  - rewrite Hfind.
    destruct (find_room_present roomId (rooms r) Hroom) as (room & -> & Hin & Hid).
    unfold f. rewrite decide_True by done. cbn.
    apply find_snoc_hit; [by apply bool_decide_eq_true_2|].
    intros s Hs. apply bool_decide_eq_false_2. intros Hsid.
    apply Hfresh, snag_ids_in_spec. by exists room, s.
  - intros roomId' snagId' Hne. rewrite Hfind. unfold find_snag.
    destruct (List.find _ (rooms r)) as [room|] eqn:Hfroom; [|done].
    apply find_room_id in Hfroom. unfold f.
    destruct (decide (room_id room = roomId)) as [Heq|]; [|done]. cbn.
    apply find_snoc_miss, bool_decide_eq_false_2. cbn.
    intros Hs. destruct Hne; congruence.
Qed.

Lemma add_then_find_witness :
  has_room "room-0-900" sample_report ∧
  (snagId_of 2000 ∉ snag_ids_in "room-0-900" sample_report) ∧
  find_snag (handleAddSnag "room-0-900" 2000 2001 sample_report)
    "room-0-900" (snagId_of 2000) = Some (newSnag 2000 2001).
Proof.
  assert (has_room "room-0-900" sample_report) as H1
    by (unfold has_room; by_decide).
  assert (snagId_of 2000 ∉ snag_ids_in "room-0-900" sample_report) as H2
    by by_decide.
  split; [exact H1|]. split; [exact H2|].
  exact (proj1 (add_then_find sample_report "room-0-900" 2000 2001 H1 H2)).
Defined.

(** X3.  After [handleDeleteSnag] the deleted id is no longer found in the
    room, whether it was there or not; looking up any other snag, in this
    room or another, gives what it gave before the deletion. *)
Theorem delete_then_find (r : SnaggingReport) (roomId snagId : string) :
  find_snag (handleDeleteSnag roomId snagId r) roomId snagId = None ∧
  ∀ roomId' snagId', (roomId' ≠ roomId ∨ snagId' ≠ snagId) →
    find_snag (handleDeleteSnag roomId snagId r) roomId' snagId'
    = find_snag r roomId' snagId'.
Proof.
  set (f := λ room, if decide (room_id room = roomId)
                    then room_with_snags room
                           (filter (λ s, snag_id s ≠ snagId) (snags room))
                    else room).
  assert (∀ room, room_id (f room) = room_id room) as Hf.
  { intros room. unfold f. by case_decide. }
  assert (∀ roomId' snagId',
            find_snag (handleDeleteSnag roomId snagId r) roomId' snagId'
            = match List.find (λ r, bool_decide (room_id r = roomId')) (rooms r) with
              | Some room =>
                  List.find (λ s, bool_decide (snag_id s = snagId')) (snags (f room))
              | None => None
              end) as Hfind.
  { intros roomId' snagId'. unfold find_snag, handleDeleteSnag.
    cbn [rooms report_with_rooms]. fold f.
    rewrite find_room_fmap by done. by destruct (List.find _ (rooms r)). }
  split.
  - rewrite Hfind.
    destruct (List.find _ (rooms r)) as [room|] eqn:Hfroom; [|done].
    apply find_room_id in Hfroom. unfold f. rewrite decide_True by done. cbn.
    apply find_filter_drop. intros s Hs%bool_decide_eq_true. by intros ?.
  - intros roomId' snagId' Hne. rewrite Hfind. unfold find_snag.
    destruct (List.find _ (rooms r)) as [room|] eqn:Hfroom; [|done].
    apply find_room_id in Hfroom. unfold f.
    destruct (decide (room_id room = roomId)) as [Heq|]; [|done]. cbn.
    apply find_filter_keep. intros s Hs%bool_decide_eq_true Hs'.
    destruct Hne; congruence.
Qed.

Lemma delete_then_find_witness :
  find_snag sample_report "room-0-900" (snagId_of 1000) = Some sample_snag ∧
  find_snag (handleDeleteSnag "room-0-900" "snag-77" sample_report)
    "room-0-900" (snagId_of 1000) = Some sample_snag.
Proof.
  split; [reflexivity|].
  refine (proj2 (delete_then_find sample_report "room-0-900" "snag-77")
            "room-0-900" (snagId_of 1000) _).
  right. by_decide.
Defined.

(** ** Photos *)

Lemma find_photos_update_photos r roomId snagId ps s :
  find_snag r roomId snagId = Some s →
  find_snag (handleUpdateSnag roomId snagId (photos_only ps) r) roomId snagId
  = Some (snag_merge s (photos_only ps)).
Proof.
  intros Hs. destruct (handleUpdateSnag_find r roomId snagId (photos_only ps) eq_refl)
    as [-> _]. by rewrite Hs.
Qed.

(** What a photo update does to the whole tree, place by place: in the
    rooms whose id is [roomId], every snag whose id is [snagId] gets the
    photo list, the first such snag and any further one alike. *)
Lemma handleUpdateSnag_photos_at r roomId snagId ps :
  let r' := handleUpdateSnag roomId snagId (photos_only ps) r in
  report_with_rooms r' (rooms r) = r ∧
  ∀ i room, rooms r !! i = Some room →
    ∃ room', rooms r' !! i = Some room' ∧
      room_id room' = room_id room ∧ room_name room' = room_name room ∧
      length (snags room') = length (snags room) ∧
      ∀ j s, snags room !! j = Some s →
        snags room' !! j
        = Some (if decide (room_id room = roomId ∧ snag_id s = snagId)
                then mkSnagItem (snag_id s) (location s) (description s)
                       (priority s) (snag_status s) ps (snag_createdAt s)
                else s).
Proof.
  cbn zeta. split; [by destruct r|].
  intros i room Hi. unfold handleUpdateSnag. cbn [rooms report_with_rooms].
  rewrite list_lookup_fmap, Hi. cbn [fmap option_fmap option_map].
  eexists. split; [reflexivity|].
  destruct (decide (room_id room = roomId)) as [Hr|Hr].
  - cbn [room_id room_name snags room_with_snags].
    split; [reflexivity|]. split; [reflexivity|].
    split; [by rewrite length_fmap|].
    intros j s Hj. rewrite list_lookup_fmap, Hj. cbn [fmap option_fmap option_map].
    f_equal. destruct (decide (snag_id s = snagId)) as [Hs|Hs].
    + rewrite decide_True by done. reflexivity.
    + rewrite decide_False by tauto. reflexivity.
  - split; [reflexivity|]. split; [reflexivity|]. split; [reflexivity|].
    intros j s Hj. rewrite decide_False by tauto. exact Hj.
Qed.

(** X4.  [handleRemovePhoto], called on the state the editor shows.  When
    the snag is not found nothing changes.  When it is found: the photos
    found for it afterwards are the photos found before without those whose
    id is [photoId], in the same order, so no photo with that id is left,
    and its other fields are kept; looking up a snag under another id, or
    in a room with another id, gives what it gave before; and, place by
    place in the whole report, every snag with another id or in a room with
    another id is unchanged, while every snag that carries the same id in a
    room with the same room id, the one found and any further one, keeps its
    other fields and receives that same photo list, the one computed from
    the snag found first. *)
Theorem removePhoto_then_find (r : SnaggingReport)
    (roomId snagId photoId : string) :
  let r' := handleRemovePhoto r roomId snagId photoId r in
  find_photos r' roomId snagId
    = filter (λ p, photo_id p ≠ photoId) (find_photos r roomId snagId) ∧
  (photoId ∉ photo_id <$> find_photos r' roomId snagId) ∧
  (∀ s, find_snag r roomId snagId = Some s →
     ∃ s', find_snag r' roomId snagId = Some s' ∧
       snag_id s' = snag_id s ∧ location s' = location s ∧
       description s' = description s ∧ priority s' = priority s ∧
       snag_status s' = snag_status s ∧ snag_createdAt s' = snag_createdAt s) ∧
  (∀ roomId' snagId', (roomId' ≠ roomId ∨ snagId' ≠ snagId) →
     find_snag r' roomId' snagId' = find_snag r roomId' snagId') ∧
  (find_snag r roomId snagId = None → r' = r) ∧
  (∀ found, find_snag r roomId snagId = Some found →
     report_with_rooms r' (rooms r) = r ∧
     ∀ i room, rooms r !! i = Some room →
       ∃ room', rooms r' !! i = Some room' ∧
         room_id room' = room_id room ∧ room_name room' = room_name room ∧
         length (snags room') = length (snags room) ∧
         ∀ j s, snags room !! j = Some s →
           snags room' !! j
           = Some (if decide (room_id room = roomId ∧ snag_id s = snagId)
                   then mkSnagItem (snag_id s) (location s) (description s)
                          (priority s) (snag_status s)
                          (filter (λ p, photo_id p ≠ photoId) (photos found))
                          (snag_createdAt s)
                   else s)).
Proof.
  cbn zeta.
  assert (find_photos (handleRemovePhoto r roomId snagId photoId r) roomId snagId
          = filter (λ p, photo_id p ≠ photoId) (find_photos r roomId snagId))
    as Hphotos.
  { unfold handleRemovePhoto, find_photos.
    destruct (find_snag r roomId snagId) as [s|] eqn:Hs.
    - by rewrite (find_photos_update_photos _ _ _ _ s).
    - by rewrite Hs. }
  split; [exact Hphotos|]. split; [|split; [|split; [|split]]].
  - rewrite Hphotos. intros (p & Hid & Hp)%list_elem_of_fmap.
    apply list_elem_of_filter in Hp as [Hp _]. by apply Hp.
  - intros s Hs. unfold handleRemovePhoto. rewrite Hs.
    rewrite (find_photos_update_photos _ _ _ _ s) by done.
    eexists. split; [done|]. by repeat split.
  - intros roomId' snagId' Hne. unfold handleRemovePhoto.
    destruct (find_snag r roomId snagId) as [s|]; [|done].
    by apply handleUpdateSnag_find.
  - intros Hnone. unfold handleRemovePhoto. by rewrite Hnone.
  - intros found Hfound. unfold handleRemovePhoto. rewrite Hfound.
    apply handleUpdateSnag_photos_at.
Qed.

Lemma removePhoto_then_find_witness :
  ∃ s', find_snag (handleRemovePhoto sample_report "room-0-900"
                     (snagId_of 1000) "photo-1" sample_report)
          "room-0-900" (snagId_of 1000) = Some s' ∧
        description s' = "Leak".
Proof.
  destruct (removePhoto_then_find sample_report "room-0-900" (snagId_of 1000)
              "photo-1") as (_ & _ & H & _).
  destruct (H sample_snag eq_refl) as (s' & Hs' & _ & _ & Hd & _).
  exists s'. split; [exact Hs'|]. rewrite Hd. reflexivity.
Defined.

Lemma handlePhotoUpload_find (r : SnaggingReport) (roomId snagId : string)
    (files : list LoadedFile) (file : LoadedFile) (s : SnagItem) :
  find_snag r roomId snagId = Some s →
  let r' := handlePhotoUpload r roomId snagId (files ++ [file]) r in
  find_snag r' roomId snagId
    = Some (mkSnagItem (snag_id s) (location s) (description s) (priority s)
              (snag_status s)
              (photos s ++ [mkPhoto (photoId_of (file_now file) (file_random file))
                              (file_result file) (Some (file_name file))])
              (snag_createdAt s)) ∧
  ∀ roomId' snagId', (roomId' ≠ roomId ∨ snagId' ≠ snagId) →
    find_snag r' roomId' snagId' = find_snag r roomId' snagId'.
Proof.
  intros Hs. cbn zeta. rewrite handlePhotoUpload_last_wins. unfold onloadend.
  split.
  - rewrite (find_photos_update_photos _ _ _ _ s) by done.
    unfold find_photos. by rewrite Hs.
  - intros roomId' snagId' Hne. by apply handleUpdateSnag_find.
Qed.

(** X5.  A batch of uploads started on the state the editor shows, for a
    snag that is found: whatever the files that finished before, after the
    completion of the last file the snag holds its former photos followed by
    the photo of that last file, named after the file and carrying its data,
    and its other fields are kept; a batch of one file therefore appends
    exactly that photo.  Looking up a snag under another id, or in a room
    with another id, gives what it gave before; and, place by place in the
    whole report, every snag with another id or in a room with another id is
    unchanged, while every snag that carries the same id in a room with the
    same room id, the one found and any further one, keeps its other fields
    and receives that same photo list, the one computed from the snag found
    first. *)
Theorem upload_then_find (r : SnaggingReport) (roomId snagId : string)
    (files : list LoadedFile) (file : LoadedFile) (s : SnagItem) :
  find_snag r roomId snagId = Some s →
  let r' := handlePhotoUpload r roomId snagId (files ++ [file]) r in
  find_snag r' roomId snagId
    = Some (mkSnagItem (snag_id s) (location s) (description s) (priority s)
              (snag_status s)
              (photos s ++ [mkPhoto (photoId_of (file_now file) (file_random file))
                              (file_result file) (Some (file_name file))])
              (snag_createdAt s)) ∧
  (∀ roomId' snagId', (roomId' ≠ roomId ∨ snagId' ≠ snagId) →
     find_snag r' roomId' snagId' = find_snag r roomId' snagId') ∧
  report_with_rooms r' (rooms r) = r ∧
  ∀ i room, rooms r !! i = Some room →
    ∃ room', rooms r' !! i = Some room' ∧
      room_id room' = room_id room ∧ room_name room' = room_name room ∧
      length (snags room') = length (snags room) ∧
      ∀ j other, snags room !! j = Some other →
        snags room' !! j
        = Some (if decide (room_id room = roomId ∧ snag_id other = snagId)
                then mkSnagItem (snag_id other) (location other)
                       (description other) (priority other)
                       (snag_status other)
                       (photos s ++ [mkPhoto (photoId_of (file_now file)
                                                (file_random file))
                                       (file_result file)
                                       (Some (file_name file))])
                       (snag_createdAt other)
                else other).
Proof.
  intros Hs. destruct (handlePhotoUpload_find r roomId snagId files file s Hs)
    as [Hhit Hmiss].
  split; [exact Hhit|]. split; [intros roomId' snagId' Hne; by apply Hmiss|].
  cbn zeta. rewrite handlePhotoUpload_last_wins. unfold onloadend, find_photos.
  rewrite Hs. apply handleUpdateSnag_photos_at.
Qed.

Lemma upload_then_find_witness :
  find_snag sample_report "room-0-900" (snagId_of 1000) = Some sample_snag ∧
  find_photos (handlePhotoUpload sample_report "room-0-900" (snagId_of 1000)
                 ([] ++ [sample_file_a]) sample_report)
    "room-0-900" (snagId_of 1000)
  = [photo_of sample_file_a].
Proof.
  split; [reflexivity|].
  pose proof (proj1 (upload_then_find sample_report "room-0-900"
                       (snagId_of 1000) [] sample_file_a sample_snag eq_refl))
    as H.
  unfold find_photos. rewrite H. reflexivity.
Defined.

(** X6.  Uploading one file to a snag and removing the uploaded photo again,
    each from the state the editor shows at that moment, gives the snag its
    former photos back, provided no former photo carries the id generated
    for the upload. *)
Theorem upload_remove_roundtrip (r : SnaggingReport) (roomId snagId : string)
    (file : LoadedFile) (s : SnagItem) :
  find_snag r roomId snagId = Some s →
  photo_id (photo_of file) ∉ photo_id <$> photos s →
  let r1 := handlePhotoUpload r roomId snagId [file] r in
  let r2 := handleRemovePhoto r1 roomId snagId (photo_id (photo_of file)) r1 in
  find_snag r2 roomId snagId = Some s.
Proof.
  intros Hs Hfresh. cbn zeta.
  pose proof (handlePhotoUpload_find r roomId snagId [] file s Hs) as [H1 _].
  cbn zeta in H1. cbn [app] in H1.
  set (r1 := handlePhotoUpload r roomId snagId [file] r) in *.
  unfold handleRemovePhoto. rewrite H1.
  rewrite (find_photos_update_photos _ _ _ _ _ H1). cbn.
  f_equal. destruct s as [i l d p st ps c]. cbn in *. f_equal.
  rewrite filter_snoc_out; [done| |].
  - intros Hn. by apply Hn.
  - apply Forall_forall. intros ph Hph Heq. apply Hfresh.
    apply list_elem_of_fmap. by exists ph.
Qed.

Lemma upload_remove_roundtrip_witness :
  find_snag sample_report "room-0-900" (snagId_of 1000) = Some sample_snag ∧
  (photo_id (photo_of sample_file_a) ∉ photo_id <$> photos sample_snag) ∧
  find_snag
    (handleRemovePhoto
       (handlePhotoUpload sample_report "room-0-900" (snagId_of 1000)
          [sample_file_a] sample_report)
       "room-0-900" (snagId_of 1000) (photo_id (photo_of sample_file_a))
       (handlePhotoUpload sample_report "room-0-900" (snagId_of 1000)
          [sample_file_a] sample_report))
    "room-0-900" (snagId_of 1000) = Some sample_snag.
Proof.
  assert (photo_id (photo_of sample_file_a) ∉ photo_id <$> photos sample_snag)
    as H by by_decide.
  split; [reflexivity|]. split; [exact H|].
  exact (upload_remove_roundtrip sample_report "room-0-900" (snagId_of 1000)
           sample_file_a sample_snag eq_refl H).
Defined.

(** ** What the editor never changes *)

Lemma room_labels_fmap (f : Room → Room) r :
  (∀ room, room_id (f room) = room_id room ∧ room_name (f room) = room_name room) →
  room_labels (report_with_rooms r (f <$> rooms r)) = room_labels r.
Proof.
  intros Hf. unfold room_labels. cbn. rewrite <- list_fmap_compose.
  apply list_fmap_ext. intros _ room _. cbn. by destruct (Hf room) as [-> ->].
Qed.

Lemma editor_step_frame r a :
  let r' := editor_step r a in
  room_labels r' = room_labels r ∧
  report_status r' = report_status r ∧
  coverPhoto r' = coverPhoto r ∧
  report_createdAt r' = report_createdAt r ∧
  lastModified r' = lastModified r ∧
  ∀ field, (∀ value, a ≠ PropertyUpdate field value) →
           report_field field r' = report_field field r.
Proof.
  assert (∀ f : Room → Room,
            (∀ room, room_id (f room) = room_id room ∧
                     room_name (f room) = room_name room) →
            let r' := report_with_rooms r (f <$> rooms r) in
            room_labels r' = room_labels r ∧
            report_status r' = report_status r ∧
            coverPhoto r' = coverPhoto r ∧
            report_createdAt r' = report_createdAt r ∧
            lastModified r' = lastModified r ∧
            ∀ field, report_field field r' = report_field field r) as Hrooms.
  { intros f Hf. cbn zeta. split; [by apply room_labels_fmap|].
    by repeat split. }
  assert (∀ roomId snagId updates,
            let r' := handleUpdateSnag roomId snagId updates r in
            room_labels r' = room_labels r ∧
            report_status r' = report_status r ∧
            coverPhoto r' = coverPhoto r ∧
            report_createdAt r' = report_createdAt r ∧
            lastModified r' = lastModified r ∧
            ∀ field, report_field field r' = report_field field r) as Hupd.
  { intros roomId snagId updates. apply Hrooms. intros room. by case_decide. }
  destruct a as [field value|roomId idNow createdNow|roomId snagId updates
                |roomId snagId|captured roomId snagId file
                |captured roomId snagId photoId]; cbn zeta; cbn [editor_step].
  - repeat split. intros field' Hne. unfold handlePropertyUpdate.
    destruct field, field'; cbn; try done; by destruct (Hne value).
  - destruct (Hrooms (λ room, if decide (room_id room = roomId)
                              then room_with_snags room
                                     (snags room ++ [newSnag idNow createdNow])
                              else room)) as (?&?&?&?&?&?).
    { intros room. by case_decide. }
    by repeat split.
  - destruct (Hupd roomId snagId updates) as (?&?&?&?&?&?). by repeat split.
  - destruct (Hrooms (λ room, if decide (room_id room = roomId)
                              then room_with_snags room
                                     (filter (λ s, snag_id s ≠ snagId) (snags room))
                              else room)) as (?&?&?&?&?&?).
    { intros room. by case_decide. }
    by repeat split.
  - unfold onloadend. destruct (Hupd roomId snagId
      (photos_only (find_photos captured roomId snagId ++ [photo_of file])))
      as (?&?&?&?&?&?). by repeat split.
  - unfold handleRemovePhoto.
    destruct (find_snag captured roomId snagId) as [s|]; [|by repeat split].
    destruct (Hupd roomId snagId
      (photos_only (filter (λ p, photo_id p ≠ photoId) (photos s))))
      as (?&?&?&?&?&?). by repeat split.
Qed.

(** X7.  Whatever the editor does, in any order (field edits, snag
    additions, updates and deletions, photo uploads and removals, with any
    captured state): the rooms of the report keep their number, order, ids
    and names; the status, the cover photo, [createdAt] and [lastModified]
    of the report are never changed; and a descriptive field, or the id, is
    changed only by a field edit of that very field. *)
Theorem editor_never_changes (r : SnaggingReport) (actions : list EditorAction) :
  let r' := editor_steps r actions in
  room_labels r' = room_labels r ∧
  report_status r' = report_status r ∧
  coverPhoto r' = coverPhoto r ∧
  report_createdAt r' = report_createdAt r ∧
  lastModified r' = lastModified r ∧
  ∀ field, (∀ value, PropertyUpdate field value ∉ actions) →
           report_field field r' = report_field field r.
Proof.
  cbn zeta. unfold editor_steps. revert r.
  induction actions as [|a actions IH]; intros r; [done|]. cbn [foldl].
  destruct (IH (editor_step r a)) as (H1 & H2 & H3 & H4 & H5 & H6).
  destruct (editor_step_frame r a) as (G1 & G2 & G3 & G4 & G5 & G6).
  rewrite H1, H2, H3, H4, H5. repeat split; try done.
  intros field Hnot. rewrite H6, G6; [done| |].
  - intros value ->. apply (Hnot value). left.
  - intros value Hin. apply (Hnot value). by right.
Qed.

Lemma editor_never_changes_witness :
  report_id
    (editor_steps sample_report
       [ PropertyUpdate F_clientName "Ms Patel";
         AddSnagTo "room-1-900" 2000 2000;
         PhotoLoaded sample_report "room-0-900" (snagId_of 1000) sample_file_a;
         DeleteSnagIn "room-0-900" (snagId_of 1000) ])
  = "report-900".
Proof.
  destruct (editor_never_changes sample_report
              [ PropertyUpdate F_clientName "Ms Patel";
                AddSnagTo "room-1-900" 2000 2000;
                PhotoLoaded sample_report "room-0-900" (snagId_of 1000) sample_file_a;
                DeleteSnagIn "room-0-900" (snagId_of 1000) ])
    as (_ & _ & _ & _ & _ & H).
  refine (H F_id _). intros value Hin.
  repeat (apply elem_of_cons in Hin as [Hin|Hin]; [discriminate Hin|]).
  by apply elem_of_nil in Hin.
Defined.

(** X8.  The property form: after [handlePropertyUpdate] the edited field
    reads the new value and every other field reads what it read before; a
    second edit of the same field replaces the first, and edits of two
    different fields give the same report in either order. *)
Theorem propertyUpdate_laws (r : SnaggingReport) (f g : ReportField)
    (v w : string) :
  report_field f (handlePropertyUpdate f v r) = v ∧
  (g ≠ f → report_field g (handlePropertyUpdate f v r) = report_field g r) ∧
  handlePropertyUpdate f w (handlePropertyUpdate f v r)
    = handlePropertyUpdate f w r ∧
  (g ≠ f → handlePropertyUpdate g w (handlePropertyUpdate f v r)
           = handlePropertyUpdate f v (handlePropertyUpdate g w r)).
Proof.
  repeat split.
  - by destruct f.
  - intros Hne. by destruct f, g.
  - by destruct f.
  - intros Hne. by destruct f, g.
Qed.

Lemma propertyUpdate_laws_witness :
  handlePropertyUpdate F_plotNumber "14"
    (handlePropertyUpdate F_clientName "Ms Patel" sample_report)
  = handlePropertyUpdate F_clientName "Ms Patel"
      (handlePropertyUpdate F_plotNumber "14" sample_report).
Proof.
  destruct (propertyUpdate_laws sample_report F_clientName F_plotNumber
              "Ms Patel" "14") as (_ & _ & _ & H).
  apply H. discriminate.
Defined.

(** ** How the edits move the counts *)

Lemma all_snags_cons r room l :
  rooms r = room :: l →
  all_snags r = snags room ++ concat (snags <$> l).
Proof. intros H. unfold all_snags. by rewrite H. Qed.

Lemma count_after_add (P : SnagItem → Prop) `{!∀ s, Decision (P s)}
    roomId idNow createdNow r :
  length (filter P (all_snags (handleAddSnag roomId idNow createdNow r)))
  = (length (filter P (all_snags r))
     + if decide (P (newSnag idNow createdNow))
       then length (filter (λ room, room_id room = roomId) (rooms r))
       else 0)%nat.
Proof.
  unfold all_snags, handleAddSnag. cbn [rooms report_with_rooms].
  induction (rooms r) as [|room l IH].
  - cbn. by case_decide.
  - rewrite !fmap_cons. cbn [concat].
    rewrite !filter_app, !length_app, IH.
    destruct (decide (room_id room = roomId)) as [Heq|Hne].
    + rewrite (filter_cons_True (λ room, room_id room = roomId)) by done.
      cbn [snags room_with_snags length].
      rewrite filter_app, length_app.
      change (filter P [newSnag idNow createdNow])
        with (if decide (P (newSnag idNow createdNow))
              then [newSnag idNow createdNow] else []).
      destruct (decide (P (newSnag idNow createdNow))); cbn [length]; lia.
    + rewrite (filter_cons_False (λ room, room_id room = roomId)) by done.
      case_decide; lia.
Qed.

Lemma filter_none {A} (P : A → Prop) `{!∀ x, Decision (P x)} (l : list A) :
  (∀ x, x ∈ l → ¬ P x) → filter P l = [].
Proof.
  induction l as [|x l IH]; intros Hl; [done|].
  rewrite filter_cons_False by (apply Hl; left).
  apply IH. intros y Hy. apply Hl. by right.
Qed.

Lemma rooms_with_id_unique roomId (l : list Room) :
  NoDup (room_id <$> l) → roomId ∈ room_id <$> l →
  length (filter (λ room, room_id room = roomId) l) = 1%nat.
Proof.
  induction l as [|room l IH]; intros Hnd Hin.
  - by apply elem_of_nil in Hin.
  - rewrite fmap_cons in Hnd, Hin. apply NoDup_cons in Hnd as [Hnotin Hnd].
    destruct (decide (room_id room = roomId)) as [Heq|Hne].
    + rewrite filter_cons_True by done. cbn [length]. f_equal.
      apply length_zero_iff_nil, filter_none.
      intros room' Hin' Hid. apply Hnotin.
      rewrite Heq, <- Hid. apply list_elem_of_fmap. by exists room'.
    + rewrite filter_cons_False by done. apply IH; [done|].
      apply elem_of_cons in Hin as [Hin|Hin]; [congruence|done].
Qed.

Lemma length_filter_True {A} (l : list A) :
  length (filter (λ _, True) l) = length l.
Proof. induction l as [|x l IH]; [done|]. rewrite filter_cons_True by done. cbn. lia. Qed.

Lemma count_after_delete (P : SnagItem → Prop) `{!∀ s, Decision (P s)}
    roomId snagId r :
  (length (filter P (all_snags (handleDeleteSnag roomId snagId r)))
   <= length (filter P (all_snags r)))%nat.
Proof.
  unfold all_snags, handleDeleteSnag. cbn [rooms report_with_rooms].
  induction (rooms r) as [|room l IH]; [done|].
  rewrite !fmap_cons. cbn [concat]. rewrite !filter_app, !length_app.
  enough (length (filter P (snags (if decide (room_id room = roomId)
            then room_with_snags room
                   (filter (λ s, snag_id s ≠ snagId) (snags room))
            else room))) <= length (filter P (snags room)))%nat by lia.
  case_decide; [|done]. cbn [snags room_with_snags].
  rewrite list_filter_filter.
  induction (snags room) as [|s k IHk]; [done|].
  destruct (decide (P s)) as [HPs|HPs].
  - rewrite (filter_cons_True P) by done. cbn [length].
    destruct (decide (snag_id s ≠ snagId)).
    + rewrite filter_cons_True by done. cbn [length]. lia.
    + rewrite filter_cons_False by (by intros [? ?]). lia.
  - rewrite (filter_cons_False P) by done.
    rewrite filter_cons_False by (by intros [? ?]). done.
Qed.

(** X9.  In a report whose rooms have distinct ids, adding a snag to a room
    of the report raises the total and the open count by one and leaves the
    critical count as it is; [handleUpdateSnag] never changes the total; and
    [handleDeleteSnag] never raises any of the three counts. *)
Theorem counts_after_edit (r : SnaggingReport) (roomId snagId : string)
    (idNow createdNow : Z) (updates : SnagUpdates) :
  (NoDup (room_id <$> rooms r) → has_room roomId r →
   countSnags (handleAddSnag roomId idNow createdNow r)
   = mkCounts (S (total (countSnags r))) (S (open_count (countSnags r)))
              (critical_count (countSnags r))) ∧
  total (countSnags (handleUpdateSnag roomId snagId updates r))
    = total (countSnags r) ∧
  (total (countSnags (handleDeleteSnag roomId snagId r)) <= total (countSnags r)
   ∧ open_count (countSnags (handleDeleteSnag roomId snagId r))
       <= open_count (countSnags r)
   ∧ critical_count (countSnags (handleDeleteSnag roomId snagId r))
       <= critical_count (countSnags r))%nat.
Proof.
  split; [|split].
  - intros Hnd Hroom. rewrite !countSnags_recount. unfold recount.
    cbn [total open_count critical_count].
    pose proof (rooms_with_id_unique roomId (rooms r) Hnd Hroom) as Hone.
    pose proof (count_after_add (λ _, True) roomId idNow createdNow r) as Ht.
    rewrite !length_filter_True, Hone in Ht.
    rewrite Ht, !count_after_add, Hone.
    rewrite (decide_True (P := True)) by done.
    rewrite (decide_True (P := snag_status (newSnag idNow createdNow) = open))
      by done.
    rewrite (decide_False (P := priority (newSnag idNow createdNow) = critical))
      by done.
    f_equal; lia.
  - rewrite !countSnags_recount. cbn [recount total].
    unfold all_snags, handleUpdateSnag. cbn [rooms report_with_rooms].
    induction (rooms r) as [|room l IH]; [done|].
    rewrite !fmap_cons. cbn [concat]. rewrite !length_app, IH. f_equal.
    case_decide; [|done]. cbn [snags room_with_snags]. by rewrite length_fmap.
  - rewrite !countSnags_recount. cbn [recount total open_count critical_count].
    pose proof (count_after_delete (λ _, True) roomId snagId r) as Ht.
    rewrite !length_filter_True in Ht.
    split; [exact Ht|]. split; apply count_after_delete.
Qed.

Lemma counts_after_edit_witness :
  NoDup (room_id <$> rooms sample_report) ∧
  has_room "room-1-900" sample_report ∧
  countSnags (handleAddSnag "room-1-900" 2000 2000 sample_report)
  = mkCounts 2 2 1.
Proof.
  assert (NoDup (room_id <$> rooms sample_report)) as H1 by by_decide.
  assert (has_room "room-1-900" sample_report) as H2
    by (unfold has_room; by_decide).
  split; [exact H1|]. split; [exact H2|].
  exact (proj1 (counts_after_edit sample_report "room-1-900" "" 2000 2000
                  (photos_only [])) H1 H2).
Defined.

(** * Properties of the application *)

(** ** A fresh report *)

Lemma newReport_room_lookup now today i room :
  rooms (newReport now today) !! i = Some room →
  room_id room = roomId_of i now ∧ snags room = [] ∧
  DEFAULT_ROOMS !! i = Some (room_name room).
Proof.
  unfold newReport, default_rooms. cbn [rooms].
  rewrite list_lookup_imap. destruct (DEFAULT_ROOMS !! i) as [name|]; [|done].
  cbn. by intros [= <-].
Qed.

Lemma exportPDF_no_snags pageWidth pageHeight r :
  all_snags r = [] →
  exportPDF pageWidth pageHeight r = (drawCover pageWidth r new_jsPDF).1.
Proof.
  intros Hnone. unfold exportPDF. f_equal.
  assert (∀ room, room ∈ rooms r → snags room = []) as Hrooms.
  { unfold all_snags in Hnone. induction (rooms r) as [|room l IH].
    - by intros ? ?%elem_of_nil.
    - rewrite fmap_cons in Hnone. cbn [concat] in Hnone.
      apply app_eq_nil in Hnone as [Hroom Hl].
      intros room' [->|Hin]%elem_of_cons; [done|by apply IH]. }
  generalize (drawCover pageWidth r new_jsPDF). intros st.
  induction (rooms r) as [|room l IH]; [done|]. cbn [foldl].
  rewrite drawRoom_empty by (apply Hrooms; left).
  apply IH. intros room' Hin. apply Hrooms. by right.
Qed.

Lemma drawCover_lastPage pageWidth r :
  lastPage (drawCover pageWidth r new_jsPDF).1
  = [ Rect 0 0 pageWidth 60 (0, 45, 98);
      Text "Snagging List Report" margin 35 (255, 255, 255) "normal" 24;
      Text "Professional New Build Defects Report" margin 45 (212, 184, 138)
        "normal" 12;
      Text "Property Details" margin 80 (0, 0, 0) "bold" 12;
      Text ("Address: " +:+ or_else (propertyAddress r) "Not specified")
        margin 90 (0, 0, 0) "normal" 12;
      Text ("Plot Number: " +:+ or_else (plotNumber r) "Not specified")
        margin 98 (0, 0, 0) "normal" 12;
      Text ("Client: " +:+ or_else (clientName r) "Not specified")
        margin 106 (0, 0, 0) "normal" 12;
      Text ("Developer: " +:+ or_else (developerName r) "Not specified")
        margin 114 (0, 0, 0) "normal" 12;
      Text ("Inspection Date: " +:+ or_else (inspectionDate r) "Not specified")
        margin 122 (0, 0, 0) "normal" 12;
      Text "Summary" margin 137 (0, 0, 0) "bold" 12;
      Text ("Total Snags: " +:+ pretty (totalSnags r)) margin 147 (0, 0, 0)
        "normal" 12;
      Text ("Open Snags: " +:+ pretty (openSnags r)) margin 155 (0, 0, 0)
        "normal" 12;
      Text ("Critical Items: " +:+ pretty (criticalSnags r)) margin 163
        (0, 0, 0) "normal" 12 ].
Proof. reflexivity. Qed.


Lemma drawCover_donePages pageWidth r :
  donePages (drawCover pageWidth r new_jsPDF).1 = [].
Proof. reflexivity. Qed.

(** X10.  A report without any snag, whatever its rooms, exports as the
    cover alone: one page, for every page size, with no room heading and no
    entry, and the three counts of the cover read 0. *)
Theorem export_without_snags (pageWidth pageHeight : Q) (r : SnaggingReport) :
  all_snags r = [] →
  pages (exportPDF pageWidth pageHeight r)
    = [lastPage (drawCover pageWidth r new_jsPDF).1] ∧
  Forall (λ i, entry_item i = false) (items (exportPDF pageWidth pageHeight r)) ∧
  "Total Snags: 0" ∈ texts (exportPDF pageWidth pageHeight r) ∧
  "Open Snags: 0" ∈ texts (exportPDF pageWidth pageHeight r) ∧
  "Critical Items: 0" ∈ texts (exportPDF pageWidth pageHeight r).
Proof.
  intros Hnone. rewrite exportPDF_no_snags by done.
  pose proof (countSnags_recount r) as Hc. unfold recount in Hc.
  rewrite Hnone in Hc. injection Hc as Ht Ho Hcr.
  assert (items (drawCover pageWidth r new_jsPDF).1
          = lastPage (drawCover pageWidth r new_jsPDF).1) as Hitems.
  { rewrite items_eq, drawCover_donePages. reflexivity. }
  split; [|split].
  - unfold pages. rewrite drawCover_donePages. reflexivity.
  - rewrite Hitems, drawCover_lastPage.
    repeat first [ apply List.Forall_nil
                 | apply List.Forall_cons; [reflexivity|] ].
  - unfold texts. rewrite Hitems, drawCover_lastPage, Ht, Ho, Hcr.
    repeat split; apply list_elem_of_In; cbn [omap list_omap text_of In]; tauto.
Qed.

Lemma export_without_snags_witness :
  all_snags (one_room_report 0) = [] ∧
  length (pages (exportPDF a4_pageWidth a4_pageHeight (one_room_report 0)))
  = 1%nat.
Proof.
  split; [reflexivity|].
  by rewrite (proj1 (export_without_snags a4_pageWidth a4_pageHeight
                       (one_room_report 0) eq_refl)).
Defined.

(** X11.  The report [handleNewReport] creates, at any clock reading: its
    twenty rooms carry the catalog names in catalog order and pairwise
    distinct ids, and none has a snag; its status is working, it has no
    cover photo and [createdAt] and [lastModified] are both the clock
    reading; the editor opens it as it is, without replacing its rooms. *)
Theorem newReport_wellformed (now : Z) (today : string) (editorNow : nat → Z) :
  let r := newReport now today in
  room_name <$> rooms r = DEFAULT_ROOMS ∧
  length (rooms r) = 20%nat ∧
  NoDup (room_id <$> rooms r) ∧
  all_snags r = [] ∧
  countSnags r = mkCounts 0 0 0 ∧
  report_status r = working ∧ coverPhoto r = None ∧
  report_createdAt r = now ∧ lastModified r = now ∧
  initCurrentReport editorNow r = r.
Proof.
  cbn zeta. split; [reflexivity|]. split; [reflexivity|].
  assert (all_snags (newReport now today) = []) as Hnone by reflexivity.
  split; [|split; [exact Hnone|split]].
  - apply NoDup_alt. intros i j x Hi Hj.
    rewrite list_lookup_fmap in Hi, Hj.
    destruct (rooms (newReport now today) !! i) as [ri|] eqn:Hri; [|done].
    destruct (rooms (newReport now today) !! j) as [rj|] eqn:Hrj; [|done].
    apply newReport_room_lookup in Hri as [Hri _].
    apply newReport_room_lookup in Hrj as [Hrj _].
    cbn in Hi, Hj. apply (roomId_of_inj i j now). congruence.
  - rewrite countSnags_recount. unfold recount. by rewrite Hnone.
  - by repeat split.
Qed.

(** ** The collection and what is shown *)

Lemma find_report_fmap id (f : SnaggingReport → SnaggingReport)
    (l : list SnaggingReport) :
  (∀ r, report_id (f r) = report_id r) →
  List.find (λ r, bool_decide (report_id r = id)) (f <$> l)
  = f <$> List.find (λ r, bool_decide (report_id r = id)) l.
Proof. intros Hid. apply find_fmap_preserving. intros x. by rewrite Hid. Qed.

(** X12.  Creating a report while logged in shows the editor on the new
    report, provided no report of the collection already has the id derived
    from the clock reading; the collection keeps its former reports in
    order and gains the new one at the end. *)
Theorem newReport_opens_editor (now : Z) (today : string) (st : AppState) :
  isLoggedIn st = true →
  report_id (newReport now today) ∉ report_id <$> reports st →
  App_render (App_handleNewReport now today st)
    = EditorScreen (newReport now today) ∧
  reports (App_handleNewReport now today st)
    = reports st ++ [newReport now today].
Proof.
  intros Hin Hfresh. split; [|done].
  unfold App_render, App_handleNewReport, App_currentReport. cbn [isLoggedIn
    currentView currentReportId reports]. rewrite Hin. cbn [negb].
  unfold handleNewReport. rewrite find_snoc_hit; [done| |].
  - by apply bool_decide_eq_true_2.
  - intros r Hr. apply bool_decide_eq_false_2. intros Hid. apply Hfresh.
    rewrite <- Hid. apply list_elem_of_fmap. by exists r.
Qed.

Lemma newReport_opens_editor_witness :
  App_render (App_handleNewReport 950 "2024-05-02"
                (mkAppState true [sample_report] dashboard None))
  = EditorScreen (newReport 950 "2024-05-02").
Proof.
  refine (proj1 (newReport_opens_editor 950 "2024-05-02"
                   (mkAppState true [sample_report] dashboard None)
                   eq_refl _)).
  by_decide.
Defined.

(** X13.  Saving from the editor: [handleSave] stamps the report with the
    clock reading and [handleSaveReport] stores it.  The collection keeps
    its length; every report with another id is unchanged at its place;
    every report with the id of the saved one is replaced by it; when the
    id is in the collection, the report the editor is opened on afterwards
    is the saved one, with its rooms as edited and [lastModified] the clock
    reading; when the id is not in the collection nothing changes. *)
Theorem save_stores_report (now : Z) (edited : SnaggingReport) (st : AppState) :
  let saved := handleSave now edited in
  let st' := App_handleSaveReport saved st in
  length (reports st') = length (reports st) ∧
  (∀ i r, reports st !! i = Some r →
     reports st' !! i
     = Some (if decide (report_id r = report_id edited) then saved else r)) ∧
  rooms saved = rooms edited ∧ lastModified saved = now ∧
  (report_id edited ∈ report_id <$> reports st →
   App_currentReport (App_handleOpenReport (report_id edited) st') = Some saved) ∧
  (report_id edited ∉ report_id <$> reports st → reports st' = reports st).
Proof.
  cbn zeta. unfold App_handleSaveReport, handleSaveReport. cbn [reports].
  split; [by rewrite length_fmap|]. split; [|split; [done|split; [done|split]]].
  - intros i r Hi. by rewrite list_lookup_fmap, Hi.
  - intros (r0 & Hid & Hr0)%list_elem_of_fmap.
    unfold App_currentReport, App_handleOpenReport. cbn [currentReportId reports].
    induction (reports st) as [|r l IH]; [by apply elem_of_nil in Hr0|].
    rewrite fmap_cons. cbn [List.find].
    destruct (decide (report_id r = report_id (handleSave now edited)))
      as [Heq|Hne].
    + by rewrite bool_decide_eq_true_2.
    + rewrite bool_decide_eq_false_2 by done.
      apply IH. apply elem_of_cons in Hr0 as [->|Hr0]; [|done].
      by destruct Hne.
  - intros Hno. apply fmap_if_fixed. intros r Hr Hid. exfalso. apply Hno.
    cbn in Hid. rewrite <- Hid. apply list_elem_of_fmap. by exists r.
Qed.

Lemma save_stores_report_witness :
  report_id sample_report ∈ report_id <$> [sample_report] ∧
  App_currentReport
    (App_handleOpenReport (report_id sample_report)
       (App_handleSaveReport
          (handleSave 5000 (handleDeleteSnag "room-0-900" (snagId_of 1000)
                              sample_report))
          (mkAppState true [sample_report] editor (Some "report-900"))))
  = Some (handleSave 5000 (handleDeleteSnag "room-0-900" (snagId_of 1000)
                             sample_report)).
Proof.
  assert (report_id sample_report ∈ report_id <$> [sample_report]) as H
    by by_decide.
  split; [exact H|].
  destruct (save_stores_report 5000
              (handleDeleteSnag "room-0-900" (snagId_of 1000) sample_report)
              (mkAppState true [sample_report] editor (Some "report-900")))
    as (_ & _ & _ & _ & Hopen & _).
  exact (Hopen H).
Defined.

(** X14.  Deleting a report: when the dialog is confirmed the collection
    loses exactly the reports with that id and keeps the others in their
    order; when it is dismissed the collection is unchanged.  Opening the
    deleted id afterwards does not show the editor: the dashboard is shown,
    on the remaining reports. *)
Theorem delete_removes_report (id : string) (st : AppState) :
  reports (App_handleDeleteReport true id st)
    = filter (λ r, report_id r ≠ id) (reports st) ∧
  (∀ r, r ∈ reports (App_handleDeleteReport true id st)
        ↔ r ∈ reports st ∧ report_id r ≠ id) ∧
  reports (App_handleDeleteReport true id st) `sublist_of` reports st ∧
  App_handleDeleteReport false id st = st ∧
  (isLoggedIn st = true →
   App_render (App_handleOpenReport id (App_handleDeleteReport true id st))
   = DashboardScreen
       (dashboardReports (filter (λ r, report_id r ≠ id) (reports st)))).
Proof.
  split; [done|]. split; [|split; [|split]].
  - intros r. cbn. unfold handleDeleteReport. rewrite list_elem_of_filter. tauto.
  - cbn. unfold handleDeleteReport. apply sublist_filter.
  - by destruct st.
  - intros Hin. unfold App_render, App_currentReport. cbn. rewrite Hin. cbn.
    unfold handleDeleteReport.
    rewrite find_filter_drop; [done|].
    intros r Hr%bool_decide_eq_true. by intros ?.
Qed.

Lemma delete_removes_report_witness :
  App_render (App_handleOpenReport "report-900"
                (App_handleDeleteReport true "report-900"
                   (mkAppState true [sample_report] dashboard None)))
  = DashboardScreen [].
Proof.
  exact (proj2 (proj2 (proj2 (proj2
           (delete_removes_report "report-900"
              (mkAppState true [sample_report] dashboard None)))))
           eq_refl).
Defined.

(** ** The browser store *)

Lemma storage_keys_differ : IS_LOGGED_IN ≠ REPORTS.
Proof. discriminate. Qed.

Lemma Login_handleSubmit_cases username password localStorage :
  (username = "admin" ∧ password = "admin" ∧
   Login_handleSubmit username password localStorage
   = Accepted (<[IS_LOGGED_IN := "true"]> localStorage)) ∨
  (¬ (username = "admin" ∧ password = "admin") ∧
   ∃ error, Login_handleSubmit username password localStorage = Rejected error).
Proof.
  unfold Login_handleSubmit.
  destruct (decide (username = "admin")) as [->|Hu];
    [destruct (decide (password = "admin")) as [->|Hp]|].
  - left. by repeat split.
  - right. rewrite (bool_decide_eq_false_2 (password = "admin")) by exact Hp.
    rewrite andb_false_r. split; [tauto|by eexists].
  - right. rewrite (bool_decide_eq_false_2 (username = "admin")) by exact Hu.
    split; [tauto|by eexists].
Qed.

(** X15.  The session flag.  The demo credentials, and only they, are
    accepted; on acceptance the flag is stored, every other key of the
    store is left alone, and the application started from that store is
    logged in: it reads the flag as set, and it starts exactly when it
    starts from the store as it was, in the state [handleLogin] gives
    there.  After [handleLogout] the flag is gone, every other key is left
    alone, the reports in memory are unchanged, and the application started
    from that store reads the flag as unset and, whenever it starts, shows
    the login form. *)
Theorem session_flag_roundtrip (username password : string)
    (localStorage : gmap string string) (st : AppState)
    (parse : string → option (list SnaggingReport)) :
  (username = "admin" ∧ password = "admin" →
   ∃ ls', Login_handleSubmit username password localStorage = Accepted ls' ∧
          App_initLoggedIn ls' = true ∧
          App_init parse ls' = App_handleLogin <$> App_init parse localStorage ∧
          ∀ k, k ≠ IS_LOGGED_IN → ls' !! k = localStorage !! k) ∧
  (¬ (username = "admin" ∧ password = "admin") →
   ∃ error, Login_handleSubmit username password localStorage = Rejected error) ∧
  (let '(st', ls') := App_handleLogout st localStorage in
   isLoggedIn st' = false ∧ reports st' = reports st ∧
   App_initLoggedIn ls' = false ∧
   App_render <$> App_init parse ls'
   = (λ _, LoginScreen) <$> App_init parse localStorage ∧
   ∀ k, k ≠ IS_LOGGED_IN → ls' !! k = localStorage !! k).
Proof.
  split; [|split].
  - intros [-> ->]. eexists. split; [done|].
    assert (App_initLoggedIn (<[IS_LOGGED_IN:="true"]> localStorage) = true)
      as Hflag.
    { unfold App_initLoggedIn. apply bool_decide_eq_true_2.
      by rewrite lookup_insert_eq. }
    split; [exact Hflag|]. split.
    + unfold App_init, App_initReports. rewrite Hflag.
      rewrite lookup_insert_ne by apply storage_keys_differ.
      by destruct (localStorage !! REPORTS) as [[|c stored]|];
        [|destruct (parse (String c stored))|].
    + intros k Hk. by rewrite lookup_insert_ne.
  - intros Hno.
    destruct (Login_handleSubmit_cases username password localStorage)
      as [(Hu & Hp & _)|(_ & Herr)]; [|exact Herr].
    destruct Hno. by split.
  - cbn [App_handleLogout].
    assert (App_initLoggedIn (delete IS_LOGGED_IN localStorage) = false)
      as Hflag.
    { unfold App_initLoggedIn. apply bool_decide_eq_false_2.
      by rewrite lookup_delete_eq. }
    split; [done|]. split; [done|]. split; [exact Hflag|]. split.
    + unfold App_init, App_initReports. rewrite Hflag.
      rewrite lookup_delete_ne by apply storage_keys_differ.
      by destruct (localStorage !! REPORTS) as [[|c stored]|];
        [|destruct (parse (String c stored))|].
    + intros k Hk. by rewrite lookup_delete_ne.
Qed.

Lemma session_flag_roundtrip_witness :
  ∃ ls', Login_handleSubmit "admin" "admin" (∅ : gmap string string)
         = Accepted ls' ∧
         App_init (λ _, None) ls'
         = Some (mkAppState true [] dashboard None).
Proof.
  destruct (proj1 (session_flag_roundtrip "admin" "admin" ∅
                     (mkAppState false [] dashboard None) (λ _, None))
              (conj eq_refl eq_refl)) as (ls' & H1 & _ & H2 & _).
  exists ls'. split; [exact H1|]. rewrite H2. reflexivity.
Defined.

(** X16.  The stored reports.  After the reports have been written to the
    store, the application started from that store holds the same reports,
    provided the stored text is not empty and parses back to them; writing
    the reports leaves the session flag and every other key alone.  A
    store without the key, or with the empty text under it, starts the
    application with no reports, whatever [JSON.parse] does. *)
Theorem reports_persist (parse : string → option (list SnaggingReport))
    (stringify : list SnaggingReport → string) (st : AppState)
    (localStorage : gmap string string) :
  (stringify (reports st) ≠ "" →
   parse (stringify (reports st)) = Some (reports st) →
   App_init parse (App_persist stringify st localStorage)
   = Some (mkAppState (App_initLoggedIn localStorage) (reports st)
                      dashboard None)) ∧
  App_initLoggedIn (App_persist stringify st localStorage)
    = App_initLoggedIn localStorage ∧
  (∀ k, k ≠ REPORTS →
        App_persist stringify st localStorage !! k = localStorage !! k) ∧
  (localStorage !! REPORTS = None ∨ localStorage !! REPORTS = Some "" →
   App_init parse localStorage
   = Some (mkAppState (App_initLoggedIn localStorage) [] dashboard None)).
Proof.
  assert (App_initLoggedIn (App_persist stringify st localStorage)
          = App_initLoggedIn localStorage) as Hflag.
  { unfold App_initLoggedIn, App_persist.
    rewrite lookup_insert_ne; [done|]. intros H. by apply storage_keys_differ. }
  split; [|split; [exact Hflag|split]].
  - intros Hne Hparse. unfold App_init, App_initReports. rewrite Hflag.
    unfold App_persist. rewrite lookup_insert_eq.
    destruct (stringify (reports st)) as [|c stored]; [done|].
    by rewrite Hparse.
  - intros k Hk. unfold App_persist. by rewrite lookup_insert_ne.
  - unfold App_init, App_initReports. by intros [-> | ->].
Qed.

Lemma reports_persist_witness :
  reports <$> App_init (λ _, Some [sample_report])
                (App_persist (λ _, "[...]")
                   (mkAppState true [sample_report] dashboard None) ∅)
  = Some [sample_report].
Proof.
  rewrite (proj1 (reports_persist (λ _, Some [sample_report]) (λ _, "[...]")
                    (mkAppState true [sample_report] dashboard None) ∅)
             ltac:(discriminate) eq_refl).
  reflexivity.
Defined.

(** X17.  The view mode of the dashboard: after [handleViewModeChange] with
    a mode that is not the empty string, a dashboard mounted on that store
    starts in that mode; with no stored mode, or the empty one, it starts in
    the grid; the change touches no other key. *)
Theorem viewMode_roundtrip (mode : string) (localStorage : gmap string string) :
  (mode ≠ "" →
   Dashboard_initViewMode (handleViewModeChange mode localStorage).2 = mode) ∧
  (localStorage !! VIEW_MODE = None ∨ localStorage !! VIEW_MODE = Some "" →
   Dashboard_initViewMode localStorage = "grid") ∧
  ∀ k, k ≠ VIEW_MODE →
       (handleViewModeChange mode localStorage).2 !! k = localStorage !! k.
Proof.
  unfold Dashboard_initViewMode, handleViewModeChange. cbn [snd].
  split; [|split].
  - intros Hne. rewrite lookup_insert_eq. by destruct mode.
  - by intros [-> | ->].
  - intros k Hk. by rewrite lookup_insert_ne.
Qed.

Lemma viewMode_roundtrip_witness :
  Dashboard_initViewMode (handleViewModeChange "list" ∅).2 = "list".
Proof.
  refine (proj1 (viewMode_roundtrip "list" ∅) _). discriminate.
Defined.

(** * Properties of the dashboard list *)

(** ** The stable sort *)

Lemma sort_insert_Permutation {A} (compare : A → A → Z) x (l : list A) :
  sort_insert compare x l ≡ₚ x :: l.
Proof.
  induction l as [|y l IH]; [done|]. cbn. case_decide; [done|].
  rewrite IH. apply Permutation_swap.
Qed.

Lemma js_sort_Permutation {A} (compare : A → A → Z) (l : list A) :
  js_sort compare l ≡ₚ l.
Proof.
  induction l as [|x l IH]; [done|]. cbn.
  by rewrite sort_insert_Permutation, IH.
Qed.

Lemma sort_insert_sorted {A} (compare : A → A → Z) (R : A → A → Prop) x
    (l : list A) :
  (∀ a b, compare a b <= 0 → R a b) →
  (∀ a b, ¬ compare a b <= 0 → R b a) →
  (∀ a b c, R a b → R b c → R a c) →
  StronglySorted R l → StronglySorted R (sort_insert compare x l).
Proof.
  intros Hle Hgt Htrans Hl. induction Hl as [|y l Hl IH Hy]; cbn.
  - repeat constructor.
  - case_decide as Hxy.
    + constructor; [by constructor|]. constructor; [by apply Hle|].
      eapply Forall_impl; [exact Hy|]. intros z Hz. cbn in Hz.
      eapply Htrans; [by apply Hle|done].
    + constructor; [done|].
      rewrite sort_insert_Permutation. constructor; [by apply Hgt|done].
Qed.

Lemma js_sort_sorted {A} (compare : A → A → Z) (R : A → A → Prop)
    (l : list A) :
  (∀ a b, compare a b <= 0 → R a b) →
  (∀ a b, ¬ compare a b <= 0 → R b a) →
  (∀ a b c, R a b → R b c → R a c) →
  StronglySorted R (js_sort compare l).
Proof.
  intros Hle Hgt Htrans. induction l as [|x l IH]; cbn; [constructor|].
  by apply sort_insert_sorted.
Qed.

Lemma sort_insert_stable {A} (compare : A → A → Z) (P : A → Prop)
    `{!∀ x, Decision (P x)} x (l : list A) :
  (∀ a b, P a → P b → compare a b <= 0) →
  filter P (sort_insert compare x l) = filter P (x :: l).
Proof.
  intros Hsame. induction l as [|y l IH]; [done|]. cbn [sort_insert].
  case_decide as Hxy; [done|].
  destruct (decide (P x)) as [Hx|Hx]; destruct (decide (P y)) as [Hy|Hy].
  - destruct Hxy. by apply Hsame.
  - rewrite (filter_cons_False P y) by done. rewrite IH.
    by rewrite !(filter_cons_True P x), (filter_cons_False P y) by done.
  - rewrite (filter_cons_True P y) by done. rewrite IH.
    by rewrite !(filter_cons_False P x), (filter_cons_True P y) by done.
  - rewrite (filter_cons_False P y) by done. rewrite IH.
    by rewrite !(filter_cons_False P x), (filter_cons_False P y) by done.
Qed.

Lemma js_sort_stable {A} (compare : A → A → Z) (P : A → Prop)
    `{!∀ x, Decision (P x)} (l : list A) :
  (∀ a b, P a → P b → compare a b <= 0) →
  filter P (js_sort compare l) = filter P l.
Proof.
  intros Hsame. induction l as [|x l IH]; [done|]. cbn [js_sort foldr].
  rewrite sort_insert_stable by done. fold (js_sort compare l).
  destruct (decide (P x)).
  - by rewrite !filter_cons_True, IH by done.
  - by rewrite !filter_cons_False, IH by done.
Qed.

Lemma includes_empty s : includes s "" = true.
Proof. by destruct s. Qed.

Section DashboardProperties.
Variable toLowerCase : string → string.
Variable str_lt : string → string → bool.

(** X18.  The list the dashboard shows holds exactly the reports of the
    collection that match the tab and the search, each as often as the
    collection holds it: sorting only rearranges them, and the list is never
    longer than the collection. *)
Theorem dashboard_shows_matching (activeTab : Tab) (searchQuery : string)
    (sortBy : SortBy) (sortOrder : SortOrder) (reports : list SavedReport) :
  filteredReports toLowerCase str_lt activeTab searchQuery sortBy sortOrder reports
    ≡ₚ filter (λ r, matchesStatus activeTab r && matchesSearch toLowerCase searchQuery r)
              reports ∧
  (∀ r, r ∈ filteredReports toLowerCase str_lt activeTab searchQuery sortBy sortOrder reports
        ↔ r ∈ reports ∧ matchesStatus activeTab r = true
          ∧ matchesSearch toLowerCase searchQuery r = true) ∧
  (length (filteredReports toLowerCase str_lt activeTab searchQuery sortBy sortOrder reports)
   <= length reports)%nat.
Proof.
  assert (filteredReports toLowerCase str_lt activeTab searchQuery sortBy sortOrder reports
          ≡ₚ filter (λ r, matchesStatus activeTab r
                          && matchesSearch toLowerCase searchQuery r) reports) as Hperm
    by apply js_sort_Permutation.
  split; [exact Hperm|]. split.
  - intros r. rewrite Hperm, list_elem_of_filter.
    rewrite Is_true_true, andb_true_iff. tauto.
  - rewrite Hperm. apply length_filter.
Qed.

(** X19.  On the tab "all" with an empty search box the dashboard shows
    every report of the collection, each once per occurrence, whatever the
    sort column and order; this needs only that [toLowerCase] maps the
    empty string to itself. *)
Theorem dashboard_shows_all (sortBy : SortBy) (sortOrder : SortOrder)
    (reports : list SavedReport) :
  toLowerCase "" = "" →
  filteredReports toLowerCase str_lt AllTab "" sortBy sortOrder reports ≡ₚ reports.
Proof.
  intros Hlower. unfold filteredReports.
  rewrite js_sort_Permutation.
  rewrite (list_filter_iff _ (λ _, True)).
  - clear. induction reports as [|r l IH]; [done|].
    by rewrite filter_cons_True, IH.
  - intros r. unfold matchesSearch. cbn.
    by rewrite Hlower, includes_empty.
Qed.

(** X20.  Sorted by date, the list is in the order of [lastModified]:
    newest first when descending (the default), oldest first when
    ascending.  Reports with the same [lastModified] keep the order they
    have in the collection. *)
Theorem dashboard_sorted_by_date (activeTab : Tab) (searchQuery : string)
    (sortOrder : SortOrder) (reports : list SavedReport) (t : Z) :
  StronglySorted (in_sort_order toLowerCase str_lt ByDate sortOrder)
    (filteredReports toLowerCase str_lt activeTab searchQuery ByDate sortOrder reports) ∧
  filter (λ r, saved_lastModified r = t)
    (filteredReports toLowerCase str_lt activeTab searchQuery ByDate sortOrder reports)
  = filter (λ r, saved_lastModified r = t)
      (filter (λ r, matchesStatus activeTab r && matchesSearch toLowerCase searchQuery r)
              reports).
Proof.
  split.
  - apply js_sort_sorted.
    + intros a b. unfold compareReports, in_sort_order.
      destruct sortOrder;
        destruct (Z.ltb_spec (saved_lastModified a) (saved_lastModified b));
        destruct (Z.ltb_spec (saved_lastModified b) (saved_lastModified a));
        lia.
    + intros a b. unfold compareReports, in_sort_order.
      destruct sortOrder;
        destruct (Z.ltb_spec (saved_lastModified a) (saved_lastModified b));
        destruct (Z.ltb_spec (saved_lastModified b) (saved_lastModified a));
        lia.
    + intros a b c. unfold in_sort_order. destruct sortOrder; lia.
  - apply js_sort_stable. intros a b Ha Hb.
    unfold compareReports. rewrite Ha, Hb, Z.ltb_irrefl.
    by destruct sortOrder.
Qed.

(** X21.  For any order [<] on strings that never holds both ways round
    and in which [a] is not above [c] whenever [a] is not above [b] and [b]
    is not above [c], the list is in the order of the sort column whatever
    the column (date, lower-cased address, lower-cased client) and the
    direction, and the reports that share the value of [x] in the sort
    column keep the order they have in the collection. *)
Theorem dashboard_sorted (activeTab : Tab) (searchQuery : string)
    (sortBy : SortBy) (sortOrder : SortOrder) (reports : list SavedReport)
    (x : SavedReport) :
  (∀ a b, str_lt a b = true → str_lt b a = false) →
  (∀ a b c, str_lt b a = false → str_lt c b = false → str_lt c a = false) →
  StronglySorted (in_sort_order toLowerCase str_lt sortBy sortOrder)
    (filteredReports toLowerCase str_lt activeTab searchQuery sortBy sortOrder
       reports) ∧
  filter (same_sort_key toLowerCase sortBy x)
    (filteredReports toLowerCase str_lt activeTab searchQuery sortBy sortOrder
       reports)
  = filter (same_sort_key toLowerCase sortBy x)
      (filter (λ r, matchesStatus activeTab r
                    && matchesSearch toLowerCase searchQuery r)
              reports).
Proof.
  intros Hasym Htrans.
  assert (∀ k, str_lt k k = false) as Hirr.
  { intros k. destruct (str_lt k k) eqn:Hk; [|done]. by rewrite Hasym in Hk. }
  split.
  - apply js_sort_sorted.
    + intros a b. unfold compareReports, in_sort_order.
      destruct sortBy, sortOrder;
        try (destruct (Z.ltb_spec (saved_lastModified a) (saved_lastModified b));
             destruct (Z.ltb_spec (saved_lastModified b) (saved_lastModified a));
             lia);
        match goal with
        | |- context [str_lt ?u ?v] =>
            destruct (str_lt u v) eqn:Huv; destruct (str_lt v u) eqn:Hvu;
            try done; try lia; by rewrite Hasym in Hvu
        end.
    + intros a b. unfold compareReports, in_sort_order.
      destruct sortBy, sortOrder;
        try (destruct (Z.ltb_spec (saved_lastModified a) (saved_lastModified b));
             destruct (Z.ltb_spec (saved_lastModified b) (saved_lastModified a));
             lia);
        match goal with
        | |- context [str_lt ?u ?v] =>
            destruct (str_lt u v) eqn:Huv; destruct (str_lt v u) eqn:Hvu;
            try done; try lia; by rewrite Hasym in Hvu
        end.
    + intros a b c. unfold in_sort_order.
      destruct sortBy, sortOrder; try lia; eauto.
  - apply js_sort_stable. intros a b Ha Hb.
    unfold compareReports. unfold same_sort_key in Ha, Hb.
    destruct sortBy; rewrite <- Ha, <- Hb, ?Z.ltb_irrefl, ?Hirr;
      by destruct sortOrder.
Qed.

End DashboardProperties.

Lemma String_ltb_asym a b : String.ltb a b = true → String.ltb b a = false.
Proof.
  unfold String.ltb. rewrite (String.compare_antisym b a).
  by destruct (String.compare a b).
Qed.

Lemma String_ltb_leb a b : String.ltb b a = false ↔ String.le a b.
Proof.
  unfold String.le, String.ltb, String.leb.
  rewrite (String.compare_antisym a b). by destruct (String.compare b a).
Qed.

Lemma String_ltb_negtrans a b c :
  String.ltb b a = false → String.ltb c b = false → String.ltb c a = false.
Proof.
  rewrite !String_ltb_leb. intros Hab Hbc. by etrans.
Qed.

Lemma dashboard_shows_matching_witness :
  mkSavedReport "report-950" "22 Mill Lane" "Acme Homes" "Mr Okoro" "7"
    "2024-05-02" 990 complete 0 0
  ∈ filteredReports ascii_toLowerCase String.ltb (StatusTab complete) "MILL"
      ByDate Desc sample_rows.
Proof.
  apply (proj1 (proj2 (dashboard_shows_matching ascii_toLowerCase String.ltb
                         (StatusTab complete) "MILL" ByDate Desc sample_rows))).
  split; [|by split].
  apply elem_of_cons. right. apply elem_of_cons. by left.
Defined.

Lemma dashboard_shows_all_witness :
  filteredReports ascii_toLowerCase String.ltb AllTab "" ByClient Asc sample_rows
  ≡ₚ sample_rows.
Proof.
  exact (dashboard_shows_all ascii_toLowerCase String.ltb ByClient Asc
           sample_rows eq_refl).
Defined.

Lemma dashboard_sorted_witness :
  StronglySorted (in_sort_order ascii_toLowerCase String.ltb ByAddress Asc)
    (filteredReports ascii_toLowerCase String.ltb AllTab "" ByAddress Asc
       sample_rows).
Proof.
  exact (proj1 (dashboard_sorted ascii_toLowerCase String.ltb AllTab ""
                  ByAddress Asc sample_rows
                  (mkSavedReport "" "" "" "" "" "" 0 working 0 0)
                  String_ltb_asym String_ltb_negtrans)).
Defined.

(** * Further properties of the export *)

(** ** The content of the document, positions aside *)

Lemma at_zero_entry snag y :
  at_zero <$> entry_items snag y = at_zero <$> entry_items snag 0.
Proof. done. Qed.

Lemma content_drawSnags pageHeight l : ∀ st,
  entry_ready st.1 →
  at_zero <$> items (foldl (drawSnag pageHeight) st l).1
  = (at_zero <$> items st.1)
    ++ (at_zero <$> concat ((λ snag, entry_items snag 0) <$> l)).
Proof.
  induction l as [|snag l IH]; intros st Hready.
  - cbn. by rewrite app_nil_r.
  - cbn [foldl].
    destruct (items_drawSnag pageHeight st snag Hready) as [Hready' Hitems].
    rewrite IH, Hitems by done. rewrite fmap_cons. cbn [concat].
    rewrite !fmap_app, at_zero_entry. by rewrite <- app_assoc.
Qed.

Lemma content_drawRoom pageHeight st room :
  at_zero <$> items (drawRoom pageHeight st room).1
  = (at_zero <$> items st.1) ++ room_content room.
Proof.
  unfold room_content. destruct (decide (snags room = [])) as [Hnil|Hne].
  - rewrite drawRoom_empty by done. by rewrite app_nil_r.
  - rewrite drawRoom_nonempty by done. cbn [fst].
    rewrite content_drawSnags by done. cbn [fst].
    rewrite items_eq. cbn [donePages lastPage].
    rewrite app_assoc, <- items_eq, items_pageBreak.
    rewrite fmap_cons, !fmap_app. cbn [fmap list_fmap]. by rewrite <- app_assoc.
Qed.

Lemma content_drawRooms pageHeight l : ∀ st,
  at_zero <$> items (foldl (drawRoom pageHeight) st l).1
  = (at_zero <$> items st.1) ++ concat (room_content <$> l).
Proof.
  induction l as [|room l IH]; intros st.
  - cbn. by rewrite app_nil_r.
  - cbn [foldl]. rewrite IH, content_drawRoom, fmap_cons. cbn [concat].
    by rewrite <- app_assoc.
Qed.

(** X22.  Read page after page and with the vertical positions set aside,
    the document is the cover followed, room after room, by what each room
    contributes: nothing for a room without snags; for a room with snags its
    name as a bold 14pt heading in the blue (0, 61, 130) at the margin, then
    for each snag in order a marker in the colour of its priority, its
    summary line in black and its priority and status line in grey, both
    10pt normal at the entry indent.  The page height has no influence on
    this sequence. *)
Theorem document_content (pageWidth pageHeight : Q) (r : SnaggingReport) :
  at_zero <$> items (exportPDF pageWidth pageHeight r)
  = (at_zero <$> lastPage (drawCover pageWidth r new_jsPDF).1)
    ++ concat (room_content <$> rooms r).
Proof.
  unfold exportPDF. rewrite content_drawRooms.
  rewrite items_eq, drawCover_donePages. reflexivity.
Qed.

(** ** Page hygiene *)

Lemma headings_kept_app l1 l2 :
  headings_kept l1 → headings_kept l2 → headings_kept (l1 ++ l2).
Proof.
  intros H1 H2. induction H1 as [|i l Hi _ IH|h snag y l Hh _ IH].
  - exact H2.
  - cbn. by apply headings_kept_other.
  - cbn [app]. rewrite <- app_assoc. by apply headings_kept_heading.
Qed.

Lemma headings_kept_entry snag y : headings_kept (entry_items snag y).
Proof. repeat (apply headings_kept_other; [reflexivity|]). constructor. Qed.

Section TallAsCover.
Variable pageHeight : Q.
(** The page is at least as tall as the cover section is long. *)
Hypothesis Hcover : (inject_Z 163 <= pageHeight)%Q.

Lemma tall_enough : (inject_Z (margin + entry_height) <= pageHeight)%Q.
Proof using Hcover.
  eapply Qle_trans; [|exact Hcover]. apply Qle_bool_imp_le. reflexivity.
Qed.

Lemma inside_entry snag y :
  margin <= y → (inject_Z (y + entry_height) <= pageHeight)%Q →
  Forall (inside_page pageHeight) (entry_items snag y).
Proof.
  intros Hy Hfit. unfold margin in Hy.
  assert (∀ z, z <= y + entry_height → (inject_Z z <= pageHeight)%Q) as Hle.
  { intros z Hz. eapply Qle_trans; [|exact Hfit]. by rewrite <- Zle_Qle. }
  unfold entry_items, entry_height in *.
  repeat constructor; cbn; try lia; apply Hle; lia.
Qed.

Lemma pages_fine_pageBreak d st :
  pages_fine pageHeight st.1 →
  let b := pageBreak pageHeight d st in
  Forall (λ page, page ≠ [] ∧ headings_kept page
                  ∧ Forall (inside_page pageHeight) page) (donePages b.1) ∧
  headings_kept (lastPage b.1) ∧
  Forall (inside_page pageHeight) (lastPage b.1).
Proof.
  intros (Hd & Hne & Hk & Hi). cbn zeta.
  destruct (pageBreak_cases pageHeight d st) as [[_ ->]|[_ ->]].
  - cbn [fst addPage donePages lastPage]. split; [|split; constructor].
    apply Forall_app. split; [exact Hd|]. apply Forall_singleton. by repeat split.
  - by repeat split.
Qed.

Lemma pages_fine_drawSnag st snag :
  entry_ready st.1 → pages_fine pageHeight st.1 → margin <= st.2 →
  let st' := drawSnag pageHeight st snag in
  entry_ready st'.1 ∧ pages_fine pageHeight st'.1 ∧ margin <= st'.2.
Proof using Hcover.
  intros Hready Hfine Hy. cbn zeta.
  destruct (pageBreak_entry_fits pageHeight tall_enough st Hy) as [Hm Hfit].
  destruct (pages_fine_pageBreak 30 st Hfine) as (Hd & Hk & Hi).
  rewrite drawSnag_eq by exact Hready. cbn [fst snd].
  split; [by repeat split|]. split; [|unfold entry_height; lia].
  split; [exact Hd|]. cbn [lastPage]. split; [|split].
  - intros Hnil. apply app_eq_nil in Hnil as [_ Hnil]. discriminate Hnil.
  - apply headings_kept_app; [exact Hk|apply headings_kept_entry].
  - apply Forall_app. split; [exact Hi|]. by apply inside_entry.
Qed.

Lemma pages_fine_drawSnags l : ∀ st,
  entry_ready st.1 → pages_fine pageHeight st.1 → margin <= st.2 →
  let st' := foldl (drawSnag pageHeight) st l in
  pages_fine pageHeight st'.1 ∧ margin <= st'.2.
Proof using Hcover.
  induction l as [|snag l IH]; intros st Hready Hfine Hy.
  - by split.
  - cbn [foldl].
    destruct (pages_fine_drawSnag st snag Hready Hfine Hy) as (? & ? & ?).
    by apply IH.
Qed.

(** After the heading of a room the first entry is drawn without a page
    break in between. *)
Lemma no_break_after_heading st pdf :
  margin <= st.2 →
  let b := pageBreak pageHeight 40 st in
  pageBreak pageHeight 30 (pdf, b.2 + 8) = (pdf, b.2 + 8) ∧
  margin <= b.2 ∧ (inject_Z (b.2 + 8 + entry_height) <= pageHeight)%Q.
Proof using Hcover.
  intros Hy. cbn zeta.
  assert (∀ z, z <= 163 → (inject_Z z <= pageHeight)%Q) as Hle.
  { intros z Hz. eapply Qle_trans; [|exact Hcover]. by rewrite <- Zle_Qle. }
  assert (∀ y, (inject_Z y <= pageHeight - inject_Z 40)%Q →
               (inject_Z (y + 8) <= pageHeight - inject_Z 30)%Q ∧
               (inject_Z (y + 8 + entry_height) <= pageHeight)%Q) as Hstep.
  { intros y Hq. rewrite !inject_Z_plus. revert Hq. generalize (inject_Z y).
    intros q Hq. change (inject_Z 40) with 40%Q in Hq.
    change (inject_Z 30) with 30%Q. change (inject_Z 8) with 8%Q.
    change (inject_Z entry_height) with 16%Q. split; lra. }
  assert ((inject_Z (margin + 8) <= pageHeight - inject_Z 30)%Q) as Htop.
  { pose proof (Hle 163 ltac:(lia)) as Hq. revert Hq.
    change (inject_Z 163) with 163%Q. change (inject_Z (margin + 8)) with 23%Q.
    change (inject_Z 30) with 30%Q. intros Hq. lra. }
  unfold pageBreak at 1. cbn [snd].
  destruct (pageBreak_cases pageHeight 40 st) as [[_ ->]|[Hb ->]]; cbn [snd].
  - rewrite (proj2 (below_false _ _ _) Htop). split; [done|].
    split; [lia|]. apply Hle. unfold margin, entry_height. lia.
  - apply below_false in Hb. destruct (Hstep _ Hb) as [H30 Hfit].
    rewrite (proj2 (below_false _ _ _) H30). by repeat split.
Qed.

Lemma pages_fine_drawRoom st room :
  pages_fine pageHeight st.1 → margin <= st.2 →
  let st' := drawRoom pageHeight st room in
  pages_fine pageHeight st'.1 ∧ margin <= st'.2.
Proof using Hcover.
  intros Hfine Hy. cbn zeta.
  destruct (snags room) as [|snag rest] eqn:Hsnags.
  - rewrite drawRoom_empty by exact Hsnags. by split.
  - rewrite drawRoom_nonempty by (by rewrite Hsnags). cbn [fst snd].
    rewrite Hsnags. cbn [foldl].
    destruct (pages_fine_pageBreak 40 st Hfine) as (Hd & Hk & Hi).
    match goal with |- context [drawSnag _ (?p, _) _] => set (pdf := p) end.
    destruct (no_break_after_heading st pdf Hy) as (Hsame & Hm & Hfit).
    rewrite drawSnag_eq by (by repeat split). rewrite Hsame. cbn [fst snd].
    match goal with |- context [foldl _ ?s _] => set (st2 := s) end.
    destruct (pages_fine_drawSnags rest st2) as [Hfine' Hy'].
    + by repeat split.
    + split; [exact Hd|]. unfold st2, pdf. cbn [fst lastPage]. split; [|split].
      * intros Hnil. apply app_eq_nil in Hnil as [_ Hnil]. discriminate Hnil.
      * rewrite <- app_assoc. apply headings_kept_app; [exact Hk|].
        cbn [app]. rewrite <- (app_nil_r (entry_items _ _)).
        apply headings_kept_heading; [reflexivity|constructor].
      * rewrite <- app_assoc. apply Forall_app. split; [exact Hi|].
        cbn [app]. constructor.
        -- cbn. split; [unfold margin in Hm; lia|].
           eapply Qle_trans; [|exact Hfit]. rewrite <- Zle_Qle.
           unfold entry_height. lia.
        -- apply inside_entry; [lia|exact Hfit].
    + unfold st2. cbn [snd]. unfold entry_height. lia.
    + split; [exact Hfine'|lia].
Qed.

Lemma pages_fine_drawRooms l : ∀ st,
  pages_fine pageHeight st.1 → margin <= st.2 →
  pages_fine pageHeight (foldl (drawRoom pageHeight) st l).1.
Proof using Hcover.
  induction l as [|room l IH]; intros st Hfine Hy; [exact Hfine|].
  cbn [foldl]. destruct (pages_fine_drawRoom st room Hfine Hy).
  by apply IH.
Qed.

Lemma pages_fine_drawCover pageWidth r :
  pages_fine pageHeight (drawCover pageWidth r new_jsPDF).1.
Proof using Hcover.
  assert (∀ z, z <= 163 → (inject_Z z <= pageHeight)%Q) as Hle.
  { intros z Hz. eapply Qle_trans; [|exact Hcover]. by rewrite <- Zle_Qle. }
  unfold pages_fine. rewrite drawCover_donePages, drawCover_lastPage.
  split; [constructor|]. split; [discriminate|]. split.
  - repeat (apply headings_kept_other; [reflexivity|]). constructor.
  - repeat (apply List.Forall_cons;
            [cbn; split; [unfold margin; lia|apply Hle; unfold margin; lia]|]).
    apply List.Forall_nil.
Qed.
End TallAsCover.

(** X23.  On a page at least as tall as the cover section (163 mm, so on
    the A4 page), for every report: no page of the document is empty; every
    room heading is directly followed, on the same page, by the whole entry
    of the first snag of the room, so no heading is left alone at the foot of
    a page; and every rectangle, marker and text baseline lies between the
    top and the bottom edge of its page. *)
Theorem document_pages_fine (pageWidth pageHeight : Q) (r : SnaggingReport) :
  (inject_Z 163 <= pageHeight)%Q →
  Forall (λ page, page ≠ [] ∧ headings_kept page
                  ∧ Forall (inside_page pageHeight) page)
         (pages (exportPDF pageWidth pageHeight r)).
Proof.
  intros Hcover. unfold exportPDF.
  destruct (pages_fine_drawRooms pageHeight Hcover (rooms r)
              (drawCover pageWidth r new_jsPDF)) as (Hd & Hne & Hk & Hi).
  - apply pages_fine_drawCover. exact Hcover.
  - change ((drawCover pageWidth r new_jsPDF).2) with 178. unfold margin. lia.
  - unfold pages. apply Forall_app. split; [exact Hd|].
    apply Forall_singleton. by repeat split.
Qed.

Lemma document_pages_fine_witness :
  (inject_Z 163 <= a4_pageHeight)%Q ∧
  Forall (λ page, page ≠ [] ∧ headings_kept page
                  ∧ Forall (inside_page a4_pageHeight) page)
         (pages (exportPDF a4_pageWidth a4_pageHeight (one_room_report 7))).
Proof.
  assert (inject_Z 163 <= a4_pageHeight)%Q as H
    by (apply Qle_bool_imp_le; reflexivity).
  split; [exact H|].
  exact (document_pages_fine a4_pageWidth a4_pageHeight (one_room_report 7) H).
Defined.

(** The predicate does reject a heading left alone at the end of a page. *)
Lemma headings_kept_rejects_orphan room y :
  ¬ headings_kept [heading_item room y].
Proof.
  intros H. inversion H as [|i l Hi _ Heq|h snag y' l _ _ Heq].
  discriminate Hi.
Qed.

(** * Properties of the room list and of the file name *)

(** ** Expanding and selecting rooms *)

Lemma initExpandedRooms_selected id :
  id ∈ initExpandedRooms (Some id).
Proof.
  unfold initExpandedRooms. destruct (decide (id = "")) as [->|_];
    by apply elem_of_singleton.
Qed.

Lemma room_onClick_expanded roomId st :
  roomId ∈ expandedRooms (room_onClick (expandedRooms st) roomId st) ∧
  expandedRooms st
    ⊆ expandedRooms (room_onClick (expandedRooms st) roomId st).
Proof.
  unfold room_onClick, toggleRoomExpand. cbn [expandedRooms].
  destruct (decide (roomId ∈ expandedRooms st)) as [Hin|Hout].
  - by split.
  - split; [apply elem_of_union_r; by apply elem_of_singleton|].
    apply union_subseteq_l.
Qed.

Lemma toggleRoomExpand_twice roomId prev :
  toggleRoomExpand roomId (toggleRoomExpand roomId prev) = prev.
Proof.
  unfold toggleRoomExpand. destruct (decide (roomId ∈ prev)) as [Hin|Hout].
  - rewrite decide_False
      by (rewrite elem_of_difference, elem_of_singleton; tauto).
    apply set_eq. intros x.
    rewrite elem_of_union, elem_of_difference, elem_of_singleton.
    destruct (decide (x = roomId)) as [->|Hne]; tauto.
  - rewrite decide_True
      by (rewrite elem_of_union, elem_of_singleton; tauto).
    apply set_eq. intros x.
    rewrite elem_of_difference, elem_of_union, elem_of_singleton.
    destruct (decide (x = roomId)) as [->|Hne]; tauto.
Qed.

Lemma init_rooms_nonempty now report :
  ∃ room rest, rooms (initCurrentReport now report) = room :: rest.
Proof.
  unfold initCurrentReport.
  destruct (decide (length (rooms report) = 0%nat)) as [_|Hne].
  - exists (mkRoom (roomId_of 0 (now 0%nat)) "Front Elevation" []).
    eexists. reflexivity.
  - destruct (rooms report) as [|room rest]; [done|]. by exists room, rest.
Qed.

(** X24.  Toggling the expansion of a room flips the membership of that
    room in the set of expanded rooms and of no other room; toggling the same
    room twice gives the set back. *)
Theorem toggleRoomExpand_flips (roomId : string) (prev : gset string) :
  (roomId ∈ toggleRoomExpand roomId prev ↔ roomId ∉ prev) ∧
  (∀ other, other ≠ roomId →
            (other ∈ toggleRoomExpand roomId prev ↔ other ∈ prev)) ∧
  toggleRoomExpand roomId (toggleRoomExpand roomId prev) = prev.
Proof.
  assert (∀ s, (roomId ∈ toggleRoomExpand roomId s ↔ roomId ∉ s) ∧
               (∀ other, other ≠ roomId →
                  (other ∈ toggleRoomExpand roomId s ↔ other ∈ s))) as Hflip.
  { intros s. unfold toggleRoomExpand.
    destruct (decide (roomId ∈ s)) as [Hin|Hout]; split.
    - rewrite elem_of_difference, elem_of_singleton. tauto.
    - intros other Hne. rewrite elem_of_difference, elem_of_singleton. tauto.
    - rewrite elem_of_union, elem_of_singleton. tauto.
    - intros other Hne. rewrite elem_of_union, elem_of_singleton. tauto. }
  destruct (Hflip prev) as [Hsame Hother]. split; [exact Hsame|].
  split; [exact Hother|].
  destruct (Hflip (toggleRoomExpand roomId prev)) as [Hsame' Hother'].
  apply set_eq. intros x. destruct (decide (x = roomId)) as [->|Hne].
  - rewrite Hsame', Hsame. split; [apply dec_stable|tauto].
  - by rewrite Hother', Hother.
Qed.

Lemma room_clicks_grow (roomIds : list string) (st0 : RoomList) :
  (∀ id, selectedRoomId st0 = Some id → id ∈ expandedRooms st0) →
  let st := room_clicks roomIds st0 in
  (∀ id, selectedRoomId st = Some id → id ∈ expandedRooms st) ∧
  selectedRoomId st = from_option Some (selectedRoomId st0) (last roomIds) ∧
  (∀ id, id ∈ roomIds → id ∈ expandedRooms st) ∧
  expandedRooms st0 ⊆ expandedRooms st.
Proof.
  intros Hinv. cbn zeta.
  induction roomIds as [|roomId l IH] using rev_ind.
  - cbn. split; [exact Hinv|]. split; [done|]. split; [|done].
    intros id Hin. by apply elem_of_nil in Hin.
  - destruct IH as (_ & _ & Hall & Hsub).
    unfold room_clicks in *. rewrite foldl_app. cbn [foldl].
    destruct (room_onClick_expanded roomId
                (foldl (λ st roomId, room_onClick (expandedRooms st) roomId st)
                       st0 l))
      as [Hin Hgrow].
    rewrite last_snoc. cbn [from_option]. split; [|split; [|split]].
    + intros id. cbn [room_onClick selectedRoomId]. intros [= <-]. exact Hin.
    + reflexivity.
    + intros id [Hid|Hid]%elem_of_app.
      * apply Hgrow, Hall, Hid.
      * apply list_elem_of_singleton in Hid as ->. exact Hin.
    + etrans; [exact Hsub|exact Hgrow].
Qed.

(** X25.  Clicking the rooms of the side list, starting from the state the
    editor opens in.  When a render happens between one click and the next,
    so that the test of every handler reads the set it then updates: the
    selected room is the one clicked last and is among the expanded ones,
    every room clicked is expanded, and no room that was expanded is
    collapsed.  Without a render between them this fails: two clicks on a
    room that is not expanded, both handled by the handlers of one render,
    toggle the room twice, and it ends selected but not expanded, the set
    being as it was before the clicks. *)
Theorem room_clicks_only_expand (currentReport : SnaggingReport)
    (roomIds : list string) :
  let st0 := initRoomList currentReport in
  let st := room_clicks roomIds st0 in
  ((∀ id, selectedRoomId st = Some id → id ∈ expandedRooms st) ∧
   selectedRoomId st = from_option Some (selectedRoomId st0) (last roomIds) ∧
   (∀ id, id ∈ roomIds → id ∈ expandedRooms st) ∧
   expandedRooms st0 ⊆ expandedRooms st) ∧
  ∀ roomId, roomId ∉ expandedRooms st →
    let rendered := expandedRooms st in
    let st2 := room_onClick rendered roomId (room_onClick rendered roomId st) in
    selectedRoomId st2 = Some roomId ∧
    expandedRooms st2 = expandedRooms st ∧
    (roomId ∉ expandedRooms st2).
Proof.
  cbn zeta. split.
  - apply room_clicks_grow.
    intros id. unfold initRoomList. cbn [selectedRoomId expandedRooms].
    intros ->. apply initExpandedRooms_selected.
  - intros roomId Hout. unfold room_onClick. cbn [selectedRoomId expandedRooms].
    rewrite !decide_False by exact Hout.
    rewrite toggleRoomExpand_twice. by repeat split.
Qed.

Lemma room_clicks_only_expand_witness :
  let st := room_clicks ["room-1-900"] (initRoomList sample_report) in
  let rendered := expandedRooms st in
  let st2 := room_onClick rendered "room-5-900"
               (room_onClick rendered "room-5-900" st) in
  ("room-5-900" ∉ expandedRooms st) ∧
  "room-1-900" ∈ expandedRooms st ∧
  selectedRoomId st2 = Some "room-5-900" ∧
  ("room-5-900" ∉ expandedRooms st2).
Proof.
  cbn zeta.
  assert ("room-5-900"
            ∉ expandedRooms (room_clicks ["room-1-900"]
                               (initRoomList sample_report))) as Hout.
  { by_decide. }
  destruct (room_clicks_only_expand sample_report ["room-1-900"])
    as [(_ & _ & Hall & _) Hdouble].
  destruct (Hdouble "room-5-900" Hout) as (Hsel & _ & Hnot).
  split; [exact Hout|]. split; [|split; [exact Hsel|exact Hnot]].
  apply Hall. by apply list_elem_of_singleton.
Defined.

(** X26.  The editor always opens with a room selected, whatever report it
    is given: the first room of the report, or the first room of the default
    catalog when the report has no rooms.  That room is the one
    [selectedRoom] finds, and it is expanded. *)
Theorem editor_opens_on_first_room (now : nat → Z) (report : SnaggingReport) :
  let currentReport := initCurrentReport now report in
  let st := initRoomList currentReport in
  ∃ room,
    head (rooms currentReport) = Some room ∧
    head (rooms currentReport)
    = head (if decide (rooms report = []) then default_rooms now
            else rooms report) ∧
    selectedRoomId st = Some (room_id room) ∧
    selectedRoom currentReport (selectedRoomId st) = Some room ∧
    room_id room ∈ expandedRooms st.
Proof.
  cbn zeta. destruct (init_rooms_nonempty now report) as (room & rest & Heq).
  assert (rooms (initCurrentReport now report)
          = if decide (rooms report = []) then default_rooms now
            else rooms report) as Hrooms.
  { unfold initCurrentReport. destruct (rooms report) as [|r l] eqn:Hr.
    - rewrite decide_True by reflexivity. rewrite decide_True by reflexivity.
      reflexivity.
    - rewrite decide_False by discriminate.
      rewrite decide_False by discriminate. exact Hr. }
  exists room. rewrite <- Hrooms. clear Hrooms.
  unfold initRoomList, initSelectedRoomId, selectedRoom.
  cbn [selectedRoomId expandedRooms]. rewrite Heq. cbn [head List.find].
  rewrite bool_decide_eq_true_2 by reflexivity.
  repeat (split; [reflexivity|]). apply initExpandedRooms_selected.
Qed.

(** ** The name of the exported file *)

Section FileNameProperties.
Variable is_space : Ascii.ascii → bool.

Lemma replace_spaces_no_space in_run s :
  is_space "-"%char = false →
  Forall (λ c, is_space c = false)
         (String.list_ascii_of_string (replace_spaces is_space in_run s)).
Proof.
  intros Hhyphen. revert in_run.
  induction s as [|c s IH]; intros in_run; cbn; [constructor|].
  destruct (is_space c) eqn:Hc; [destruct in_run|]; cbn;
    try constructor; auto.
Qed.

Lemma replace_spaces_clean in_run s :
  Forall (λ c, is_space c = false) (String.list_ascii_of_string s) →
  replace_spaces is_space in_run s = s.
Proof.
  revert in_run. induction s as [|c s IH]; intros in_run Hs; [done|].
  cbn in Hs. apply Forall_cons in Hs as [Hc Hs]. cbn. rewrite Hc.
  by rewrite IH.
Qed.

Lemma replace_spaces_length in_run s :
  (String.length (replace_spaces is_space in_run s) <= String.length s)%nat.
Proof.
  revert in_run. induction s as [|c s IH]; intros in_run; cbn; [lia|].
  pose proof (IH true). pose proof (IH false).
  destruct (is_space c); [destruct in_run|]; cbn; lia.
Qed.

Lemma replace_spaces_empty s :
  replace_spaces is_space false s = "" ↔ s = "".
Proof.
  split; [|by intros ->]. destruct s as [|c s]; [done|]. cbn.
  by destruct (is_space c).
Qed.

(** X27.  The address part of the name of the exported file, for any class
    of white space that does not contain the hyphen: it holds no white
    space; it is not longer than the address; it is the address itself when
    the address holds no white space; and it is empty, so that the name
    falls back on [report], only for the empty address. *)
Theorem fileName_address_part (propertyAddress : string) :
  is_space "-"%char = false →
  let name := replace_spaces is_space false propertyAddress in
  Forall (λ c, is_space c = false) (String.list_ascii_of_string name) ∧
  (String.length name <= String.length propertyAddress)%nat ∧
  (Forall (λ c, is_space c = false)
          (String.list_ascii_of_string propertyAddress) →
   name = propertyAddress) ∧
  (pdf_fileName is_space propertyAddress = "snagging-report-report.pdf"
   ↔ propertyAddress = "" ∨ name = "report").
Proof.
  intros Hhyphen. cbn zeta. split; [by apply replace_spaces_no_space|].
  split; [apply replace_spaces_length|].
  split; [apply replace_spaces_clean|].
  unfold pdf_fileName. cbn zeta.
  destruct (decide (replace_spaces is_space false propertyAddress = ""))
    as [Hempty|Hfull].
  - apply (proj1 (replace_spaces_empty _)) in Hempty.
    split; [intros _; left; exact Hempty|intros _; reflexivity].
  - split.
    + intros Heq. right.
      change "snagging-report-report.pdf"
        with ("snagging-report-" +:+ "report" +:+ ".pdf") in Heq.
      apply (inj (String.app "snagging-report-")) in Heq.
      by apply string_app_inv_tail in Heq.
    + intros [->|Hname]; [done|]. by rewrite Hname.
Qed.
End FileNameProperties.

Lemma fileName_address_part_witness :
  Ascii.is_space "-"%char = false ∧
  Forall (λ c, Ascii.is_space c = false)
         (String.list_ascii_of_string
            (replace_spaces Ascii.is_space false "12  Oak Road")) ∧
  replace_spaces Ascii.is_space false "12  Oak Road" = "12-Oak-Road" ∧
  pdf_fileName Ascii.is_space "   " = "snagging-report--.pdf".
Proof.
  split; [reflexivity|]. split; [|split; reflexivity].
  exact (proj1 (fileName_address_part Ascii.is_space "12  Oak Road" eq_refl)).
Defined.

(** * Properties of runs of the application *)

Lemma store_agrees_persist stringify localStorage st st' ls :
  store_agrees stringify localStorage (st, ls) →
  isLoggedIn st' = isLoggedIn st →
  store_agrees stringify localStorage (st', App_persist stringify st' ls).
Proof.
  intros (Hflag & _ & Hframe) Hsame. unfold store_agrees, App_persist in *.
  cbn [fst snd] in *. split; [|split].
  - rewrite lookup_insert_ne by (intros H; by apply storage_keys_differ).
    by rewrite Hsame.
  - by rewrite lookup_insert_eq.
  - intros k Hr Hl. rewrite lookup_insert_ne by done. by apply Hframe.
Qed.

Lemma store_agrees_view stringify localStorage st st' ls :
  store_agrees stringify localStorage (st, ls) →
  isLoggedIn st' = isLoggedIn st → reports st' = reports st →
  store_agrees stringify localStorage (st', ls).
Proof.
  intros (Hflag & Hreports & Hframe) Hsame Hrep. unfold store_agrees in *.
  cbn [fst snd] in *. by rewrite Hsame, Hrep.
Qed.

Lemma store_agrees_step stringify localStorage s a :
  store_agrees stringify localStorage s →
  store_agrees stringify localStorage (App_step stringify s a).
Proof.
  destruct s as [st ls]. intros Hs.
  destruct a as [username password| |now today|id|[] id|id status|updated|];
    unfold App_step; cbn [fst snd].
  - destruct (Login_handleSubmit_cases username password ls)
      as [(_ & _ & ->)|(_ & error & ->)]; [|exact Hs].
    destruct Hs as (_ & Hreports & Hframe). unfold store_agrees.
    cbn [fst snd App_handleLogin isLoggedIn reports]. split; [|split].
    + rewrite lookup_insert_eq. by rewrite bool_decide_eq_true_2.
    + rewrite lookup_insert_ne by apply storage_keys_differ.
      exact Hreports.
    + intros k Hr Hl. rewrite lookup_insert_ne by done. by apply Hframe.
  - destruct Hs as (_ & Hreports & Hframe). unfold store_agrees, App_handleLogout.
    cbn [fst snd isLoggedIn reports]. split; [|split].
    + rewrite lookup_delete_eq. by rewrite bool_decide_eq_false_2.
    + rewrite lookup_delete_ne by apply storage_keys_differ.
      exact Hreports.
    + intros k Hr Hl. rewrite lookup_delete_ne by done. by apply Hframe.
  - by apply store_agrees_persist with st.
  - by apply store_agrees_view with st.
  - by apply store_agrees_persist with st.
  - by apply store_agrees_view with st.
  - by apply store_agrees_persist with st.
  - by apply store_agrees_persist with st.
  - by apply store_agrees_view with st.
Qed.

Lemma store_agrees_run stringify localStorage actions : ∀ s,
  store_agrees stringify localStorage s →
  store_agrees stringify localStorage (App_run stringify actions s).
Proof.
  induction actions as [|a actions IH]; intros s Hs; [exact Hs|].
  apply IH. by apply store_agrees_step.
Qed.

Lemma App_mount_Some parse stringify localStorage s0 :
  App_mount parse stringify localStorage = Some s0 →
  ∃ reports0,
    App_initReports parse localStorage = Some reports0 ∧
    s0 = (mkAppState (App_initLoggedIn localStorage) reports0 dashboard None,
          <[REPORTS := stringify reports0]> localStorage).
Proof.
  unfold App_mount, App_init, App_persist.
  destruct (App_initReports parse localStorage) as [reports0|]; [|done].
  intros [= <-]. by exists reports0.
Qed.

Lemma App_mount_None parse stringify localStorage :
  App_mount parse stringify localStorage = None
  ↔ ∃ stored, localStorage !! REPORTS = Some stored ∧ stored ≠ ""
              ∧ parse stored = None.
Proof.
  unfold App_mount, App_init, App_initReports.
  destruct (localStorage !! REPORTS) as [[|c stored]|].
  - split; [done|]. by intros (? & [= <-] & Hne & _).
  - destruct (parse (String c stored)) eqn:Hparse.
    + split; [done|]. intros (? & [= <-] & _ & Hnone). congruence.
    + split; [|done]. intros _. by exists (String c stored).
  - split; [done|]. by intros (? & ? & _).
Qed.

Lemma store_agrees_mount parse stringify localStorage s0 :
  App_mount parse stringify localStorage = Some s0 →
  store_agrees stringify localStorage s0.
Proof.
  intros (reports0 & _ & ->)%App_mount_Some.
  unfold store_agrees, App_initLoggedIn. cbn [fst snd isLoggedIn reports].
  split; [|split].
  - rewrite lookup_insert_ne; [done|]. intros H. by apply storage_keys_differ.
  - by rewrite lookup_insert_eq.
  - intros k Hr Hl. by rewrite lookup_insert_ne.
Qed.

Lemma logged_out_step stringify s a :
  ¬ demo_login a → isLoggedIn s.1 = false →
  isLoggedIn (App_step stringify s a).1 = false.
Proof.
  destruct s as [st ls]. intros Hdemo Hout.
  destruct a as [username password| |now today|id|[] id|id status|updated|];
    unfold App_step; cbn [fst snd]; try exact Hout; try reflexivity.
  destruct (Login_handleSubmit_cases username password ls)
    as [(Hu & Hp & _)|(_ & error & ->)]; [|exact Hout].
  destruct Hdemo. by split.
Qed.

Lemma logged_out_run stringify actions : ∀ s,
  Forall (λ a, ¬ demo_login a) actions → isLoggedIn s.1 = false →
  isLoggedIn (App_run stringify actions s).1 = false.
Proof.
  induction actions as [|a actions IH]; intros s Hactions Hout; [exact Hout|].
  apply Forall_cons in Hactions as [Ha Hactions].
  apply IH; [exact Hactions|]. by apply logged_out_step.
Qed.

(** X28.  Reloading the page.  The application mounts on a store unless
    the store holds a reports text that is not empty and that [JSON.parse]
    does not turn into reports; then nothing mounts and nothing is written.
    After it has mounted and run through any actions: the store holds the
    reports as they are in memory and the flag as the application has it;
    the reloaded application mounts with the same reports and the same
    login state, on the dashboard or the login form, when the stored text is
    not empty and parses back to the reports, and does not mount when that
    text does not parse; however it mounts, it does not show the editor; and
    the keys of the store other than the two of the application are as they
    were before the application mounted. *)
Theorem reload_restores (parse : string → option (list SnaggingReport))
    (stringify : list SnaggingReport → string)
    (localStorage : gmap string string) (actions : list AppAction) :
  (App_mount parse stringify localStorage = None
   ↔ ∃ stored, localStorage !! REPORTS = Some stored ∧ stored ≠ ""
               ∧ parse stored = None) ∧
  ∀ s0, App_mount parse stringify localStorage = Some s0 →
    let s := App_run stringify actions s0 in
    s.2 !! REPORTS = Some (stringify (reports s.1)) ∧
    App_initLoggedIn s.2 = isLoggedIn s.1 ∧
    (stringify (reports s.1) ≠ "" →
     parse (stringify (reports s.1)) = Some (reports s.1) →
     App_init parse s.2
     = Some (mkAppState (isLoggedIn s.1) (reports s.1) dashboard None)) ∧
    (stringify (reports s.1) ≠ "" →
     parse (stringify (reports s.1)) = None →
     App_init parse s.2 = None) ∧
    (∀ reloaded report, App_init parse s.2 = Some reloaded →
                        App_render reloaded ≠ EditorScreen report) ∧
    (∀ k, k ≠ REPORTS → k ≠ IS_LOGGED_IN → s.2 !! k = localStorage !! k).
Proof.
  split; [apply App_mount_None|]. intros s0 Hmount. cbn zeta.
  destruct (store_agrees_run stringify localStorage actions _
              (store_agrees_mount parse stringify localStorage s0 Hmount))
    as (Hflag & Hreports & Hframe).
  revert Hflag Hreports Hframe.
  generalize (App_run stringify actions s0).
  intros [st ls]. cbn [fst snd]. intros Hflag Hreports Hframe.
  split; [exact Hreports|]. split; [by rewrite Hflag|].
  split; [|split; [|split]].
  - intros Hne Hparse. unfold App_init, App_initReports, App_initLoggedIn.
    rewrite Hreports, <- Hflag.
    destruct (stringify (reports st)) as [|c stored]; [done|].
    by rewrite Hparse.
  - intros Hne Hparse. unfold App_init, App_initReports. rewrite Hreports.
    destruct (stringify (reports st)) as [|c stored]; [done|].
    by rewrite Hparse.
  - intros reloaded report. unfold App_init.
    destruct (App_initReports parse ls) as [reports0|]; [|done].
    intros [= <-]. unfold App_render, App_currentReport.
    cbn [isLoggedIn currentView currentReportId].
    by destruct (negb _).
  - exact Hframe.
Qed.

Lemma reload_restores_witness :
  let parse := λ stored, if decide (stored = "[]") then Some [] else None in
  let stringify := λ _ : list SnaggingReport, "[]" in
  let actions := [SubmitLogin "admin" "admin"; BackToDashboard] in
  App_mount parse stringify {[ REPORTS := "not json" ]} = None ∧
  ∃ s0, App_mount parse stringify ∅ = Some s0 ∧
        App_init parse (App_run stringify actions s0).2
        = Some (mkAppState true [] dashboard None).
Proof.
  intros parse stringify actions. split; [reflexivity|].
  assert (App_mount parse stringify ∅
          = Some (mkAppState false [] dashboard None,
                  <[REPORTS := "[]"]> ∅)) as Hmount by reflexivity.
  eexists. split; [exact Hmount|].
  destruct (proj2 (reload_restores parse stringify ∅ actions) _ Hmount)
    as (_ & _ & Hreload & _).
  rewrite Hreload; [reflexivity|discriminate|reflexivity].
Defined.

(** X29.  Without the demo credentials nothing gets past the login form:
    when the store the application mounts on does not carry the flag and no
    action of the run is a submission of admin/admin, the application is
    logged out after the run and shows the login form, whatever handlers were
    called and whatever the store holds under the other keys.  (On a store
    on which the application does not mount, nothing is shown at all.) *)
Theorem login_form_is_the_only_door
    (parse : string → option (list SnaggingReport))
    (stringify : list SnaggingReport → string)
    (localStorage : gmap string string) (actions : list AppAction)
    (s0 : AppState * gmap string string) :
  localStorage !! IS_LOGGED_IN ≠ Some "true" →
  Forall (λ a, ¬ demo_login a) actions →
  App_mount parse stringify localStorage = Some s0 →
  let s := App_run stringify actions s0 in
  isLoggedIn s.1 = false ∧ App_render s.1 = LoginScreen ∧
  s.2 !! IS_LOGGED_IN ≠ Some "true".
Proof.
  intros Hflag Hactions Hmount. cbn zeta.
  assert (isLoggedIn s0.1 = false) as Hout.
  { apply App_mount_Some in Hmount as (reports0 & _ & ->).
    cbn [fst isLoggedIn]. unfold App_initLoggedIn.
    by rewrite bool_decide_eq_false_2. }
  pose proof (store_agrees_run stringify localStorage actions _
                (store_agrees_mount parse stringify localStorage s0 Hmount))
    as (Hagree & _ & _).
  assert (isLoggedIn (App_run stringify actions s0).1 = false) as Hend.
  { by apply logged_out_run. }
  rewrite Hend in Hagree. split; [exact Hend|]. split.
  - unfold App_render. by rewrite Hend.
  - intros Htrue. rewrite bool_decide_eq_true_2 in Hagree by exact Htrue.
    discriminate Hagree.
Qed.

Lemma login_form_is_the_only_door_witness :
  let actions := [SubmitLogin "admin" "hunter2"; NewReport 900 "2024-05-01";
                  OpenReport "report-900"; SubmitLogin "root" "admin"] in
  ∃ s0, App_mount (λ _, None) (λ _, "[]") ∅ = Some s0 ∧
  let s := App_run (λ _, "[]") actions s0 in
  (∅ : gmap string string) !! IS_LOGGED_IN ≠ Some "true" ∧
  Forall (λ a, ¬ demo_login a) actions ∧
  isLoggedIn s.1 = false ∧ App_render s.1 = LoginScreen ∧
  s.2 !! IS_LOGGED_IN ≠ Some "true".
Proof.
  cbn zeta.
  assert ((∅ : gmap string string) !! IS_LOGGED_IN ≠ Some "true") as Hflag
    by (by rewrite lookup_empty).
  assert (Forall (λ a, ¬ demo_login a)
            [SubmitLogin "admin" "hunter2"; NewReport 900 "2024-05-01";
             OpenReport "report-900"; SubmitLogin "root" "admin"]) as Hactions.
  { repeat constructor; cbn; try tauto; intros [? ?]; discriminate. }
  assert (App_mount (λ _, None) (λ _, "[]") ∅
          = Some (mkAppState false [] dashboard None,
                  <[REPORTS := "[]"]> ∅)) as Hmount by reflexivity.
  eexists. split; [exact Hmount|].
  split; [exact Hflag|]. split; [exact Hactions|].
  exact (login_form_is_the_only_door (λ _, None) (λ _, "[]") ∅ _ _
           Hflag Hactions Hmount).
Defined.
